(** * VOLEX: hand-gesture recogniser, interaction state machine and voxel world

    A shallow embedding of [script.js] and [gesture-trainer.js].  The
    JavaScript classes [GestureRecognizer], [VoxelWorld] and
    [GestureTrainer] become modules holding a record of the instance
    fields and one function per method; a method that mutates [this]
    takes the record and returns the new one.

    Numbers.  A JavaScript number is modelled by a mathematical real
    ([R]): [Math.sqrt] is [sqrt], [Math.floor] is [Zfloor], comparisons
    are decided by [Rlt_dec] and friends.  Rounding, NaN and the
    infinities of binary64 are not modelled.  Timestamps ([Date.now()])
    are integers ([Z], milliseconds).

    Exceptions.  A [TypeError] (reading a property of [undefined], or
    [reduce] of an empty array) is [None] in the [option] monad.

    Not modelled: the DOM writes ([gestureName.innerText], the feedback
    border), [console] output and the random debug log, the THREE scene
    graph, camera controls and materials other than the mesh position
    and colour, the text [JSON.stringify] produces in [exportToJSON],
    the webcam set-up, the modal, the [alert] and the [localStorage] of
    the trainer. *)

From Stdlib Require Import String Ascii.
From Stdlib Require Import Reals Zfloor Lra Lia ZArith Bool Arith List.
Import ListNotations.

Set Warnings "-register-all".

Local Open Scope R_scope.

(** ** JavaScript helpers *)

Module JS.

(** [a < b], [a > b], [a >= b] on numbers, as booleans. *)
Definition lt (a b : R) : bool := if Rlt_dec a b then true else false.
Definition gt (a b : R) : bool := lt b a.
Definition ge (a b : R) : bool := if Rle_dec b a then true else false.

(** [Math.floor] and [Math.round] (round half up), back in [R]. *)
Definition floor (a : R) : R := IZR (Zfloor a).
Definition round (a : R) : R := IZR (Zfloor (a + / 2)).

(** [e1 || e2] on a number that may be [null]: zero is falsy. *)
Definition or_default (v : option R) (d : R) : R :=
  match v with
  | Some t => if Req_dec_T t 0 then d else t
  | None => d
  end.

(** The option monad carries a possible [TypeError]. *)
Definition bind {A B} (m : option A) (k : A -> option B) : option B :=
  match m with Some a => k a | None => None end.

(** [array.push(v); if (array.length > size) array.shift()] *)
Definition push_bounded {A} (size : nat) (buf : list A) (v : A) : list A :=
  let buf' := buf ++ [v] in
  if (size <? length buf')%nat then tl buf' else buf'.

End JS.

Notation "x <- m ;; k" := (JS.bind m (fun x => k))
  (at level 61, m at next level, right associativity).

(** ** Points *)

Module Vec3.
Record t := mk { x : R; y : R; z : R }.

(** [clone().add(v)], [clone().multiplyScalar(s)] *)
Definition add (a b : t) : t := mk (x a + x b) (y a + y b) (z a + z b).
Definition multiplyScalar (a : t) (s : R) : t := mk (x a * s) (y a * s) (z a * s).
End Vec3.

(** A landmark is a point; a hand is the array of landmarks the detector
    returns (21 of them by its contract). *)
Definition Landmark := Vec3.t.
Definition Hand := list Landmark.

(** [landmarks[i]], [undefined] out of range. *)
Definition at_index {A} (l : list A) (i : nat) : option A := nth_error l i.

(** ** Gesture labels *)

Inductive Gesture :=
| NONE | UNKNOWN | OPEN_PALM | CLOSED | PINCH | VICTORY | THUMBS_UP
| SWIPE_LEFT | SWIPE_RIGHT | ZOOM_IN | ZOOM_OUT.

Definition Gesture_eq_dec (a b : Gesture) : {a = b} + {a <> b}.
Proof. decide equality. Defined.

Definition Gesture_eqb (a b : Gesture) : bool :=
  if Gesture_eq_dec a b then true else false.

(** ** class GestureRecognizer *)

Module GestureRecognizer.

Record HandAnalysis := mkHandAnalysis {
  gesture : Gesture;
  isPinching : bool;
  isFist : bool;
  center : Landmark;
  pinchCenter : Vec3.t
}.

(** The mutable fields of the instance.  [history] holds palm centres
    for swipe detection. *)
Record t := mk {
  history : list Landmark;
  pinchThreshold : R;
  gestureHistory : list Gesture;
  lastStableGesture : Gesture;
  positionBuffer : list Vec3.t
}.

(** Fields set once by the constructor and never written again. *)
Definition historySize : nat := 15.
Definition swipeThreshold : R := 5 / 100.
Definition gestureHistorySize : nat := 10.
Definition gestureConfidenceThreshold : R := 6 / 10.
Definition positionBufferSize : nat := 5.

(** [constructor(trainer)]: [personalizedPinch] is what
    [trainer?.getPersonalizedThreshold('pinch')] returned. *)
Definition constructor (personalizedPinch : option R) : t :=
  mk [] (JS.or_default personalizedPinch (5 / 100)) [] NONE [].

(** [dist], the Euclidean distance local to [analyzeHand]. *)
Definition dist (p1 p2 : Vec3.t) : R :=
  sqrt ((Vec3.x p1 - Vec3.x p2) ^ 2 + (Vec3.y p1 - Vec3.y p2) ^ 2
        + (Vec3.z p1 - Vec3.z p2) ^ 2).

(** [arr.filter(Boolean).length] *)
Definition count_true (l : list bool) : nat := length (filter (fun b => b) l).

(** [positionBuffer.reduce((sum, p) => sum + p.x, 0)] *)
Definition sum_of (f : Vec3.t -> R) (buf : list Vec3.t) : R :=
  fold_left (fun sum p => sum + f p) buf 0.

(** The mean of the buffered positions, coordinate by coordinate. *)
Definition average (buf : list Vec3.t) : Vec3.t :=
  Vec3.mk (sum_of Vec3.x buf / INR (length buf))
          (sum_of Vec3.y buf / INR (length buf))
          (sum_of Vec3.z buf / INR (length buf)).

(** The raw midpoint of thumb tip and index tip. *)
Definition rawPinchCenter (thumbTip indexTip : Landmark) : Vec3.t :=
  Vec3.mk ((Vec3.x thumbTip + Vec3.x indexTip) / 2)
          ((Vec3.y thumbTip + Vec3.y indexTip) / 2)
          ((Vec3.z thumbTip + Vec3.z indexTip) / 2).

(** The five predicates that decide the label in [analyzeHand]. *)
Record Pose := mkPose {
  p_isPinching : bool;
  p_isThumbsUp : bool;
  p_victoryCondition : bool;
  p_isFist : bool;
  p_isOpen : bool
}.

(** The tests of [analyzeHand], in the order of the source, on the
    eleven landmarks it reads. *)
Definition pose (pinchThr : R)
    (wrist l2 thumbTip l5 indexTip l9 middleTip l13 ringTip l17 pinkyTip : Landmark)
    : Pose :=
  let palmBase := wrist in
  let pinchDist := dist thumbTip indexTip in
  let thumbIndexClose := JS.lt pinchDist pinchThr in
  let middleExtended := JS.gt (dist middleTip wrist) (dist l9 wrist * (11 / 10)) in
  let ringExtended := JS.gt (dist ringTip wrist) (dist l13 wrist * (11 / 10)) in
  let pinkyExtended := JS.gt (dist pinkyTip wrist) (dist l17 wrist * (11 / 10)) in
  let otherFingersExtended := middleExtended && ringExtended && pinkyExtended in
  let isPinching := thumbIndexClose && otherFingersExtended in
  let curlFactor := 13 / 10 in
  let indexCurled := JS.lt (dist indexTip palmBase) (dist l5 palmBase * curlFactor) in
  let middleCurled := JS.lt (dist middleTip palmBase) (dist l9 palmBase * curlFactor) in
  let ringCurled := JS.lt (dist ringTip palmBase) (dist l13 palmBase * curlFactor) in
  let pinkyCurled := JS.lt (dist pinkyTip palmBase) (dist l17 palmBase * curlFactor) in
  let curledCount := count_true [indexCurled; middleCurled; ringCurled; pinkyCurled] in
  let thumbCurled := JS.lt (dist thumbTip palmBase) (dist l2 palmBase * (14 / 10)) in
  let isFist := (curledCount =? 4)%nat && thumbCurled in
  let victoryCondition :=
    negb indexCurled && negb middleCurled && ringCurled && pinkyCurled
    && negb thumbCurled in
  let thumbIsUp :=
    JS.lt (Vec3.y thumbTip) (Vec3.y l5)
    && JS.gt (dist thumbTip palmBase) (dist l2 palmBase * (15 / 10)) in
  let isThumbsUp := thumbIsUp && (curledCount =? 4)%nat in
  let extendFactor := 105 / 100 in
  let indexExtended := JS.gt (dist indexTip wrist) (dist l5 wrist * extendFactor) in
  let middleExt := JS.gt (dist middleTip wrist) (dist l9 wrist * extendFactor) in
  let ringExt := JS.gt (dist ringTip wrist) (dist l13 wrist * extendFactor) in
  let pinkyExt := JS.gt (dist pinkyTip wrist) (dist l17 wrist * extendFactor) in
  let extendedCount := count_true [indexExtended; middleExt; ringExt; pinkyExt] in
  let isOpen := (3 <=? extendedCount)%nat in
  mkPose isPinching isThumbsUp victoryCondition isFist isOpen.

(** Gesture priority: PINCH > THUMBS_UP > VICTORY > FIST > OPEN. *)
Definition label (p : Pose) : Gesture :=
  if p_isPinching p then PINCH
  else if p_isThumbsUp p then THUMBS_UP
  else if p_victoryCondition p then VICTORY
  else if p_isFist p then CLOSED
  else if p_isOpen p then OPEN_PALM
  else OPEN_PALM.

(** [analyzeHand(landmarks)]: classifies one hand and pushes its raw
    pinch midpoint on the instance's position buffer. *)
Definition analyzeHand (r : t) (landmarks : Hand) : option (HandAnalysis * t) :=
  thumbTip <- at_index landmarks 4 ;;
  indexTip <- at_index landmarks 8 ;;
  middleTip <- at_index landmarks 12 ;;
  ringTip <- at_index landmarks 16 ;;
  pinkyTip <- at_index landmarks 20 ;;
  wrist <- at_index landmarks 0 ;;
  l9 <- at_index landmarks 9 ;;
  l13 <- at_index landmarks 13 ;;
  l17 <- at_index landmarks 17 ;;
  l5 <- at_index landmarks 5 ;;
  l2 <- at_index landmarks 2 ;;
  let p := pose (pinchThreshold r) wrist l2 thumbTip l5 indexTip l9 middleTip
                l13 ringTip l17 pinkyTip in
  let buf := JS.push_bounded positionBufferSize (positionBuffer r)
                             (rawPinchCenter thumbTip indexTip) in
  let smoothedPinchCenter := average buf in
  Some (mkHandAnalysis (label p) (p_isPinching p) (p_isFist p) l9 smoothedPinchCenter,
        mk (history r) (pinchThreshold r) (gestureHistory r) (lastStableGesture r) buf).

(** [landmarks.map(hand => this.analyzeHand(hand))]: the hands are
    analysed in order on the same instance. *)
Fixpoint analyzeHands (r : t) (landmarks : list Hand) : option (list HandAnalysis * t) :=
  match landmarks with
  | [] => Some ([], r)
  | hand :: rest =>
      a <- analyzeHand r hand ;;
      b <- analyzeHands (snd a) rest ;;
      Some (fst a :: fst b, snd b)
  end.

(** [gestureCounts]: a JavaScript object used as a map from label to
    count; its keys are enumerated in insertion order. *)
Fixpoint increment (g : Gesture) (counts : list (Gesture * nat)) : list (Gesture * nat) :=
  match counts with
  | [] => [(g, 1%nat)]
  | (k, c) :: rest =>
      if Gesture_eqb k g then (k, S c) :: rest else (k, c) :: increment g rest
  end.

Definition gestureCounts (h : list Gesture) : list (Gesture * nat) :=
  fold_left (fun counts g => increment g counts) h [].

(** [gestureCounts[g]]; an absent key reads as 0 where the code writes
    [gestureCounts[g] || 0]. *)
Fixpoint count_of (counts : list (Gesture * nat)) (g : Gesture) : nat :=
  match counts with
  | [] => 0%nat
  | (k, c) :: rest => if Gesture_eqb k g then c else count_of rest g
  end.

(** [Object.keys(gestureCounts).reduce((a, b) =>
      gestureCounts[a] > gestureCounts[b] ? a : b)] *)
Definition mostFrequent (counts : list (Gesture * nat)) : option Gesture :=
  match map fst counts with
  | [] => None
  | k :: ks =>
      Some (fold_left
              (fun a b => if (count_of counts b <? count_of counts a)%nat then a else b)
              ks k)
  end.

(** Lines 97-121 of [update]: the majority-vote stabiliser fed with
    the primary hand's raw label. *)
Definition stabilize (r : t) (currentGesture : Gesture) : option (Gesture * t) :=
  let gh := JS.push_bounded gestureHistorySize (gestureHistory r) currentGesture in
  let counts := gestureCounts gh in
  stableGesture <- mostFrequent counts ;;
  let confidence := INR (count_of counts stableGesture) / INR (length gh) in
  let stable :=
    if JS.ge confidence gestureConfidenceThreshold then stableGesture
    else lastStableGesture r in
  Some (stable, mk (history r) (pinchThreshold r) gh stable (positionBuffer r)).

(** What [update] returns: the zoom branches set [hands], the others
    set [hand]. *)
Record Result := mkResult {
  r_gesture : Gesture;
  r_hand : option HandAnalysis;
  r_hands : option (list HandAnalysis)
}.

(** The two-hand rules of [update]. *)
Definition twoHandGesture (hands : list HandAnalysis) : option Gesture :=
  match hands with
  | [h1; h2] =>
      let g1 := gesture h1 in
      let g2 := gesture h2 in
      if Gesture_eqb g1 CLOSED && Gesture_eqb g2 CLOSED then Some ZOOM_IN
      else if (Gesture_eqb g1 CLOSED && Gesture_eqb g2 OPEN_PALM)
              || (Gesture_eqb g1 OPEN_PALM && Gesture_eqb g2 CLOSED)
      then Some ZOOM_OUT
      else None
  | _ => None
  end.

(** The swipe test of [update] on the updated palm-centre history. *)
Definition swipeOf (h : list Landmark) (primaryGesture : Gesture) : option Gesture :=
  if (length h =? historySize)%nat then
    match at_index h 0, at_index h (length h - 1) with
    | Some start, Some end_ =>
        let dx := Vec3.x end_ - Vec3.x start in
        if JS.gt (Rabs dx) swipeThreshold
           && JS.gt (Rabs dx) (Rabs (Vec3.y end_ - Vec3.y start) * 2)
        then
          if Gesture_eqb primaryGesture OPEN_PALM
          then Some (if JS.gt dx 0 then SWIPE_RIGHT else SWIPE_LEFT)
          else None
        else None
    | _, _ => None
    end
  else None.

(** [update(landmarks)]; [None] for the argument stands for a falsy
    [landmarks]. *)
Definition update (r : t) (landmarks : option (list Hand)) : option (Result * t) :=
  match landmarks with
  | None | Some [] => Some (mkResult NONE None None, r)
  | Some (hand0 :: others) =>
      hs <- analyzeHands r (hand0 :: others) ;;
      let hands := fst hs in
      let r1 := snd hs in
      match twoHandGesture hands with
      | Some zoom => Some (mkResult zoom None (Some hands), r1)
      | None =>
          primaryHand <- at_index hands 0 ;;
          let palmCenter := center primaryHand in
          let h := JS.push_bounded historySize (history r1) palmCenter in
          let r2 := mk h (pinchThreshold r1) (gestureHistory r1)
                       (lastStableGesture r1) (positionBuffer r1) in
          match swipeOf h (gesture primaryHand) with
          | Some swipe => Some (mkResult swipe (Some primaryHand) None, r2)
          | None =>
              s <- stabilize r2 (gesture primaryHand) ;;
              Some (mkResult (fst s) (Some primaryHand) None, snd s)
          end
      end
  end.

End GestureRecognizer.

(** ** The voxel map *)

(** A [THREE.Mesh] of the world: its position and its material colour
    (what [material.color.getHex()] returns, the 24-bit value the
    material was built with). *)
Module Mesh.
Record t := mk { position : Vec3.t; color : Z }.
End Mesh.

(** A key is the template string [`${pos.x},${pos.y},${pos.z}`].  Two
    such strings are equal exactly when the three numbers are, so the
    key is modelled by the triple. *)
Definition Key := (R * R * R)%type.

Definition key_of (pos : Vec3.t) : Key := (Vec3.x pos, Vec3.y pos, Vec3.z pos).

Definition Key_eq_dec (a b : Key) : {a = b} + {a <> b}.
Proof. repeat decide equality; apply Req_dec_T. Defined.

Definition Key_eqb (a b : Key) : bool := if Key_eq_dec a b then true else false.

(** A JavaScript [Map] with [Key] keys: [forEach] and [values()] go in
    insertion order, [set] on a present key keeps its place. *)
Module JSMap.
Definition t (V : Type) := list (Key * V).

Fixpoint get {V} (m : t V) (k : Key) : option V :=
  match m with
  | [] => None
  | (k', v) :: rest => if Key_eqb k' k then Some v else get rest k
  end.

Definition has {V} (m : t V) (k : Key) : bool :=
  match get m k with Some _ => true | None => false end.

Fixpoint set {V} (m : t V) (k : Key) (v : V) : t V :=
  match m with
  | [] => [(k, v)]
  | (k', v') :: rest =>
      if Key_eqb k' k then (k', v) :: rest else (k', v') :: set rest k v
  end.

Fixpoint delete {V} (m : t V) (k : Key) : t V :=
  match m with
  | [] => []
  | (k', v') :: rest =>
      if Key_eqb k' k then rest else (k', v') :: delete rest k
  end.
End JSMap.

(** ** JSON.parse

    The runtime's [JSON.parse], written out for the JSON grammar
    (ECMA-404).  The text is a [string] of code units below 256; string
    values keep their code units as numbers. *)
Module JSON.

Inductive value :=
| Null
| Bool (b : bool)
| Number (n : R)
| String (units : list N)
| Array (items : list value)
| Object (members : list (list N * value)).

Definition units_of (s : string) : list N :=
  map N_of_ascii (list_ascii_of_string s).

Definition is_ws (c : ascii) : bool :=
  let n := nat_of_ascii c in
  ((n =? 32) || (n =? 9) || (n =? 10) || (n =? 13))%nat.

Fixpoint skip_ws (s : list ascii) : list ascii :=
  match s with
  | c :: rest => if is_ws c then skip_ws rest else s
  | [] => []
  end.

Definition digit_of (c : ascii) : option Z :=
  let n := nat_of_ascii c in
  if ((48 <=? n) && (n <=? 57))%nat then Some (Z.of_nat (n - 48)) else None.

Definition hex_of (c : ascii) : option N :=
  let n := nat_of_ascii c in
  if ((48 <=? n) && (n <=? 57))%nat then Some (N.of_nat (n - 48))
  else if ((97 <=? n) && (n <=? 102))%nat then Some (N.of_nat (n - 87))
  else if ((65 <=? n) && (n <=? 70))%nat then Some (N.of_nat (n - 55))
  else None.

(** Reads a maximal run of digits: their value, how many, the rest. *)
Fixpoint digits (s : list ascii) (acc : Z) (count : nat) : Z * nat * list ascii :=
  match s with
  | c :: rest =>
      match digit_of c with
      | Some d => digits rest (10 * acc + d)%Z (S count)
      | None => (acc, count, s)
      end
  | [] => (acc, count, [])
  end.

(** Consumes the character of code [code] if the text starts with it. *)
Definition strip (code : nat) (s : list ascii) : bool * list ascii :=
match s with
| c :: rest => if (nat_of_ascii c =? code)%nat then (true, rest) else (false, s)
| [] => (false, s)
end.

(** A number: an optional minus sign, an integer part without leading
    zero, an optional fraction, an optional exponent. *)
Definition number (s : list ascii) : option (R * list ascii) :=
let (negative, s0) := strip 45 s in
match s0 with
| [] => None
| c0 :: after0 =>
    match digit_of c0 with
    | None => None
    | Some d0 =>
        let '(int_part, _, s1) :=
          if (d0 =? 0)%Z then (0%Z, 1%nat, after0) else digits s0 0%Z 0%nat in
        let (dot, after_dot) := strip 46 s1 in
        let '(mantissa, fraction_digits, s2) :=
          if dot then digits after_dot int_part 0%nat else (int_part, 0%nat, s1) in
        if dot && (fraction_digits =? 0)%nat then None
        else
          let (e_lower, after_e) := strip 101 s2 in
          let (e_upper, after_E) := strip 69 s2 in
          if e_lower || e_upper then
            let s3 := if e_lower then after_e else after_E in
            let (plus, after_plus) := strip 43 s3 in
            let (minus, after_minus) := strip 45 s3 in
            let s4 := if plus then after_plus else if minus then after_minus else s3 in
            let '(e, exponent_digits, s5) := digits s4 0%Z 0%nat in
            if (exponent_digits =? 0)%nat then None
            else
              let magnitude :=
                IZR mantissa
                * powerRZ 10 ((if minus then -1 else 1) * e - Z.of_nat fraction_digits) in
              Some (if negative then - magnitude else magnitude, s5)
          else
            let magnitude := IZR mantissa * powerRZ 10 (0 - Z.of_nat fraction_digits) in
            Some (if negative then - magnitude else magnitude, s2)
    end
end.

(** The characters of a string after its opening quote. *)
Fixpoint chars (s : list ascii) (acc : list N) : option (list N * list ascii) :=
  match s with
  | [] => None
  | c :: rest =>
      let n := nat_of_ascii c in
      if (n =? 34)%nat then Some (rev acc, rest)
      else if (n <? 32)%nat then None
      else if (n =? 92)%nat then
        match rest with
        | e :: rest' =>
            let m := nat_of_ascii e in
            if (m =? 34)%nat then chars rest' (34%N :: acc)
            else if (m =? 92)%nat then chars rest' (92%N :: acc)
            else if (m =? 47)%nat then chars rest' (47%N :: acc)
            else if (m =? 98)%nat then chars rest' (8%N :: acc)
            else if (m =? 102)%nat then chars rest' (12%N :: acc)
            else if (m =? 110)%nat then chars rest' (10%N :: acc)
            else if (m =? 114)%nat then chars rest' (13%N :: acc)
            else if (m =? 116)%nat then chars rest' (9%N :: acc)
            else if (m =? 117)%nat then
              match rest' with
              | h1 :: h2 :: h3 :: h4 :: rest'' =>
                  match hex_of h1, hex_of h2, hex_of h3, hex_of h4 with
                  | Some a, Some b, Some c', Some d =>
                      chars rest'' ((4096 * a + 256 * b + 16 * c' + d)%N :: acc)
                  | _, _, _, _ => None
                  end
              | _ => None
              end
            else None
        | [] => None
        end
      else chars rest (N.of_nat n :: acc)
  end.

Definition literal (word : string) (s : list ascii) : option (list ascii) :=
  let w := list_ascii_of_string word in
  if list_eq_dec ascii_dec (firstn (length w) s) w
  then Some (skipn (length w) s) else None.

(** A parser of one value: the value and the text left. *)
Definition parser := list ascii -> option (value * list ascii).

(** What follows the first element of an array: [, value] repeated, then
    the closing bracket.  [pv] parses the elements. *)
Fixpoint elements (pv : parser) (n : nat) (acc : list value) (s : list ascii)
    : option (value * list ascii) :=
match n with
| O => None
| S n' =>
    match skip_ws s with
    | c :: rest =>
        if (nat_of_ascii c =? 93)%nat then Some (Array (rev acc), rest)
        else if (nat_of_ascii c =? 44)%nat then
          v <- pv rest ;; elements pv n' (fst v :: acc) (snd v)
        else None
    | [] => None
    end
end.

(** One member of an object: a quoted name, a colon, a value. *)
Definition member_at (pv : parser) (s : list ascii)
    : option ((list N * value) * list ascii) :=
match skip_ws s with
| q :: rest1 =>
    if (nat_of_ascii q =? 34)%nat then
      k <- chars rest1 [] ;;
      match skip_ws (snd k) with
      | colon :: rest2 =>
          if (nat_of_ascii colon =? 58)%nat then
            v <- pv rest2 ;; Some ((fst k, fst v), snd v)
          else None
      | [] => None
      end
    else None
| [] => None
end.

(** What follows the first member of an object. *)
Fixpoint members (pv : parser) (n : nat) (acc : list (list N * value)) (s : list ascii)
    : option (value * list ascii) :=
match n with
| O => None
| S n' =>
    match skip_ws s with
    | c :: rest =>
        if (nat_of_ascii c =? 125)%nat then Some (Object (rev acc), rest)
        else if (nat_of_ascii c =? 44)%nat then
          m <- member_at pv rest ;; members pv n' (fst m :: acc) (snd m)
        else None
    | [] => None
    end
end.

(** One value, with leading white space; [pv] parses the nested values
    and [n] bounds the number of items of an array or object. *)
Definition value_step (pv : parser) (n : nat) (s : list ascii)
    : option (value * list ascii) :=
match skip_ws s with
| [] => None
| c :: rest =>
    let code := nat_of_ascii c in
    if (code =? 34)%nat then
      k <- chars rest [] ;; Some (String (fst k), snd k)
    else if (code =? 91)%nat then
      match skip_ws rest with
      | c1 :: rest1 =>
          if (nat_of_ascii c1 =? 93)%nat then Some (Array [], rest1)
          else v <- pv rest ;; elements pv n [fst v] (snd v)
      | [] => None
      end
    else if (code =? 123)%nat then
      match skip_ws rest with
      | c1 :: rest1 =>
          if (nat_of_ascii c1 =? 125)%nat then Some (Object [], rest1)
          else m <- member_at pv rest ;; members pv n [fst m] (snd m)
      | [] => None
      end
    else
      match literal "null" (c :: rest), literal "true" (c :: rest),
            literal "false" (c :: rest) with
      | Some r, _, _ => Some (Null, r)
      | _, Some r, _ => Some (Bool true, r)
      | _, _, Some r => Some (Bool false, r)
      | None, None, None =>
          v <- number (c :: rest) ;; Some (Number (fst v), snd v)
      end
end.

(** The recursion on nested values, with fuel. *)
Fixpoint parse_value (fuel : nat) (s : list ascii) : option (value * list ascii) :=
match fuel with
| O => None
| S fuel' => value_step (parse_value fuel') fuel' s
end.

(** [JSON.parse(text)]: one value, then only white space.  [None] is
    the [SyntaxError].  Fuel beyond the length of the text changes
    nothing ([parse_value_fuel] below). *)
Definition parse (text : string) : option value :=
let s := list_ascii_of_string text in
match parse_value (S (length s)) s with
| Some (v, rest) =>
    match skip_ws rest with
    | [] => Some v
    | _ :: _ => None
    end
| None => None
end.

(** [v.name] on a parsed object: the last member of that name. *)
Fixpoint member (name : list N) (members : list (list N * value)) : option value :=
  match members with
  | [] => None
  | (k, v) :: rest =>
      match member name rest with
      | Some v' => Some v'
      | None => if list_eq_dec N.eq_dec k name then Some v else None
      end
  end.

End JSON.

(** ** class VoxelWorld *)

Inductive ActionType := ADD | REMOVE.

(** An entry of the undo log. *)
Module Action.
Record t := mk {
  type : ActionType;
  key : Key;
  position : Vec3.t;
  color : Z
}.
End Action.

(** What the [THREE.Raycaster] finds for the pointer of this frame: the
    nearest placed voxel on the ray (its mesh position and the normal of
    the face hit), else the point where the ray meets the floor plane,
    else nothing. *)
Inductive RayResult :=
| VoxelHit (hitPos normal : Vec3.t)
| PlaneHit (point : Vec3.t)
| NoHit.

Module VoxelWorld.

Record t := mk {
  voxels : JSMap.t Mesh.t;        (* this.voxels: "x,y,z" -> Mesh *)
  history : list Action.t;        (* this.history, newest last *)
  cursor_position : Vec3.t;       (* this.cursor.position *)
  cursorVisible : bool;           (* this.cursorVisible *)
  cursor_visible : bool;          (* this.cursor.visible *)
  camera_position_z : R;          (* this.camera.position.z *)
  scene_rotation : Vec3.t         (* this.scene.rotation *)
}.

(** [this.voxelSize] *)
Definition voxelSize : R := 1.

(** The colour of a placed voxel, [0x00ffff]. *)
Definition cyan : Z := 65535.

(** [new VoxelWorld(canvas)]: no voxel, empty log, hidden cursor,
    camera at (0, 5, 8). *)
Definition constructor : t :=
  mk [] [] (Vec3.mk 0 0 0) false false 8 (Vec3.mk 0 0 0).

(** Field updates: the cursor ([cursor.position.set], [cursorVisible] and
    [cursor.visible] together), the voxel map with the log, the camera
    distance, the scene rotation. *)
Definition with_cursor (w : t) (pos : Vec3.t) (visible : bool) : t :=
  mk (voxels w) (history w) pos visible visible (camera_position_z w)
     (scene_rotation w).

Definition hide_cursor (w : t) : t :=
  mk (voxels w) (history w) (cursor_position w) false false
     (camera_position_z w) (scene_rotation w).

Definition with_voxels (w : t) (m : JSMap.t Mesh.t) (h : list Action.t) : t :=
  mk m h (cursor_position w) (cursorVisible w) (cursor_visible w)
     (camera_position_z w) (scene_rotation w).

Definition with_camera_z (w : t) (cz : R) : t :=
  mk (voxels w) (history w) (cursor_position w) (cursorVisible w)
     (cursor_visible w) cz (scene_rotation w).

Definition with_rotation (w : t) (rot : Vec3.t) : t :=
  mk (voxels w) (history w) (cursor_position w) (cursorVisible w)
     (cursor_visible w) (camera_position_z w) rot.

(** The [forEach] of the floor branch: the running [maxY] after one
    more voxel of the map. *)
Definition columnStep (x z : R) (maxY : R) (entry : Key * Mesh.t) : R :=
  let pos := Mesh.position (snd entry) in
  if JS.lt (Rabs (Vec3.x pos - x)) (1 / 100)
     && JS.lt (Rabs (Vec3.z pos - z)) (1 / 100)
  then if JS.ge (Vec3.y pos) maxY then Vec3.y pos + voxelSize else maxY
  else maxY.

(** [updateCursorFromHand(ndcX, ndcY)], given what the ray cast from
    the pointer found. *)
Definition updateCursorFromHand (ray : RayResult) (w : t) : option Vec3.t * t :=
  match ray with
  | VoxelHit hitPos normal =>
      let offset := Vec3.multiplyScalar normal voxelSize in
      let targetPos := Vec3.add hitPos offset in
      let x := JS.round (Vec3.x targetPos / voxelSize) * voxelSize in
      let y := JS.round (Vec3.y targetPos / voxelSize) * voxelSize in
      let z := JS.round (Vec3.z targetPos / voxelSize) * voxelSize in
      (Some (Vec3.mk x y z), with_cursor w (Vec3.mk x y z) true)
  | PlaneHit point =>
      let x := JS.floor (Vec3.x point / voxelSize) * voxelSize + voxelSize / 2 in
      let z := JS.floor (Vec3.z point / voxelSize) * voxelSize + voxelSize / 2 in
      let maxY := fold_left (columnStep x z) (voxels w) (voxelSize / 2) in
      (Some (Vec3.mk x maxY z), with_cursor w (Vec3.mk x maxY z) true)
  | NoHit => (None, hide_cursor w)
  end.

(** [createVoxelAtCursor()] *)
Definition createVoxelAtCursor (w : t) : bool * t :=
  if negb (cursorVisible w) then (false, w)
  else
    let pos := cursor_position w in
    let key := key_of pos in
    if JSMap.has (voxels w) key then (false, w)
    else
      let cube := Mesh.mk pos cyan in
      (true,
       with_voxels w (JSMap.set (voxels w) key cube)
                   (history w ++ [Action.mk ADD key pos cyan])).

(** [removeVoxelAtCursor()] *)
Definition removeVoxelAtCursor (w : t) : t :=
  if negb (cursorVisible w) then w
  else
    let pos := cursor_position w in
    let key := key_of pos in
    match JSMap.get (voxels w) key with
    | Some trash =>
        with_voxels w (JSMap.delete (voxels w) key)
                    (history w ++ [Action.mk REMOVE key pos (Mesh.color trash)])
    | None => w
    end.

(** [history.pop()]: the log without its last entry, and that entry. *)
Definition pop {A} (l : list A) : option (list A * A) :=
  match rev l with
  | [] => None
  | a :: before => Some (rev before, a)
  end.

(** [undo()] *)
Definition undo (w : t) : t :=
  match pop (history w) with
  | None => w
  | Some (h, action) =>
      match Action.type action with
      | ADD =>
          if JSMap.has (voxels w) (Action.key action)
          then with_voxels w (JSMap.delete (voxels w) (Action.key action)) h
          else with_voxels w (voxels w) h
      | REMOVE =>
          let cube := Mesh.mk (Action.position action) (Action.color action) in
          with_voxels w (JSMap.set (voxels w) (Action.key action) cube) h
      end
  end.

(** [reset()] *)
Definition reset (w : t) : t :=
  with_rotation (with_voxels w [] []) (Vec3.mk 0 0 0).

(** How the callback of [loadFromJSON] fares on one parsed entry. *)
Inductive Entry :=
| Voxel (x y z : R) (color : Z)   (* numeric x, y, z: a cube is built *)
| Throws                          (* [null]: reading [v.color] throws *)
| Unmodelled.                     (* a coordinate or colour that is not a number *)

(** [v.color || 0x00ffff], through [THREE.Color]: a number is floored
    and its low 24 bits kept; an absent, [null], [false] or zero
    colour gives the default. *)
Definition colorOf (c : option JSON.value) : option Z :=
  match c with
  | None | Some JSON.Null | Some (JSON.Bool false) => Some cyan
  | Some (JSON.Number n) =>
      if Req_dec_T n 0 then Some cyan else Some (Zfloor n mod 16777216)%Z
  | Some _ => None
  end.

(** The entry [v]: its [x], [y], [z] and colour when it is an object. *)
Definition entryOf (v : JSON.value) : Entry :=
  match v with
  | JSON.Null => Throws
  | JSON.Object members =>
      match JSON.member (JSON.units_of "x") members,
            JSON.member (JSON.units_of "y") members,
            JSON.member (JSON.units_of "z") members,
            colorOf (JSON.member (JSON.units_of "color") members) with
      | Some (JSON.Number x), Some (JSON.Number y), Some (JSON.Number z), Some c =>
          Voxel x y z c
      | _, _, _, _ => Unmodelled
      end
  | _ => Unmodelled
  end.

(** How [loadFromJSON] ends: normally, or in its [catch] (the error is
    logged, nothing is thrown to the caller). *)
Inductive Outcome := Loaded | Caught.

(** [data.forEach(v => ...)] inside the [try]. *)
Fixpoint loadEntries (data : list JSON.value) (m : JSMap.t Mesh.t)
    : option (Outcome * JSMap.t Mesh.t) :=
  match data with
  | [] => Some (Loaded, m)
  | v :: rest =>
      match entryOf v with
      | Voxel x y z c =>
          loadEntries rest (JSMap.set m (x, y, z) (Mesh.mk (Vec3.mk x y z) c))
      | Throws => Some (Caught, m)
      | Unmodelled => None
      end
  end.

(** [loadFromJSON(jsonString)].  The result is [None] only when an
    entry is [Unmodelled]. *)
Definition loadFromJSON (jsonString : string) (w : t) : option (Outcome * t) :=
  match JSON.parse jsonString with
  | None => Some (Caught, w)
  | Some data =>
      let w1 := reset w in
      match data with
      | JSON.Array items =>
          r <- loadEntries items (voxels w1) ;;
          Some (fst r, with_voxels w1 (snd r) (history w1))
      | _ => Some (Caught, w1)   (* [data.forEach] is not a function *)
      end
  end.

End VoxelWorld.

(** ** The interaction state machine *)

Inductive InteractionState :=
| IDLE | DRAW_WAIT | BLOCK_PLACED | UNDO_WAIT | UNDO_COMPLETE | ROTATING | ZOOMING.

Definition InteractionState_eq_dec (a b : InteractionState) : {a = b} + {a <> b}.
Proof. decide equality. Defined.

Definition InteractionState_eqb (a b : InteractionState) : bool :=
  if InteractionState_eq_dec a b then true else false.

(** The module-level variables of [script.js] that the frame handler
    reads and writes, with the two objects it drives. *)
Module App.

Record t := mk {
  world : VoxelWorld.t;
  gestureRecognizer : GestureRecognizer.t;
  lastGesture : Gesture;
  isPreviewMode : bool;
  lastPoint : option (R * R);
  lastClosedTime : Z;
  pinchStartTime : Z;
  undoStartTime : Z;
  interactionState : InteractionState;
  blockPlacedThisPinch : bool
}.

(** The values the variables are declared with. *)
Definition init (personalizedPinch : option R) : t :=
  mk VoxelWorld.constructor (GestureRecognizer.constructor personalizedPinch)
     NONE false None 0 0 0 IDLE false.

Definition with_world (s : t) (w : VoxelWorld.t) : t :=
  mk w (gestureRecognizer s) (lastGesture s) (isPreviewMode s) (lastPoint s)
     (lastClosedTime s) (pinchStartTime s) (undoStartTime s)
     (interactionState s) (blockPlacedThisPinch s).

Definition with_recognizer (s : t) (r : GestureRecognizer.t) : t :=
  mk (world s) r (lastGesture s) (isPreviewMode s) (lastPoint s)
     (lastClosedTime s) (pinchStartTime s) (undoStartTime s)
     (interactionState s) (blockPlacedThisPinch s).

Definition with_state (s : t) (st : InteractionState) : t :=
  mk (world s) (gestureRecognizer s) (lastGesture s) (isPreviewMode s)
     (lastPoint s) (lastClosedTime s) (pinchStartTime s) (undoStartTime s)
     st (blockPlacedThisPinch s).

Definition with_lastPoint (s : t) (p : option (R * R)) : t :=
  mk (world s) (gestureRecognizer s) (lastGesture s) (isPreviewMode s) p
     (lastClosedTime s) (pinchStartTime s) (undoStartTime s)
     (interactionState s) (blockPlacedThisPinch s).

Definition with_lastClosedTime (s : t) (now : Z) : t :=
  mk (world s) (gestureRecognizer s) (lastGesture s) (isPreviewMode s)
     (lastPoint s) now (pinchStartTime s) (undoStartTime s)
     (interactionState s) (blockPlacedThisPinch s).

Definition with_pinchStartTime (s : t) (now : Z) : t :=
  mk (world s) (gestureRecognizer s) (lastGesture s) (isPreviewMode s)
     (lastPoint s) (lastClosedTime s) now (undoStartTime s)
     (interactionState s) (blockPlacedThisPinch s).

Definition with_undoStartTime (s : t) (now : Z) : t :=
  mk (world s) (gestureRecognizer s) (lastGesture s) (isPreviewMode s)
     (lastPoint s) (lastClosedTime s) (pinchStartTime s) now
     (interactionState s) (blockPlacedThisPinch s).

Definition with_blockPlaced (s : t) (b : bool) : t :=
  mk (world s) (gestureRecognizer s) (lastGesture s) (isPreviewMode s)
     (lastPoint s) (lastClosedTime s) (pinchStartTime s) (undoStartTime s)
     (interactionState s) b.

Definition with_lastGesture (s : t) (g : Gesture) : t :=
  mk (world s) (gestureRecognizer s) g (isPreviewMode s)
     (lastPoint s) (lastClosedTime s) (pinchStartTime s) (undoStartTime s)
     (interactionState s) (blockPlacedThisPinch s).

(** Part 3 of [handleInteraction], the transitions.  [None] is the
    early [return] of the debounce. *)
Definition transition (gesture : Gesture) (ndcX ndcY : R) (now : Z) (s : t) : option t :=
  match gesture with
  | CLOSED =>
      let s1 :=
        if negb (InteractionState_eqb (interactionState s) ROTATING)
        then with_lastPoint (with_state s ROTATING) (Some (ndcX, ndcY))
        else s in
      Some (with_world s1 (VoxelWorld.hide_cursor (world s1)))
  | PINCH =>
      let debounced :=
        if InteractionState_eqb (interactionState s) ROTATING
           || InteractionState_eqb (interactionState s) ZOOMING
        then if (now - lastClosedTime s <? 300)%Z then None
             else Some (with_state s IDLE)
        else Some s in
      match debounced with
      | None => None
      | Some s1 =>
          if negb (InteractionState_eqb (interactionState s1) DRAW_WAIT)
             && negb (InteractionState_eqb (interactionState s1) BLOCK_PLACED)
          then Some (with_blockPlaced
                       (with_pinchStartTime (with_state s1 DRAW_WAIT) now) false)
          else Some s1
      end
  | VICTORY =>
      if negb (InteractionState_eqb (interactionState s) UNDO_WAIT)
         && negb (InteractionState_eqb (interactionState s) UNDO_COMPLETE)
      then Some (with_undoStartTime (with_state s UNDO_WAIT) now)
      else Some s
  | _ => Some (with_blockPlaced (with_state s IDLE) false)
  end.

(** Part 4 of [handleInteraction], the action of the current state. *)
Definition stateAction (ndcX ndcY : R) (now : Z) (s : t) : t :=
  match interactionState s with
  | ROTATING =>
      let s1 :=
        match lastPoint s with
        | Some (lx, ly) =>
            let deltaX := ndcX - lx in
            let deltaY := ndcY - ly in
            let sensitivity := 35 / 10 in
            let rot := VoxelWorld.scene_rotation (world s) in
            let rot1 := Vec3.mk (Vec3.x rot) (Vec3.y rot + deltaX * sensitivity)
                                (Vec3.z rot) in
            let rot2 := Vec3.mk (Vec3.x rot1 + deltaY * sensitivity) (Vec3.y rot1)
                                (Vec3.z rot1) in
            with_world s (VoxelWorld.with_rotation (world s) rot2)
        | None => s
        end in
      with_lastClosedTime s1 now
  | DRAW_WAIT =>
      let elapsed := (now - pinchStartTime s)%Z in
      let BUILD_DELAY := 2000%Z in
      if (BUILD_DELAY <? elapsed)%Z && negb (blockPlacedThisPinch s) then
        let (placed, w) := VoxelWorld.createVoxelAtCursor (world s) in
        if placed
        then with_state (with_blockPlaced (with_world s w) true) BLOCK_PLACED
        else with_world s w
      else s
  | UNDO_WAIT =>
      let elapsed := (now - undoStartTime s)%Z in
      let UNDO_DELAY := 2000%Z in
      if (UNDO_DELAY <? elapsed)%Z
      then with_state (with_world s (VoxelWorld.undo (world s))) UNDO_COMPLETE
      else s
  | BLOCK_PLACED | UNDO_COMPLETE | IDLE | ZOOMING => s
  end.

(** Part 1 of [handleInteraction]: the point that drives the cursor,
    the smoothed pinch centre when a hand state is passed, else the
    index fingertip, else the middle of the view. *)
Definition pointer (handState : option GestureRecognizer.HandAnalysis)
    (landmarks : option Hand) : option (R * R) :=
  match handState, landmarks with
  | Some h, _ =>
      Some (Vec3.x (GestureRecognizer.pinchCenter h),
            Vec3.y (GestureRecognizer.pinchCenter h))
  | None, Some l => p <- at_index l 8 ;; Some (Vec3.x p, Vec3.y p)
  | None, None => Some (5 / 10, 5 / 10)
  end.

Definition ndcXOf (point : R * R) : R := (1 - fst point) * 2 - 1.
Definition ndcYOf (point : R * R) : R := 1 - snd point * 2.

(** [handleInteraction(gesture, handState, landmarks)] at time [now]
    ([Date.now()]), with what the ray cast of this frame finds. *)
Definition handleInteraction (gesture : Gesture)
    (handState : option GestureRecognizer.HandAnalysis)
    (landmarks : option Hand) (now : Z) (ray : RayResult) (s : t) : option t :=
  point <- pointer handState landmarks ;;
  let ndcX := ndcXOf point in
  let ndcY := ndcYOf point in
  let s0 := with_world s (snd (VoxelWorld.updateCursorFromHand ray (world s))) in
  match gesture with
  | ZOOM_IN =>
      let cz := VoxelWorld.camera_position_z (world s0) in
      Some (with_state
              (with_world s0 (VoxelWorld.with_camera_z (world s0) (Rmax 2 (cz - 2 / 10))))
              ZOOMING)
  | ZOOM_OUT =>
      let cz := VoxelWorld.camera_position_z (world s0) in
      Some (with_state
              (with_world s0 (VoxelWorld.with_camera_z (world s0) (Rmin 20 (cz + 2 / 10))))
              ZOOMING)
  | _ =>
      match transition gesture ndcX ndcY now s0 with
      | None => Some s0
      | Some s1 =>
          let s2 := stateAction ndcX ndcY now s1 in
          Some (with_lastGesture (with_lastPoint s2 (Some (ndcX, ndcY))) gesture)
      end
  end.

(** One pass of [loop] when the detector returned [landmarks] (at
    least one hand): recognise, then handle unless in preview mode. *)
Definition frame (landmarks : list Hand) (now : Z) (ray : RayResult) (s : t) : option t :=
  match landmarks with
  | [] => Some s
  | hand0 :: _ =>
      u <- GestureRecognizer.update (gestureRecognizer s) (Some landmarks) ;;
      let s1 := with_recognizer s (snd u) in
      if isPreviewMode s1 then Some s1
      else handleInteraction (GestureRecognizer.r_gesture (fst u))
                             (GestureRecognizer.r_hand (fst u))
                             (Some hand0) now ray s1
  end.

End App.

(** ** [exportToJSON], up to the call of [JSON.stringify]

    The array [data] the method builds, one object per voxel in map
    order.  The text [JSON.stringify] makes of it is not modelled. *)

Definition exportEntry (mesh : Mesh.t) : JSON.value :=
  JSON.Object
    [(JSON.units_of "x", JSON.Number (Vec3.x (Mesh.position mesh)));
     (JSON.units_of "y", JSON.Number (Vec3.y (Mesh.position mesh)));
     (JSON.units_of "z", JSON.Number (Vec3.z (Mesh.position mesh)));
     (JSON.units_of "color", JSON.Number (IZR (Mesh.color mesh)))].

Definition exportData (w : VoxelWorld.t) : list JSON.value :=
  map (fun entry => exportEntry (snd entry)) (VoxelWorld.voxels w).

(** ** class GestureTrainer ([gesture-trainer.js])

    The training pass behind the personalised pinch threshold.  The
    modal and progress bar, the [alert] and the writes to
    [localStorage] are not modelled; the timer that [collectSample]
    sets is the separate step [autoAdvance]. *)

Module GestureTrainer.

(** One collected sample: the landmarks (their deep copy through JSON
    holds the same numbers) and [Date.now()]. *)
Record Sample := mkSample { landmarks : Hand; timestamp : Z }.

(** The [type] fields of [this.gestures], in order. *)
Definition gestures : list string :=
  ["OPEN_PALM"%string; "CLOSED"%string; "PINCH"%string; "PEACE"%string].

Definition samplesPerGesture : nat := 10.

(** A JavaScript object with string keys. *)
Fixpoint obj_get {V} (o : list (string * V)) (k : string) : option V :=
  match o with
  | [] => None
  | (k', v) :: rest => if String.eqb k' k then Some v else obj_get rest k
  end.

Fixpoint obj_set {V} (o : list (string * V)) (k : string) (v : V) : list (string * V) :=
  match o with
  | [] => [(k, v)]
  | (k', v') :: rest =>
      if String.eqb k' k then (k', v) :: rest else (k', v') :: obj_set rest k v
  end.

(** The fields of the instance; [thresholds] is
    [trainingData.thresholds], absent until computed or loaded. *)
Record t := mk {
  currentGestureIndex : nat;
  samples : list Sample;
  isTraining : bool;
  trainingData : list (string * list Sample);
  thresholds : option (list (string * R))
}.

(** [constructor()], with what [loadTrainingData] read from storage. *)
Definition constructor (storedData : list (string * list Sample))
    (storedThresholds : option (list (string * R))) : t :=
  mk 0 [] false storedData storedThresholds.

(** [updateTrainingUI()] writes to the page only, but reads
    [gestures[currentGestureIndex].emoji]: it throws past the last
    gesture. *)
Definition updateTrainingUI (tr : t) : option unit :=
  _ <- at_index gestures (currentGestureIndex tr) ;; Some tt.

(** [startTraining()] *)
Definition startTraining (tr : t) : option t :=
  let tr' := mk 0 [] true (trainingData tr) (thresholds tr) in
  _ <- updateTrainingUI tr' ;; Some tr'.

(** [hideTrainingModal()] *)
Definition hideTrainingModal (tr : t) : t :=
  mk (currentGestureIndex tr) (samples tr) false (trainingData tr) (thresholds tr).

(** [collectSample(landmarks)] at time [now]; the boolean tells whether
    the advance timer was set. *)
Definition collectSample (hand : Hand) (now : Z) (tr : t) : option (t * bool) :=
  if negb (isTraining tr) then Some (tr, false)
  else if (length (samples tr) <? samplesPerGesture)%nat then
    let tr' := mk (currentGestureIndex tr) (samples tr ++ [mkSample hand now])
                  true (trainingData tr) (thresholds tr) in
    _ <- updateTrainingUI tr' ;;
    Some (tr', (length (samples tr') =? samplesPerGesture)%nat)
  else Some (tr, false).

(** [nextGesture()] *)
Definition nextGesture (tr : t) : option t :=
  type <- at_index gestures (currentGestureIndex tr) ;;
  let tr' := mk (S (currentGestureIndex tr)) [] (isTraining tr)
                (obj_set (trainingData tr) type (samples tr)) (thresholds tr) in
  if (currentGestureIndex tr' <? length gestures)%nat
  then _ <- updateTrainingUI tr' ;; Some tr'
  else Some tr'.

(** The callback of the timer set by [collectSample]. *)
Definition autoAdvance (tr : t) : option t :=
  if (currentGestureIndex tr <? length gestures - 1)%nat then nextGesture tr
  else Some tr.

(** The thumb-to-index distance of a sample, as [calculateThresholds]
    computes it. *)
Definition pinchDistance (sample : Sample) : option R :=
  thumbTip <- at_index (landmarks sample) 4 ;;
  indexTip <- at_index (landmarks sample) 8 ;;
  Some (sqrt ((Vec3.x thumbTip - Vec3.x indexTip) ^ 2
              + (Vec3.y thumbTip - Vec3.y indexTip) ^ 2
              + (Vec3.z thumbTip - Vec3.z indexTip) ^ 2)).

(** [pinchDistances]: the [forEach] stops at the first sample it cannot
    read. *)
Fixpoint pinchDistances (data : list Sample) : option (list R) :=
  match data with
  | [] => Some []
  | sample :: rest =>
      d <- pinchDistance sample ;;
      ds <- pinchDistances rest ;;
      Some (d :: ds)
  end.

(** [Math.max(...pinchDistances)] on a list that is not empty. *)
Definition maxOf (d : R) (ds : list R) : R := fold_left Rmax ds d.

(** [calculateThresholds()]; the average it also computes is not used. *)
Definition calculateThresholds (tr : t) : option t :=
  match obj_get (trainingData tr) "PINCH" with
  | Some (sample :: rest) =>
      d <- pinchDistance sample ;;
      ds <- pinchDistances rest ;;
      let maxPinchDist := maxOf d ds in
      let th := match thresholds tr with Some o => o | None => [] end in
      Some (mk (currentGestureIndex tr) (samples tr) (isTraining tr)
               (trainingData tr)
               (Some (obj_set th "pinch" (maxPinchDist * (12 / 10)))))
  | _ => Some tr
  end.

(** [getPersonalizedThreshold(type)]: a stored zero counts as absent. *)
Definition getPersonalizedThreshold (tr : t) (type : string) : option R :=
  match thresholds tr with
  | Some o =>
      match obj_get o type with
      | Some v => if Req_dec_T v 0 then None else Some v
      | None => None
      end
  | None => None
  end.

(** [finishTraining()] *)
Definition finishTraining (tr : t) : option t :=
  type <- at_index gestures (currentGestureIndex tr) ;;
  let tr1 := mk (currentGestureIndex tr) (samples tr) (isTraining tr)
                (obj_set (trainingData tr) type (samples tr)) (thresholds tr) in
  tr2 <- calculateThresholds tr1 ;;
  Some (hideTrainingModal tr2).

End GestureTrainer.

(** [new GestureRecognizer(gestureTrainer)] *)
Definition recognizerOf (trainer : GestureTrainer.t) : GestureRecognizer.t :=
  GestureRecognizer.constructor
    (GestureTrainer.getPersonalizedThreshold trainer "pinch").

(** * Vocabulary of the properties

    Sample worlds, hands and snapshots, and the notions the statements
    below are written with. *)

(** A world holding one voxel at the ground cell (1/2, 1/2, 1/2). *)
Definition oneVoxelWorld : VoxelWorld.t :=
  VoxelWorld.mk
    [((/ 2, / 2, / 2), Mesh.mk (Vec3.mk (/ 2) (/ 2) (/ 2)) VoxelWorld.cyan)]
    [Action.mk ADD (/ 2, / 2, / 2) (Vec3.mk (/ 2) (/ 2) (/ 2)) VoxelWorld.cyan]
    (Vec3.mk (/ 2) (/ 2) (/ 2)) true true 8 (Vec3.mk 0 0 0).

(** A fresh world whose cursor rests, visible, on the ground cell
    (1/2, 1/2, 1/2). *)
Definition cursorOnGround : VoxelWorld.t :=
  VoxelWorld.with_cursor VoxelWorld.constructor (Vec3.mk (/ 2) (/ 2) (/ 2)) true.

(** The cell centre of a floor coordinate, [Math.floor(p) + 0.5]. *)
Definition cellCenter (p : R) : R := IZR (Zfloor p) + / 2.

(** The voxels of the column of (x, z), by the test of the code. *)
Definition inColumn (x z : R) (entry : Key * Mesh.t) : bool :=
  JS.lt (Rabs (Vec3.x (Mesh.position (snd entry)) - x)) (1 / 100)
  && JS.lt (Rabs (Vec3.z (Mesh.position (snd entry)) - z)) (1 / 100).

(** The heights of the voxels of that column, in map order. *)
Definition columnHeights (w : VoxelWorld.t) (x z : R) : list R :=
  map (fun entry => Vec3.y (Mesh.position (snd entry)))
      (filter (inColumn x z) (VoxelWorld.voxels w)).

(** The height C7 promises: ground level for an empty column, else one
    unit above the highest voxel of the column. *)
Definition stackedY (heights : list R) : R :=
  match heights with
  | [] => / 2
  | y :: ys => fold_left Rmax ys y + 1
  end.

(** A height of the floor grid: ground level plus whole units. *)
Definition onFloorGrid (y : R) : Prop := exists n : nat, y = / 2 + INR n.

(** A position the cursor can produce: whole coordinates (a voxel
    stacked on a face, after [Math.round]) or a height of the floor
    grid (a floor cell). *)
Definition aligned (p : Vec3.t) : Prop :=
  (exists i : Z, Vec3.x p = IZR i) \/ onFloorGrid (Vec3.y p).

(** A world built through the cursor: its voxels, the positions of its
    log and its cursor are aligned. *)
Definition gridWorld (w : VoxelWorld.t) : Prop :=
  Forall (fun entry => aligned (Mesh.position (snd entry))) (VoxelWorld.voxels w) /\
  Forall (fun action => aligned (Action.position action)) (VoxelWorld.history w) /\
  aligned (VoxelWorld.cursor_position w).

(** A double quote, for writing JSON text. *)
Definition dquote : string := String (ascii_of_nat 34) EmptyString.

(** A name between double quotes. *)
Definition quoted (name : string) : string := (dquote ++ name ++ dquote)%string.

(** A snapshot with one voxel of the half-integer grid, two cells below
    the ground cell: x = 0.5, y = -1.5, z = 0.5. *)
Definition sunkenText : string :=
  ("[{" ++ quoted "x" ++ ":0.5," ++ quoted "y" ++ ":-1.5," ++ quoted "z" ++ ":0.5}]")%string.

(** The fresh world with that one voxel. *)
Definition sunkenWorld : VoxelWorld.t :=
  VoxelWorld.with_voxels VoxelWorld.constructor
    [((/ 2, - (3 / 2), / 2), Mesh.mk (Vec3.mk (/ 2) (- (3 / 2)) (/ 2)) VoxelWorld.cyan)]
    [].

(** A state in the middle of a rotation whose last rotation frame was at
    time 1000. *)
Definition rotatingAt1000 : App.t :=
  App.mk VoxelWorld.constructor (GestureRecognizer.constructor None)
         CLOSED false (Some (0, 0)) 1000 0 0 ROTATING false.

(** Landmark [i] of a hand, for stating properties of 21-landmark
    hands. *)
Definition lm (h : Hand) (i : nat) : Landmark := nth i h (Vec3.mk 0 0 0).

(** The label [analyzeHand] gives a hand, if it returns. *)
Definition gestureOf (r : GestureRecognizer.t) (h : Hand) : option Gesture :=
  option_map (fun a => GestureRecognizer.gesture (fst a))
             (GestureRecognizer.analyzeHand r h).

(** All landmark coordinates multiplied by [k]. *)
Definition scaleHand (k : R) (h : Hand) : Hand :=
  map (fun p => Vec3.multiplyScalar p k) h.

(** A hand with all its landmarks on the x axis: the wrist at 0, the
    thumb base joint, the thumb tip, the four knuckles at one abscissa,
    then the tips of index, middle, ring and pinky.  The joints the
    classifier does not read sit on the knuckle line. *)
Definition axisHand (thumbBase thumbTip knuckle indexTip middleTip ringTip pinkyTip : R)
    : Hand :=
  let P := fun a => Vec3.mk a 0 0 in
  [P 0; P knuckle; P thumbBase; P knuckle; P thumbTip;
   P knuckle; P knuckle; P knuckle; P indexTip;
   P knuckle; P knuckle; P knuckle; P middleTip;
   P knuckle; P knuckle; P knuckle; P ringTip;
   P knuckle; P knuckle; P knuckle; P pinkyTip].

(** A loosely closed hand whose thumb tip touches the index tip: every
    tip at 0.6 from the wrist, every knuckle and the thumb base at 0.5. *)
Definition looseFist : Hand :=
  axisHand (5 / 10) (6 / 10) (5 / 10) (6 / 10) (6 / 10) (6 / 10) (6 / 10).

(** A fist: every tip and every knuckle at 0.5 from the wrist. *)
Definition fistHand : Hand :=
  axisHand (5 / 10) (5 / 10) (5 / 10) (5 / 10) (5 / 10) (5 / 10) (5 / 10).

(** A pinch: thumb tip at 0.30 and index tip at 0.34 from the wrist, the
    other tips at 0.30, the knuckles at 0.25. *)
Definition pinchSample : Hand :=
  axisHand (25 / 100) (30 / 100) (25 / 100) (34 / 100) (30 / 100) (30 / 100) (30 / 100).

(** An open palm: finger tips at 1.0, thumb tip at 0.8, knuckles at
    0.5. *)
Definition palmHand : Hand :=
  axisHand (5 / 10) (8 / 10) (5 / 10) 1 1 1 1.

(** Feeding the stabiliser a sequence of raw labels, one per frame. *)
Fixpoint feed (r : GestureRecognizer.t) (gs : list Gesture) : option GestureRecognizer.t :=
  match gs with
  | [] => Some r
  | g :: rest => s <- GestureRecognizer.stabilize r g ;; feed (snd s) rest
  end.

(** The label emitted at the last frame of the sequence. *)
Definition stableAfter (r : GestureRecognizer.t) (gs : list Gesture) : option Gesture :=
  option_map GestureRecognizer.lastStableGesture (feed r gs).

(** The number of [g] in a buffer. *)
Definition occurrences (g : Gesture) (buf : list Gesture) : nat :=
  count_occ Gesture_eq_dec buf g.

(** [g] holds at least 60% of the buffer. *)
Definition dominant (g : Gesture) (buf : list Gesture) : Prop :=
  (6 * length buf <= 10 * occurrences g buf)%nat.

(** The gesture buffer after pushing the labels [gs], one per frame. *)
Definition pushAll (buf : list Gesture) (gs : list Gesture) : list Gesture :=
  fold_left (JS.push_bounded GestureRecognizer.gestureHistorySize) gs buf.

(** After a frame, a dominant label is the stable label. *)
Definition settled (r : GestureRecognizer.t) : Prop :=
  forall X, dominant X (GestureRecognizer.gestureHistory r) ->
            GestureRecognizer.lastStableGesture r = X.

(** Two parsers agree on the texts shorter than [M], and leave no more
    than they were given. *)
Definition agree (M : nat) (pv1 pv2 : JSON.parser) : Prop :=
  forall s, (length s < M)%nat ->
    pv1 s = pv2 s /\
    forall v rest, pv1 s = Some (v, rest) -> (length rest <= length s)%nat.

(** ** The world as a data structure *)

(** The voxel map is a sound [Map]: no key twice, every mesh under the
    key of its own position; and every entry of the log carries the key
    of its position. *)
Definition wellKeyed (w : VoxelWorld.t) : Prop :=
  NoDup (map fst (VoxelWorld.voxels w)) /\
  Forall (fun entry => fst entry = key_of (Mesh.position (snd entry)))
         (VoxelWorld.voxels w) /\
  Forall (fun action => Action.key action = key_of (Action.position action))
         (VoxelWorld.history w).

(** Every voxel height is below 2^53 in magnitude, the range in which
    one unit more is a different binary64 number: there the strict
    [y < y + 1] of the model's exact reals is also true of the code. *)
Definition heightsInRange (w : VoxelWorld.t) : Prop :=
  Forall (fun entry => Rabs (Vec3.y (Mesh.position (snd entry))) < 9007199254740992)
         (VoxelWorld.voxels w).

(** Two worlds hold the same voxel in every cell, and the same log. *)
Definition sameContent (w w' : VoxelWorld.t) : Prop :=
  (forall k, JSMap.get (VoxelWorld.voxels w) k = JSMap.get (VoxelWorld.voxels w') k) /\
  VoxelWorld.history w = VoxelWorld.history w'.

(** A call of one of the cursor and editing methods of the world. *)
Inductive Call :=
| Aim (ray : RayResult)   (* updateCursorFromHand *)
| Create                  (* createVoxelAtCursor *)
| Remove.                 (* removeVoxelAtCursor *)

Definition call (c : Call) (w : VoxelWorld.t) : VoxelWorld.t :=
  match c with
  | Aim ray => snd (VoxelWorld.updateCursorFromHand ray w)
  | Create => snd (VoxelWorld.createVoxelAtCursor w)
  | Remove => VoxelWorld.removeVoxelAtCursor w
  end.

(** A sequence of calls, first to last. *)
Definition calls (cs : list Call) (w : VoxelWorld.t) : VoxelWorld.t :=
  fold_left (fun w c => call c w) cs w.

(** [undo()] called [n] times. *)
Fixpoint undoTimes (n : nat) (w : VoxelWorld.t) : VoxelWorld.t :=
  match n with
  | O => w
  | S n' => undoTimes n' (VoxelWorld.undo w)
  end.










(** The colour a voxel has after its snapshot entry is loaded again:
    black is read as absent and becomes the default. *)
Definition reloadedColor (c : Z) : Z := if (c =? 0)%Z then VoxelWorld.cyan else c.

Definition reloaded (entry : Key * Mesh.t) : Key * Mesh.t :=
  (fst entry, Mesh.mk (Mesh.position (snd entry)) (reloadedColor (Mesh.color (snd entry)))).

(** A world with one voxel above the ground cell, coloured 0xff0000. *)
Definition redVoxelWorld : VoxelWorld.t :=
  VoxelWorld.with_voxels VoxelWorld.constructor
    [((/ 2, 3 / 2, / 2), Mesh.mk (Vec3.mk (/ 2) (3 / 2) (/ 2)) 16711680)] [].

(** ** Runs of the frame handler *)

(** What one call of [handleInteraction] is given besides the gesture:
    the hand state, the landmarks, the time and what the ray finds. *)
Record Tick := mkTick {
  tk_hand : option GestureRecognizer.HandAnalysis;
  tk_landmarks : option Hand;
  tk_now : Z;
  tk_ray : RayResult
}.

Definition tick (gesture : Gesture) (k : Tick) (s : App.t) : option App.t :=
  App.handleInteraction gesture (tk_hand k) (tk_landmarks k) (tk_now k) (tk_ray k) s.

(** Successive calls of [handleInteraction], one per frame. *)
Fixpoint run (frames : list (Gesture * Tick)) (s : App.t) : option App.t :=
  match frames with
  | [] => Some s
  | (gesture, k) :: rest => s1 <- tick gesture k s ;; run rest s1
  end.

(** The same gesture held over several frames. *)
Definition hold (gesture : Gesture) (ticks : list Tick) (s : App.t) : option App.t :=
  run (map (pair gesture) ticks) s.

(** The frame has a point to drive the cursor with. *)
Definition hasPointer (k : Tick) : Prop :=
  App.pointer (tk_hand k) (tk_landmarks k) <> None.

(** That point in normalised device coordinates. *)
Definition ndcOf (k : Tick) : R * R :=
  match App.pointer (tk_hand k) (tk_landmarks k) with
  | Some point => (App.ndcXOf point, App.ndcYOf point)
  | None => (0, 0)
  end.

(** The voxels and the log of the world of a state. *)
Definition sameVoxels (s s' : App.t) : Prop :=
  VoxelWorld.voxels (App.world s') = VoxelWorld.voxels (App.world s) /\
  VoxelWorld.history (App.world s') = VoxelWorld.history (App.world s).

(** A frame with only a time and a ray, pointing at the middle of the
    view. *)
Definition plainTick (now : Z) (ray : RayResult) : Tick := mkTick None None now ray.

(** A frame whose hand state points at (x, y) of the camera image. *)
Definition pointTick (x y : R) (now : Z) : Tick :=
  mkTick (Some (GestureRecognizer.mkHandAnalysis CLOSED false true
                  (Vec3.mk x y 0) (Vec3.mk x y 0)))
         None now NoHit.

(** ** The recogniser over several frames *)

(** The labels [analyzeHand] can give a hand. *)
Definition rawLabel (g : Gesture) : Prop :=
  g = PINCH \/ g = THUMBS_UP \/ g = VICTORY \/ g = CLOSED \/ g = OPEN_PALM.

(** The gesture buffer holds labels of hands only, and once it holds
    one the stable label is a label of a hand too: true of a new
    recogniser, kept by every frame. *)
Definition seeded (r : GestureRecognizer.t) : Prop :=
  Forall rawLabel (GestureRecognizer.gestureHistory r) /\
  (GestureRecognizer.gestureHistory r = [] \/
   rawLabel (GestureRecognizer.lastStableGesture r)).

(** The three buffers are within their sizes. *)
Definition withinCapacity (r : GestureRecognizer.t) : Prop :=
  (length (GestureRecognizer.history r) <= GestureRecognizer.historySize)%nat /\
  (length (GestureRecognizer.gestureHistory r) <= GestureRecognizer.gestureHistorySize)%nat /\
  (length (GestureRecognizer.positionBuffer r) <= GestureRecognizer.positionBufferSize)%nat.

(** A point inside the camera image, in the detector's coordinates. *)
Definition inView (p : Vec3.t) : Prop :=
  0 <= Vec3.x p <= 1 /\ 0 <= Vec3.y p <= 1.

(** The hand moved as a whole by [v]. *)
Definition translateHand (v : Vec3.t) (h : Hand) : Hand :=
  map (fun p => Vec3.add p v) h.

(** The same hand analysed on [n] more frames after a first one; the
    analysis of the last frame. *)
Fixpoint analyzeTimes (n : nat) (r : GestureRecognizer.t) (h : Hand)
    : option (GestureRecognizer.HandAnalysis * GestureRecognizer.t) :=
  match n with
  | O => GestureRecognizer.analyzeHand r h
  | S n' => a <- GestureRecognizer.analyzeHand r h ;; analyzeTimes n' (snd a) h
  end.

(** A recogniser that has seen a palm resting at x = 0 for fourteen
    frames. *)
Definition swipeReady : GestureRecognizer.t :=
  GestureRecognizer.mk (repeat (Vec3.mk 0 0 0) 14) (5 / 100) [] NONE [].

(** ** Training *)

(** The frames of a training pass: the landmarks of the first hand and
    the time of the frame. *)
Definition TrainingFrame := (Hand * Z)%type.

Definition sampleOf (f : TrainingFrame) : GestureTrainer.Sample :=
  GestureTrainer.mkSample (fst f) (snd f).

(** [collectSample] called on each frame in turn. *)
Fixpoint collectAll (frames : list TrainingFrame) (tr : GestureTrainer.t)
    : option GestureTrainer.t :=
  match frames with
  | [] => Some tr
  | f :: rest =>
      c <- GestureTrainer.collectSample (fst f) (snd f) tr ;;
      collectAll rest (fst c)
  end.

(** The trainer is in step: no more samples than asked for, and a
    current gesture that exists. *)
Definition inStep (tr : GestureTrainer.t) : Prop :=
  (length (GestureTrainer.samples tr) <= GestureTrainer.samplesPerGesture)%nat /\
  (GestureTrainer.currentGestureIndex tr < length GestureTrainer.gestures)%nat.

(** A trainer whose stored PINCH samples are [pinchSample] and the
    same hand scaled by 2. *)
Definition pinchTrained : GestureTrainer.t :=
  GestureTrainer.constructor
    [("PINCH"%string,
      [GestureTrainer.mkSample pinchSample 0;
       GestureTrainer.mkSample (scaleHand 2 pinchSample) 40])]
    None.

(** A trainer that has just been started. *)
Definition trainingStarted : GestureTrainer.t :=
  GestureTrainer.mk 0 [] true [] None.

(** Twelve frames of the same open palm, 40 ms apart. *)
Definition palmFrames : list TrainingFrame :=
  map (fun i => (palmHand, (40 * Z.of_nat i)%Z)) (seq 0 12).

(** A whole training pass: start, the frames seen while each of the
    four gestures is current, the timer's callback after each of the
    first three, and the finish button. *)
Definition trainingPass (f0 f1 f2 f3 : list TrainingFrame) (tr : GestureTrainer.t)
    : option GestureTrainer.t :=
  t0 <- GestureTrainer.startTraining tr ;;
  a0 <- collectAll f0 t0 ;;
  b0 <- GestureTrainer.autoAdvance a0 ;;
  a1 <- collectAll f1 b0 ;;
  b1 <- GestureTrainer.autoAdvance a1 ;;
  a2 <- collectAll f2 b1 ;;
  b2 <- GestureTrainer.autoAdvance a2 ;;
  a3 <- collectAll f3 b2 ;;
  GestureTrainer.finishTraining a3.

(** The ten samples a gesture is trained on. *)
Definition firstTen (frames : list TrainingFrame) : list GestureTrainer.Sample :=
  map sampleOf (firstn 10 frames).

(** ** The main loop *)

(** What one pass of [loop] gets: the landmarks of the detected hands,
    the time and what the ray finds. *)
Record Shot := mkShot {
  sh_landmarks : list Hand;
  sh_now : Z;
  sh_ray : RayResult
}.

(** Successive passes of [loop]. *)
Fixpoint play (shots : list Shot) (s : App.t) : option App.t :=
  match shots with
  | [] => Some s
  | sh :: rest =>
      s1 <- App.frame (sh_landmarks sh) (sh_now sh) (sh_ray sh) s ;; play rest s1
  end.

(** Every detected hand comes with its 21 landmarks. *)
Definition complete (sh : Shot) : Prop :=
  Forall (fun h => (21 <= length h)%nat) (sh_landmarks sh).

(** The state of the application is sound: the world is well keyed,
    the recogniser is seeded and within its buffer sizes, the camera is
    in range. *)
Definition sound (s : App.t) : Prop :=
  wellKeyed (App.world s) /\
  seeded (App.gestureRecognizer s) /\
  withinCapacity (App.gestureRecognizer s) /\
  2 <= VoxelWorld.camera_position_z (App.world s) <= 20.

(** * Properties *)

(** ** Deciding the comparisons *)

Lemma lt_true a b : a < b -> JS.lt a b = true.
Proof. intros H. unfold JS.lt. destruct (Rlt_dec a b); [reflexivity | contradiction]. Qed.

Lemma lt_false a b : b <= a -> JS.lt a b = false.
Proof. intros H. unfold JS.lt. destruct (Rlt_dec a b); [lra | reflexivity]. Qed.

Lemma lt_spec a b : JS.lt a b = true <-> a < b.
Proof. unfold JS.lt. destruct (Rlt_dec a b); split; intros; try easy. Qed.

Lemma gt_spec a b : JS.gt a b = true <-> b < a.
Proof. apply lt_spec. Qed.

Lemma gt_true a b : b < a -> JS.gt a b = true.
Proof. apply lt_true. Qed.

Lemma gt_false a b : a <= b -> JS.gt a b = false.
Proof. apply lt_false. Qed.

Lemma ge_true a b : b <= a -> JS.ge a b = true.
Proof. intros H. unfold JS.ge. destruct (Rle_dec b a); [reflexivity | contradiction]. Qed.

Lemma ge_false a b : a < b -> JS.ge a b = false.
Proof. intros H. unfold JS.ge. destruct (Rle_dec b a); [lra | reflexivity]. Qed.

Lemma Key_eqb_refl k : Key_eqb k k = true.
Proof. unfold Key_eqb. destruct (Key_eq_dec k k); congruence. Qed.

Lemma Key_eqb_neq a b : a <> b -> Key_eqb a b = false.
Proof. intros H. unfold Key_eqb. destruct (Key_eq_dec a b); congruence. Qed.

Lemma Key_eqb_true a b : Key_eqb a b = true -> a = b.
Proof. unfold Key_eqb. destruct (Key_eq_dec a b); congruence. Qed.

(** ** The map *)

Section MapFacts.
Variable V : Type.
Implicit Types (m : JSMap.t V) (k : Key) (v : V).

Lemma get_set_same m k v : JSMap.get (JSMap.set m k v) k = Some v.
Proof.
  induction m as [|[k' v'] m IH]; simpl.
  - now rewrite Key_eqb_refl.
  - destruct (Key_eqb k' k) eqn:E; simpl; rewrite E; auto.
Qed.

Lemma get_set_other m k v k' :
  k' <> k -> JSMap.get (JSMap.set m k v) k' = JSMap.get m k'.
Proof.
  intros Hne. induction m as [|[k0 v0] m IH]; simpl.
  - rewrite Key_eqb_neq; auto.
  - destruct (Key_eqb k0 k) eqn:E; simpl.
    + apply Key_eqb_true in E. subst k0.
      rewrite Key_eqb_neq; auto.
    + destruct (Key_eqb k0 k'); auto.
Qed.

Lemma get_delete_other m k k' :
  k' <> k -> JSMap.get (JSMap.delete m k) k' = JSMap.get m k'.
Proof.
  intros Hne. induction m as [|[k0 v0] m IH]; simpl; auto.
  destruct (Key_eqb k0 k) eqn:E; simpl.
  - apply Key_eqb_true in E. subst k0. rewrite Key_eqb_neq; auto.
  - destruct (Key_eqb k0 k'); auto.
Qed.

(** Setting an absent key appends the entry. *)
Lemma set_absent m k v : JSMap.get m k = None -> JSMap.set m k v = m ++ [(k, v)].
Proof.
  induction m as [|[k0 v0] m IH]; simpl; auto.
  destruct (Key_eqb k0 k); [discriminate |].
  intros H. now rewrite IH.
Qed.

(** Deleting the key just appended gives the map back. *)
Lemma delete_appended m k v :
  JSMap.get m k = None -> JSMap.delete (m ++ [(k, v)]) k = m.
Proof.
  induction m as [|[k0 v0] m IH]; simpl.
  - now rewrite Key_eqb_refl.
  - destruct (Key_eqb k0 k); [discriminate |].
    intros H. now rewrite IH.
Qed.

Lemma has_get m k : JSMap.has m k = false <-> JSMap.get m k = None.
Proof. unfold JSMap.has. destruct (JSMap.get m k); split; congruence. Qed.

End MapFacts.

Lemma pop_snoc {A} (l : list A) (a : A) : VoxelWorld.pop (l ++ [a]) = Some (l, a).
Proof. unfold VoxelWorld.pop. rewrite rev_unit, rev_involutive. reflexivity. Qed.

(** ** The fuel of [JSON.parse_value]

    Every nested value starts at least one character further in the
    text, so any fuel beyond the length of the text gives the same
    answer: a [None] of [JSON.parse] is a syntax error, never a lack of
    fuel. *)

Lemma skip_ws_le (s : list ascii) : (length (JSON.skip_ws s) <= length s)%nat.
Proof.
  induction s as [|c s IH]; simpl; [lia |].
  destruct (JSON.is_ws c); simpl; lia.
Qed.

Lemma skip_ws_cons (s : list ascii) (c : ascii) (rest : list ascii) :
  JSON.skip_ws s = c :: rest -> (length rest < length s)%nat.
Proof.
  intros H. pose proof (skip_ws_le s) as Hle. rewrite H in Hle. simpl in Hle. lia.
Qed.

Lemma strip_le (code : nat) (s : list ascii) :
  (length (snd (JSON.strip code s)) <= length s)%nat.
Proof.
  unfold JSON.strip. destruct s as [|c rest]; simpl; [lia |].
  destruct (nat_of_ascii c =? code)%nat; simpl; lia.
Qed.

Lemma digits_le (s : list ascii) :
  forall acc count, (length (snd (JSON.digits s acc count)) <= length s)%nat.
Proof.
  induction s as [|c s IH]; intros acc count; cbn [JSON.digits]; [simpl; lia |].
  destruct (JSON.digit_of c); cbn [snd length]; [| lia].
  apply Nat.le_trans with (length s); [apply IH | lia].
Qed.

Lemma literal_le (word : string) (s rest : list ascii) :
  JSON.literal word s = Some rest -> (length rest <= length s)%nat.
Proof.
  unfold JSON.literal. destruct (list_eq_dec _ _ _); [| discriminate].
  intros H. injection H as <-. rewrite length_skipn. lia.
Qed.

Ltac break_in H :=
  match type of H with
  | context [JSON.strip ?c ?s] =>
      pose proof (strip_le c s); destruct (JSON.strip c s) as [? ?] eqn:?
  | context [JSON.digits ?s ?a ?k] =>
      pose proof (digits_le s a k); destruct (JSON.digits s a k) as [[? ?] ?] eqn:?
  | context [match ?x with _ => _ end] => destruct x eqn:?
  end.

Lemma number_le (s rest : list ascii) (n : R) :
  JSON.number s = Some (n, rest) -> (length rest <= length s)%nat.
Proof.
  unfold JSON.number. intros H.
  repeat (break_in H; try discriminate H; cbn [fst snd length] in *);
    injection H as _ <-;
    repeat match goal with
      | E : (_, _) = (_, _) |- _ => injection E as ? ?; subst
      | E : context [if ?b then _ else _] |- _ => destruct b
      end;
    cbn [fst snd length] in *; lia.
Qed.

Lemma chars_le (n : nat) :
  forall s acc units rest,
    (length s <= n)%nat -> JSON.chars s acc = Some (units, rest) ->
    (length rest <= length s)%nat.
Proof.
  induction n as [|n IH]; intros s acc units rest Hlen H.
  - destruct s; [discriminate H | simpl in Hlen; lia].
  - destruct s as [|c s]; [discriminate H |].
    cbn [JSON.chars] in H. cbn [length] in *.
    repeat (match type of H with
            | JSON.chars _ _ = _ => fail 1
            | Some _ = _ => fail 1
            | _ => break_in H; try discriminate H; cbn [length] in *
            end);
      try (injection H as _ <-; lia);
      try (apply IH in H; [lia | cbn [length] in *; lia]).
Qed.

Lemma elements_agree (M : nat) (pv1 pv2 : JSON.parser) :
  agree M pv1 pv2 ->
  forall n1 n2 acc s,
    (length s <= M)%nat -> (length s < n1)%nat -> (length s < n2)%nat ->
    JSON.elements pv1 n1 acc s = JSON.elements pv2 n2 acc s /\
    forall v rest, JSON.elements pv1 n1 acc s = Some (v, rest) ->
                   (length rest <= length s)%nat.
Proof.
  intros Hagree. induction n1 as [|n1 IH]; intros n2 acc s HM H1 H2; [lia |].
  destruct n2 as [|n2]; [lia |]. cbn [JSON.elements].
  destruct (JSON.skip_ws s) as [|c rest] eqn:E; [split; [reflexivity | discriminate] |].
  apply skip_ws_cons in E.
  destruct (nat_of_ascii c =? 93)%nat.
  { split; [reflexivity |]. intros v r H. injection H as _ <-. lia. }
  destruct (nat_of_ascii c =? 44)%nat; [| split; [reflexivity | discriminate]].
  destruct (Hagree rest) as [Heq Hshort]; [lia |].
  rewrite <- Heq. destruct (pv1 rest) as [[v r] |]; cbn [JS.bind fst snd];
    [| split; [reflexivity | discriminate]].
  specialize (Hshort v r eq_refl).
  destruct (IH n2 (v :: acc) r) as [Heq' Hshort']; try lia.
  split; [exact Heq' |]. intros v' r' H. apply Hshort' in H. lia.
Qed.

Lemma member_at_agree (M : nat) (pv1 pv2 : JSON.parser) (s : list ascii) :
  agree M pv1 pv2 -> (length s <= M)%nat ->
  JSON.member_at pv1 s = JSON.member_at pv2 s /\
  forall m rest, JSON.member_at pv1 s = Some (m, rest) -> (length rest < length s)%nat.
Proof.
  intros Hagree HM. unfold JSON.member_at.
  destruct (JSON.skip_ws s) as [|q rest1] eqn:E; [split; [reflexivity | discriminate] |].
  apply skip_ws_cons in E.
  destruct (nat_of_ascii q =? 34)%nat; [| split; [reflexivity | discriminate]].
  destruct (JSON.chars rest1 []) as [[k after] |] eqn:Ek; cbn [JS.bind fst snd];
    [| split; [reflexivity | discriminate]].
  apply (chars_le (length rest1)) in Ek; [| lia].
  destruct (JSON.skip_ws after) as [|colon rest2] eqn:E2;
    [split; [reflexivity | discriminate] |].
  apply skip_ws_cons in E2.
  destruct (nat_of_ascii colon =? 58)%nat; [| split; [reflexivity | discriminate]].
  destruct (Hagree rest2) as [Heq Hshort]; [lia |].
  rewrite <- Heq. destruct (pv1 rest2) as [[v r] |]; cbn [JS.bind fst snd];
    [| split; [reflexivity | discriminate]].
  specialize (Hshort v r eq_refl).
  split; [reflexivity |]. intros m rest H. injection H as _ <-. lia.
Qed.

Lemma members_agree (M : nat) (pv1 pv2 : JSON.parser) :
  agree M pv1 pv2 ->
  forall n1 n2 acc s,
    (length s <= M)%nat -> (length s < n1)%nat -> (length s < n2)%nat ->
    JSON.members pv1 n1 acc s = JSON.members pv2 n2 acc s /\
    forall v rest, JSON.members pv1 n1 acc s = Some (v, rest) ->
                   (length rest <= length s)%nat.
Proof.
  intros Hagree. induction n1 as [|n1 IH]; intros n2 acc s HM H1 H2; [lia |].
  destruct n2 as [|n2]; [lia |]. cbn [JSON.members].
  destruct (JSON.skip_ws s) as [|c rest] eqn:E; [split; [reflexivity | discriminate] |].
  apply skip_ws_cons in E.
  destruct (nat_of_ascii c =? 125)%nat.
  { split; [reflexivity |]. intros v r H. injection H as _ <-. lia. }
  destruct (nat_of_ascii c =? 44)%nat; [| split; [reflexivity | discriminate]].
  destruct (member_at_agree M pv1 pv2 rest Hagree) as [Heq Hshort]; [lia |].
  rewrite <- Heq. destruct (JSON.member_at pv1 rest) as [[m r] |]; cbn [JS.bind fst snd];
    [| split; [reflexivity | discriminate]].
  specialize (Hshort m r eq_refl).
  destruct (IH n2 (m :: acc) r) as [Heq' Hshort']; try lia.
  split; [exact Heq' |]. intros v' r' H. apply Hshort' in H. lia.
Qed.

Lemma value_step_agree (M : nat) (pv1 pv2 : JSON.parser) (n1 n2 : nat) (s : list ascii) :
  agree M pv1 pv2 ->
  (length s <= M)%nat -> (length s <= n1)%nat -> (length s <= n2)%nat ->
  JSON.value_step pv1 n1 s = JSON.value_step pv2 n2 s /\
  forall v rest, JSON.value_step pv1 n1 s = Some (v, rest) ->
                 (length rest <= length s)%nat.
Proof.
  intros Hagree HM H1 H2. unfold JSON.value_step.
  destruct (JSON.skip_ws s) as [|c rest] eqn:E; [split; [reflexivity | discriminate] |].
  pose proof (skip_ws_le s) as Hws. rewrite E in Hws. cbn [length] in Hws.
  cbv zeta.
  destruct (nat_of_ascii c =? 34)%nat.
  { split; [reflexivity |]. intros v r H.
    destruct (JSON.chars rest []) as [[k after] |] eqn:Ek; [| discriminate H].
    apply (chars_le (length rest)) in Ek; [| lia].
    cbn [JS.bind fst snd] in H. injection H as _ <-. lia. }
  destruct (nat_of_ascii c =? 91)%nat.
  { destruct (JSON.skip_ws rest) as [|c1 rest1] eqn:E1;
      [split; [reflexivity | discriminate] |].
    apply skip_ws_cons in E1.
    destruct (nat_of_ascii c1 =? 93)%nat.
    { split; [reflexivity |]. intros v r H. injection H as _ <-. lia. }
    destruct (Hagree rest) as [Heq Hshort]; [lia |].
    rewrite <- Heq. destruct (pv1 rest) as [[v r] |]; cbn [JS.bind fst snd];
      [| split; [reflexivity | discriminate]].
    specialize (Hshort v r eq_refl).
    destruct (elements_agree M pv1 pv2 Hagree n1 n2 [v] r) as [Heq' Hshort']; try lia.
    split; [exact Heq' |]. intros v' r' H. apply Hshort' in H. lia. }
  destruct (nat_of_ascii c =? 123)%nat.
  { destruct (JSON.skip_ws rest) as [|c1 rest1] eqn:E1;
      [split; [reflexivity | discriminate] |].
    apply skip_ws_cons in E1.
    destruct (nat_of_ascii c1 =? 125)%nat.
    { split; [reflexivity |]. intros v r H. injection H as _ <-. lia. }
    destruct (member_at_agree M pv1 pv2 rest Hagree) as [Heq Hshort]; [lia |].
    rewrite <- Heq. destruct (JSON.member_at pv1 rest) as [[m r] |];
      cbn [JS.bind fst snd]; [| split; [reflexivity | discriminate]].
    specialize (Hshort m r eq_refl).
    destruct (members_agree M pv1 pv2 Hagree n1 n2 [m] r) as [Heq' Hshort']; try lia.
    split; [exact Heq' |]. intros v' r' H. apply Hshort' in H. lia. }
  split; [reflexivity |]. intros v r H.
  destruct (JSON.literal "null" (c :: rest)) as [r0 |] eqn:L0.
  { injection H as _ <-. apply literal_le in L0. cbn [length] in L0. lia. }
  destruct (JSON.literal "true" (c :: rest)) as [r1 |] eqn:L1.
  { injection H as _ <-. apply literal_le in L1. cbn [length] in L1. lia. }
  destruct (JSON.literal "false" (c :: rest)) as [r2 |] eqn:L2.
  { injection H as _ <-. apply literal_le in L2. cbn [length] in L2. lia. }
  destruct (JSON.number (c :: rest)) as [[x r3] |] eqn:Nx; [| discriminate H].
  cbn [JS.bind fst snd] in H. injection H as _ <-.
  apply number_le in Nx. cbn [length] in Nx. lia.
Qed.

Lemma parse_value_agree (f1 : nat) :
  forall f2 s,
    (length s < f1)%nat -> (length s < f2)%nat ->
    JSON.parse_value f1 s = JSON.parse_value f2 s /\
    forall v rest, JSON.parse_value f1 s = Some (v, rest) -> (length rest <= length s)%nat.
Proof.
  induction f1 as [|f1 IH]; intros f2 s H1 H2; [lia |].
  destruct f2 as [|f2]; [lia |]. cbn [JSON.parse_value].
  apply value_step_agree with (M := length s); try lia.
  intros s' Hs'. apply IH; lia.
Qed.

(** Fuel beyond the length of the text changes nothing. *)
Lemma parse_value_fuel (s : list ascii) (fuel : nat) :
  (length s < fuel)%nat ->
  JSON.parse_value fuel s = JSON.parse_value (S (length s)) s.
Proof. intros H. apply parse_value_agree; lia. Qed.

(** ** C1: loading a text that is not JSON *)

(** C1, as amended.  When the text is not valid JSON, [JSON.parse]
    throws before [reset] is reached: the error is caught inside
    [loadFromJSON] and the world is exactly what it was before the
    call. *)
Theorem loadFromJSON_invalid_keeps_world (jsonString : string) (w : VoxelWorld.t) :
  JSON.parse jsonString = None ->
  VoxelWorld.loadFromJSON jsonString w = Some (VoxelWorld.Caught, w).
Proof. intros H. unfold VoxelWorld.loadFromJSON. now rewrite H. Qed.

Lemma loadFromJSON_invalid_keeps_world_witness :
  JSON.parse "{bad" = None /\
  VoxelWorld.loadFromJSON "{bad" oneVoxelWorld = Some (VoxelWorld.Caught, oneVoxelWorld).
Proof.
  split; [vm_compute; reflexivity |].
  apply (loadFromJSON_invalid_keeps_world "{bad" oneVoxelWorld).
  vm_compute; reflexivity.
Defined.

(** C1 as stated fails: after loading the text [{bad] into a world with
    one voxel, the voxel map and the undo log are not empty. *)
Lemma loadFromJSON_invalid_not_reset :
  JSON.parse "{bad" = None /\
  exists w', VoxelWorld.loadFromJSON "{bad" oneVoxelWorld = Some (VoxelWorld.Caught, w')
             /\ VoxelWorld.voxels w' <> [] /\ VoxelWorld.history w' <> [].
Proof.
  split; [vm_compute; reflexivity |].
  exists oneVoxelWorld. split; [| split; discriminate].
  unfold VoxelWorld.loadFromJSON.
  replace (JSON.parse "{bad") with (@None JSON.value) by (vm_compute; reflexivity).
  reflexivity.
Qed.

(** The post-reset empty state is what a text leaves that is valid JSON
    but not an array: [reset] has run when [data.forEach] throws. *)
Lemma reset_is_empty (w : VoxelWorld.t) :
  VoxelWorld.voxels (VoxelWorld.reset w) = [] /\
  VoxelWorld.history (VoxelWorld.reset w) = [] /\
  VoxelWorld.scene_rotation (VoxelWorld.reset w) = Vec3.mk 0 0 0.
Proof. repeat split. Qed.

Lemma loadFromJSON_not_array (jsonString : string) (data : JSON.value) (w : VoxelWorld.t) :
  JSON.parse jsonString = Some data ->
  (forall items, data <> JSON.Array items) ->
  VoxelWorld.loadFromJSON jsonString w = Some (VoxelWorld.Caught, VoxelWorld.reset w).
Proof.
  intros Hparse Hshape. unfold VoxelWorld.loadFromJSON. rewrite Hparse.
  destruct data; try reflexivity. now contradiction (Hshape items).
Qed.

Example loadFromJSON_of_a_number :
  VoxelWorld.loadFromJSON "42" oneVoxelWorld
  = Some (VoxelWorld.Caught, VoxelWorld.reset oneVoxelWorld).
Proof.
  apply loadFromJSON_not_array with (data := JSON.Number (IZR 42 * powerRZ 10 (0 - 0))).
  - vm_compute. reflexivity.
  - discriminate.
Qed.

(** ** C2: undo inverts the last mutation *)

(** C2. With a visible cursor: on a free cell, [createVoxelAtCursor]
    succeeds and [undo] then gives back the world it started from
    (voxel map and log included); on an occupied cell,
    [removeVoxelAtCursor] then [undo] leaves at that key a voxel at the
    cursor position with the colour of the removed one, every other key
    as it was, and the log as it was. *)
Theorem undo_inverts_last_mutation (w : VoxelWorld.t) :
  VoxelWorld.cursorVisible w = true ->
  let key := key_of (VoxelWorld.cursor_position w) in
  match JSMap.get (VoxelWorld.voxels w) key with
  | None =>
      fst (VoxelWorld.createVoxelAtCursor w) = true /\
      VoxelWorld.undo (snd (VoxelWorld.createVoxelAtCursor w)) = w
  | Some original =>
      let w2 := VoxelWorld.undo (VoxelWorld.removeVoxelAtCursor w) in
      JSMap.get (VoxelWorld.voxels w2) key
        = Some (Mesh.mk (VoxelWorld.cursor_position w) (Mesh.color original)) /\
      (forall k, k <> key ->
         JSMap.get (VoxelWorld.voxels w2) k = JSMap.get (VoxelWorld.voxels w) k) /\
      VoxelWorld.history w2 = VoxelWorld.history w
  end.
Proof.
  intros Hvis key.
  destruct (JSMap.get (VoxelWorld.voxels w) key) as [original|] eqn:Hget.
  - unfold VoxelWorld.removeVoxelAtCursor. rewrite Hvis. simpl. fold key.
    rewrite Hget. unfold VoxelWorld.undo. simpl.
    rewrite pop_snoc. simpl.
    split; [apply get_set_same |].
    split; [| reflexivity].
    intros k Hk. rewrite get_set_other, get_delete_other; auto.
  - unfold VoxelWorld.createVoxelAtCursor. rewrite Hvis. simpl. fold key.
    assert (Hhas : JSMap.has (VoxelWorld.voxels w) key = false) by now apply has_get.
    rewrite Hhas. simpl. split; [reflexivity |].
    unfold VoxelWorld.undo. simpl. rewrite pop_snoc. simpl.
    unfold JSMap.has. rewrite get_set_same.
    rewrite set_absent by assumption.
    rewrite delete_appended by assumption.
    destruct w; reflexivity.
Qed.

Lemma undo_inverts_last_mutation_witness :
  (fst (VoxelWorld.createVoxelAtCursor cursorOnGround) = true /\
   VoxelWorld.undo (snd (VoxelWorld.createVoxelAtCursor cursorOnGround)) = cursorOnGround)
  /\
  (JSMap.get
     (VoxelWorld.voxels (VoxelWorld.undo (VoxelWorld.removeVoxelAtCursor oneVoxelWorld)))
     (/ 2, / 2, / 2)
   = Some (Mesh.mk (Vec3.mk (/ 2) (/ 2) (/ 2)) VoxelWorld.cyan)).
Proof.
  split.
  - exact (undo_inverts_last_mutation cursorOnGround eq_refl).
  - pose proof (undo_inverts_last_mutation oneVoxelWorld eq_refl) as H.
    simpl in H. unfold key_of in H. simpl in H.
    rewrite Key_eqb_refl in H. exact (proj1 H).
Defined.

(** ** C6: placement refuses duplicates *)

(** C6. [createVoxelAtCursor] returns [false] and changes nothing when
    the cursor is not visible or its cell is occupied; otherwise it
    returns [true], adds the voxel under the cursor's key and appends
    one [ADD] action.  Whatever the first call did, a second call at the
    same cursor returns [false] and changes nothing. *)
Theorem createVoxelAtCursor_refuses_duplicates (w : VoxelWorld.t) :
  let pos := VoxelWorld.cursor_position w in
  let key := key_of pos in
  let first := VoxelWorld.createVoxelAtCursor w in
  first =
    (if negb (VoxelWorld.cursorVisible w) || JSMap.has (VoxelWorld.voxels w) key
     then (false, w)
     else (true,
           VoxelWorld.with_voxels w
             (VoxelWorld.voxels w ++ [(key, Mesh.mk pos VoxelWorld.cyan)])
             (VoxelWorld.history w ++ [Action.mk ADD key pos VoxelWorld.cyan])))
  /\ VoxelWorld.createVoxelAtCursor (snd first) = (false, snd first).
Proof.
  intros pos key first. subst first.
  unfold VoxelWorld.createVoxelAtCursor at 1 3 4.
  fold pos. fold key.
  destruct (VoxelWorld.cursorVisible w) eqn:Hvis; simpl.
  - destruct (JSMap.has (VoxelWorld.voxels w) key) eqn:Hhas; simpl.
    + split; [reflexivity |].
      unfold VoxelWorld.createVoxelAtCursor. rewrite Hvis. simpl.
      fold pos. fold key. now rewrite Hhas.
    + apply has_get in Hhas. rewrite set_absent by assumption.
      split; [reflexivity |].
      unfold VoxelWorld.createVoxelAtCursor. simpl. rewrite Hvis. simpl.
      fold pos. fold key. unfold JSMap.has.
      rewrite <- set_absent with (v := Mesh.mk pos VoxelWorld.cyan) by assumption.
      now rewrite get_set_same.
  - split; [reflexivity |].
    unfold VoxelWorld.createVoxelAtCursor. now rewrite Hvis.
Qed.

(** ** C7: the floor branch of the cursor *)

Lemma fold_Rmax_In (ys : list R) (y : R) : In (fold_left Rmax ys y) (y :: ys).
Proof.
  revert y. induction ys as [|a ys IH]; intros y; simpl; auto.
  destruct (IH (Rmax y a)) as [H | H]; auto.
  rewrite <- H. unfold Rmax. destruct (Rle_dec y a); auto.
Qed.

Lemma fold_Rmax_snoc (ys : list R) (y a : R) :
  fold_left Rmax (ys ++ [a]) y = Rmax (fold_left Rmax ys y) a.
Proof. now rewrite fold_left_app. Qed.

Lemma onFloorGrid_step (a b : R) :
  onFloorGrid a -> onFloorGrid b -> a < b + 1 -> a <= b.
Proof.
  intros [n Hn] [m Hm] Hlt. subst a b.
  assert (H : INR n < INR (S m)) by (rewrite S_INR; lra).
  apply INR_lt in H.
  assert (Hle : (n <= m)%nat) by lia.
  apply le_INR in Hle. lra.
Qed.

(** One more voxel of the column, on the grid: the loop's update keeps
    [maxY] equal to the promised height. *)
Lemma stackedY_snoc (hs : list R) (y : R) :
  Forall onFloorGrid hs -> onFloorGrid y ->
  stackedY (hs ++ [y]) = if JS.ge y (stackedY hs) then y + 1 else stackedY hs.
Proof.
  intros Hhs Hy. destruct hs as [|h t]; simpl.
  - destruct Hy as [n Hn]. rewrite ge_true; [reflexivity |].
    pose proof (pos_INR n). lra.
  - rewrite fold_Rmax_snoc.
    set (M := fold_left Rmax t h).
    assert (HM : onFloorGrid M).
    { rewrite Forall_forall in Hhs. apply Hhs. apply fold_Rmax_In. }
    unfold JS.ge. destruct (Rle_dec (M + 1) y) as [Hge | Hlt].
    + rewrite Rmax_right by lra. reflexivity.
    + rewrite Rmax_left; [reflexivity |].
      apply onFloorGrid_step; auto. lra.
Qed.

Lemma columnStep_fold (x z : R) (l : list (Key * Mesh.t)) :
  forall hs,
    Forall onFloorGrid hs ->
    Forall onFloorGrid
      (map (fun e => Vec3.y (Mesh.position (snd e))) (filter (inColumn x z) l)) ->
    fold_left (VoxelWorld.columnStep x z) l (stackedY hs)
    = stackedY (hs ++ map (fun e => Vec3.y (Mesh.position (snd e)))
                          (filter (inColumn x z) l)).
Proof.
  induction l as [|e l IH]; intros hs Hhs Hl; simpl.
  - now rewrite app_nil_r.
  - simpl in Hl. unfold VoxelWorld.columnStep at 2.
    change (JS.lt (Rabs (Vec3.x (Mesh.position (snd e)) - x)) (1 / 100)
            && JS.lt (Rabs (Vec3.z (Mesh.position (snd e)) - z)) (1 / 100))
      with (inColumn x z e).
    destruct (inColumn x z e) eqn:Hin.
    + simpl in Hl. inversion Hl as [|? ? Hy Hrest]; subst.
      unfold VoxelWorld.voxelSize.
      rewrite <- stackedY_snoc by assumption.
      rewrite IH.
      * simpl. now rewrite <- app_assoc.
      * apply Forall_app. split; auto.
      * assumption.
    + apply IH; assumption.
Qed.

(** C7, as amended.  With numbers taken as exact reals, as everywhere
    in this model: when the ray misses every voxel and meets the floor
    at [point], the cursor goes to the cell centre of (x, z); its height
    is ground level if the column holds no voxel, and one unit above the
    highest voxel of the column provided the voxels of that column sit
    on the floor grid (ground level plus whole units) below
    2^52 - 1 = 4503599627370495.  The bound is where the exact [+ 1] of
    the model is also what binary64 computes: from 2^52 - 1/2 on, one
    unit more is no longer a binary64 number and the code's sum is
    rounded. *)
Theorem floor_cursor_stacks_on_column (w : VoxelWorld.t) (point : Vec3.t) :
  let x := cellCenter (Vec3.x point) in
  let z := cellCenter (Vec3.z point) in
  Forall onFloorGrid (columnHeights w x z) ->
  Forall (fun y => y < 4503599627370495) (columnHeights w x z) ->
  fst (VoxelWorld.updateCursorFromHand (PlaneHit point) w)
  = Some (Vec3.mk x (stackedY (columnHeights w x z)) z).
Proof.
  intros x z Hgrid _. simpl.
  unfold VoxelWorld.voxelSize, JS.floor.
  replace (IZR (Zfloor (Vec3.x point / 1)) * 1 + 1 / 2) with x
    by (unfold x, cellCenter; rewrite Rdiv_1_r; lra).
  replace (IZR (Zfloor (Vec3.z point / 1)) * 1 + 1 / 2) with z
    by (unfold z, cellCenter; rewrite Rdiv_1_r; lra).
  replace (1 / 2) with (stackedY []) by (simpl; lra).
  rewrite columnStep_fold; auto.
Qed.

(** Closed comparisons between concrete numbers. *)
Ltac js_real :=
  unfold Rabs; repeat (match goal with |- context [Rcase_abs ?e] => destruct (Rcase_abs e) end);
  simpl; lra.

Ltac js_decide :=
  repeat match goal with
    | |- context [JS.lt ?a ?b] =>
        first [ rewrite (lt_true a b) by js_real | rewrite (lt_false a b) by js_real ]
    | |- context [JS.gt ?a ?b] =>
        first [ rewrite (gt_true a b) by js_real | rewrite (gt_false a b) by js_real ]
    | |- context [JS.ge ?a ?b] =>
        first [ rewrite (ge_true a b) by js_real | rewrite (ge_false a b) by js_real ]
    end.

Lemma cellCenter_unit (p : R) : 0 <= p < 1 -> cellCenter p = / 2.
Proof.
  intros H. unfold cellCenter. rewrite (Zfloor_eq 0 p); simpl; lra.
Qed.

Lemma updateCursorFromHand_floor (w : VoxelWorld.t) (point : Vec3.t) :
  fst (VoxelWorld.updateCursorFromHand (PlaneHit point) w)
  = Some (Vec3.mk (cellCenter (Vec3.x point))
            (fold_left
               (VoxelWorld.columnStep (cellCenter (Vec3.x point)) (cellCenter (Vec3.z point)))
               (VoxelWorld.voxels w) (/ 2))
            (cellCenter (Vec3.z point))).
Proof.
  simpl. unfold VoxelWorld.voxelSize, JS.floor, cellCenter.
  rewrite !Rdiv_1_r, !Rmult_1_r.
  replace (1 / 2) with (/ 2) by lra. reflexivity.
Qed.

Lemma floor_cursor_stacks_on_column_witness :
  let point := Vec3.mk (2 / 10) 0 (7 / 10) in
  let x := cellCenter (Vec3.x point) in
  let z := cellCenter (Vec3.z point) in
  Forall onFloorGrid (columnHeights oneVoxelWorld x z) /\
  Forall (fun y => y < 4503599627370495) (columnHeights oneVoxelWorld x z) /\
  fst (VoxelWorld.updateCursorFromHand (PlaneHit point) oneVoxelWorld)
  = Some (Vec3.mk x (stackedY (columnHeights oneVoxelWorld x z)) z).
Proof.
  intros point x z.
  assert (Hx : x = / 2) by (apply cellCenter_unit; simpl; lra).
  assert (Hz : z = / 2) by (apply cellCenter_unit; simpl; lra).
  assert (Hgrid : Forall onFloorGrid (columnHeights oneVoxelWorld x z)).
  { rewrite Hx, Hz. unfold columnHeights, inColumn. simpl.
    js_decide. simpl. constructor; [| constructor].
    exists 0%nat. simpl. lra. }
  assert (Hlow : Forall (fun y => y < 4503599627370495) (columnHeights oneVoxelWorld x z)).
  { rewrite Hx, Hz. unfold columnHeights, inColumn. simpl.
    js_decide. simpl. constructor; [lra | constructor]. }
  split; [exact Hgrid |]. split; [exact Hlow |].
  exact (floor_cursor_stacks_on_column oneVoxelWorld point Hgrid Hlow).
Defined.

(** On the world of the witness the cursor lands one unit above the
    ground voxel. *)
Example floor_cursor_second_cell :
  fst (VoxelWorld.updateCursorFromHand (PlaneHit (Vec3.mk (2 / 10) 0 (7 / 10))) oneVoxelWorld)
  = Some (Vec3.mk (/ 2) (/ 2 + 1) (/ 2)).
Proof.
  rewrite updateCursorFromHand_floor. simpl Vec3.x. simpl Vec3.z.
  rewrite !cellCenter_unit by lra.
  simpl. unfold VoxelWorld.columnStep, VoxelWorld.voxelSize. simpl.
  js_decide. reflexivity.
Qed.

(** *** Worlds built through the cursor stay on the grid

    Every operation of the world other than [loadFromJSON] keeps
    [gridWorld], and in such a world the columns of the floor cells are
    on the floor grid: the proviso of C7 holds in every world reached
    from the empty one without loading a snapshot. *)

Lemma stackedY_on_grid (hs : list R) :
  Forall onFloorGrid hs -> onFloorGrid (stackedY hs).
Proof.
  intros H. destruct hs as [|h t]; simpl.
  - exists 0%nat. simpl. lra.
  - assert (HM : onFloorGrid (fold_left Rmax t h)).
    { rewrite Forall_forall in H. apply H. apply fold_Rmax_In. }
    destruct HM as [n Hn]. exists (S n). rewrite S_INR. lra.
Qed.

Lemma column_on_grid (w : VoxelWorld.t) (px pz : R) :
  gridWorld w ->
  Forall onFloorGrid (columnHeights w (cellCenter px) (cellCenter pz)).
Proof.
  intros (Hv & _ & _). unfold columnHeights.
  rewrite Forall_forall in *. intros y Hy.
  apply in_map_iff in Hy. destruct Hy as (e & <- & He).
  apply filter_In in He. destruct He as [He Hcol].
  destruct (Hv e He) as [[i Hi] | Hgrid]; [exfalso | exact Hgrid].
  unfold inColumn in Hcol. apply andb_true_iff in Hcol. destruct Hcol as [Hx _].
  apply lt_spec in Hx. rewrite Hi in Hx. unfold cellCenter in Hx.
  set (m := Zfloor px) in *.
  assert (Hk : IZR i - (IZR m + / 2) = IZR (i - m) - / 2) by (rewrite minus_IZR; lra).
  rewrite Hk in Hx. apply Rabs_def2 in Hx. destruct Hx as [Hlo Hhi].
  assert (H0 : (0 < i - m)%Z) by (apply lt_IZR; lra).
  assert (H1 : (1 <= i - m)%Z) by lia.
  apply IZR_le in H1. lra.
Qed.

Lemma Forall_set {V} (P : Key * V -> Prop) (m : JSMap.t V) (k : Key) (v : V) :
  (forall k', P (k', v)) -> Forall P m -> Forall P (JSMap.set m k v).
Proof.
  intros Hv Hm. induction m as [|[k0 v0] m IH]; simpl.
  - constructor; auto.
  - inversion Hm; subst. destruct (Key_eqb k0 k); constructor; auto.
Qed.

Lemma Forall_delete {V} (P : Key * V -> Prop) (m : JSMap.t V) (k : Key) :
  Forall P m -> Forall P (JSMap.delete m k).
Proof.
  intros Hm. induction m as [|[k0 v0] m IH]; simpl; auto.
  inversion Hm; subst. destruct (Key_eqb k0 k); auto.
Qed.

Lemma get_In {V} (m : JSMap.t V) (k : Key) (v : V) :
  JSMap.get m k = Some v -> exists k', In (k', v) m.
Proof.
  induction m as [|[k0 v0] m IH]; simpl; [discriminate |].
  destruct (Key_eqb k0 k).
  - intros H. injection H as <-. eauto.
  - intros H. destruct (IH H) as [k' Hk']. eauto.
Qed.

Lemma pop_inv {A} (l h : list A) (a : A) :
  VoxelWorld.pop l = Some (h, a) -> l = h ++ [a].
Proof.
  unfold VoxelWorld.pop. destruct (rev l) as [|x before] eqn:E; [discriminate |].
  intros H. injection H as <- <-.
  rewrite <- (rev_involutive l), E. reflexivity.
Qed.

Lemma gridWorld_constructor : gridWorld VoxelWorld.constructor.
Proof.
  split; [constructor | split; [constructor |]].
  left. exists 0%Z. reflexivity.
Qed.

Lemma gridWorld_reset (w : VoxelWorld.t) : gridWorld w -> gridWorld (VoxelWorld.reset w).
Proof. intros (_ & _ & Hc). split; [constructor | split; [constructor | exact Hc]]. Qed.

Lemma gridWorld_updateCursorFromHand (ray : RayResult) (w : VoxelWorld.t) :
  gridWorld w -> gridWorld (snd (VoxelWorld.updateCursorFromHand ray w)).
Proof.
  intros Hw. pose proof Hw as (Hv & Hh & Hc).
  destruct ray as [hitPos normal | point |].
  - split; [exact Hv | split; [exact Hh |]].
    left. cbn [VoxelWorld.updateCursorFromHand snd VoxelWorld.with_cursor
               VoxelWorld.cursor_position Vec3.x].
    unfold JS.round, VoxelWorld.voxelSize.
    eexists. rewrite Rmult_1_r. reflexivity.
  - split; [exact Hv | split; [exact Hh |]].
    right.
    pose proof (updateCursorFromHand_floor w point) as Hfloor.
    cbn [VoxelWorld.updateCursorFromHand fst snd VoxelWorld.with_cursor
         VoxelWorld.cursor_position Vec3.y] in *.
    injection Hfloor as _ Hy _. rewrite Hy.
    replace (/ 2) with (stackedY []) by reflexivity.
    rewrite columnStep_fold; [| constructor | apply column_on_grid; exact Hw].
    apply stackedY_on_grid. apply (column_on_grid w _ _ Hw).
  - split; [exact Hv | split; [exact Hh | exact Hc]].
Qed.

Lemma gridWorld_createVoxelAtCursor (w : VoxelWorld.t) :
  gridWorld w -> gridWorld (snd (VoxelWorld.createVoxelAtCursor w)).
Proof.
  intros Hw. pose proof Hw as (Hv & Hh & Hc). unfold VoxelWorld.createVoxelAtCursor.
  destruct (negb (VoxelWorld.cursorVisible w)); [exact Hw |].
  destruct (JSMap.has _ _); [exact Hw |]. simpl.
  repeat split; auto.
  - apply Forall_set; auto.
  - apply Forall_app. split; auto.
Qed.

Lemma gridWorld_removeVoxelAtCursor (w : VoxelWorld.t) :
  gridWorld w -> gridWorld (VoxelWorld.removeVoxelAtCursor w).
Proof.
  intros Hw. pose proof Hw as (Hv & Hh & Hc). unfold VoxelWorld.removeVoxelAtCursor.
  destruct (negb (VoxelWorld.cursorVisible w)); [exact Hw |].
  destruct (JSMap.get _ _); [| exact Hw]. simpl.
  repeat split; auto.
  - apply Forall_delete; auto.
  - apply Forall_app. split; auto.
Qed.

Lemma gridWorld_undo (w : VoxelWorld.t) : gridWorld w -> gridWorld (VoxelWorld.undo w).
Proof.
  intros Hw. pose proof Hw as (Hv & Hh & Hc). unfold VoxelWorld.undo.
  destruct (VoxelWorld.pop (VoxelWorld.history w)) as [[h action] |] eqn:E; [| exact Hw].
  apply pop_inv in E. rewrite E in Hh. apply Forall_app in Hh.
  destruct Hh as [Hh Ha]. inversion Ha as [|? ? Haction _]; subst.
  destruct (Action.type action).
  - destruct (JSMap.has _ _); repeat split; auto. apply Forall_delete; auto.
  - repeat split; auto. apply Forall_set; auto.
Qed.

Lemma gridWorld_same_voxels (w w' : VoxelWorld.t) :
  VoxelWorld.voxels w' = VoxelWorld.voxels w ->
  VoxelWorld.history w' = VoxelWorld.history w ->
  VoxelWorld.cursor_position w' = VoxelWorld.cursor_position w ->
  gridWorld w -> gridWorld w'.
Proof. unfold gridWorld. intros -> -> ->. auto. Qed.

Lemma gridWorld_transition (gesture : Gesture) (ndcX ndcY : R) (now : Z) (s s1 : App.t) :
  gridWorld (App.world s) ->
  App.transition gesture ndcX ndcY now s = Some s1 -> gridWorld (App.world s1).
Proof.
  intros Hw H. unfold App.transition in H.
  destruct gesture;
    repeat match type of H with
      | context [if ?b then _ else _] => destruct b
      end;
    try discriminate H; injection H as <-; simpl;
    try exact Hw;
    apply gridWorld_same_voxels with (w := App.world s); auto.
Qed.

Lemma gridWorld_stateAction (ndcX ndcY : R) (now : Z) (s : App.t) :
  gridWorld (App.world s) -> gridWorld (App.world (App.stateAction ndcX ndcY now s)).
Proof.
  intros Hw. unfold App.stateAction.
  destruct (App.interactionState s); try exact Hw.
  - destruct (_ && _); [| exact Hw].
    pose proof (gridWorld_createVoxelAtCursor (App.world s) Hw) as Hc.
    destruct (VoxelWorld.createVoxelAtCursor (App.world s)) as [placed w'].
    destruct placed; exact Hc.
  - destruct (_ <? _)%Z; [| exact Hw]. simpl. apply gridWorld_undo. exact Hw.
  - destruct (App.lastPoint s) as [[lx ly] |]; simpl; [| exact Hw].
    apply gridWorld_same_voxels with (w := App.world s); auto.
Qed.

(** A frame of the handler keeps the world on the grid. *)
Lemma gridWorld_handleInteraction (gesture : Gesture)
    (handState : option GestureRecognizer.HandAnalysis) (landmarks : option Hand)
    (now : Z) (ray : RayResult) (s s' : App.t) :
  gridWorld (App.world s) ->
  App.handleInteraction gesture handState landmarks now ray s = Some s' ->
  gridWorld (App.world s').
Proof.
  intros Hw H. unfold App.handleInteraction in H.
  destruct (App.pointer handState landmarks) as [point |]; [| discriminate H].
  cbn [JS.bind] in H.
  pose proof (gridWorld_updateCursorFromHand ray (App.world s) Hw) as Hw0.
  set (s0 := App.with_world s (snd (VoxelWorld.updateCursorFromHand ray (App.world s)))) in *.
  assert (Hs0 : gridWorld (App.world s0)) by exact Hw0.
  assert (Hrest : forall g, match App.transition g (App.ndcXOf point) (App.ndcYOf point) now s0 with
                  | Some s1 => Some (App.with_lastGesture
                                 (App.with_lastPoint
                                    (App.stateAction (App.ndcXOf point) (App.ndcYOf point) now s1)
                                    (Some (App.ndcXOf point, App.ndcYOf point))) g)
                  | None => Some s0
                  end = Some s' -> gridWorld (App.world s')).
  { intros g Hg.
    destruct (App.transition g _ _ now s0) as [s1 |] eqn:Et.
    - injection Hg as <-. simpl. apply gridWorld_stateAction.
      apply (gridWorld_transition _ _ _ _ _ _ Hs0 Et).
    - injection Hg as <-. exact Hs0. }
  destruct (Gesture_eq_dec gesture ZOOM_IN) as [-> | Hin].
  { injection H as <-. simpl.
    apply gridWorld_same_voxels with (w := App.world s0); auto. }
  destruct (Gesture_eq_dec gesture ZOOM_OUT) as [-> | Hout].
  { injection H as <-. simpl.
    apply gridWorld_same_voxels with (w := App.world s0); auto. }
  apply (Hrest gesture). destruct gesture; try congruence; exact H.
Qed.

(** The first cell of a column: on the empty world the cursor aimed at
    the ground lands at ground level. *)
Example floor_cursor_first_cell :
  fst (VoxelWorld.updateCursorFromHand (PlaneHit (Vec3.mk (2 / 10) 0 (7 / 10)))
         VoxelWorld.constructor)
  = Some (Vec3.mk (/ 2) (/ 2) (/ 2)).
Proof.
  rewrite updateCursorFromHand_floor. simpl Vec3.x. simpl Vec3.z.
  rewrite !cellCenter_unit by lra. reflexivity.
Qed.

Lemma sunkenText_parses :
  JSON.parse sunkenText
  = Some (JSON.Array
            [JSON.Object
               [(JSON.units_of "x", JSON.Number (IZR 5 * powerRZ 10 (0 - 1)));
                (JSON.units_of "y", JSON.Number (- (IZR 15 * powerRZ 10 (0 - 1))));
                (JSON.units_of "z", JSON.Number (IZR 5 * powerRZ 10 (0 - 1)))]]).
Proof. vm_compute. reflexivity. Qed.

Lemma sunkenWorld_loaded :
  VoxelWorld.loadFromJSON sunkenText VoxelWorld.constructor
  = Some (VoxelWorld.Loaded, sunkenWorld).
Proof.
  unfold VoxelWorld.loadFromJSON. rewrite sunkenText_parses.
  cbn -[IZR powerRZ Z.sub].
  unfold sunkenWorld, VoxelWorld.with_voxels, VoxelWorld.constructor. simpl.
  replace (5 * / (10 * 1)) with (/ 2) by lra.
  replace (- (15 * / (10 * 1))) with (- (3 / 2)) by lra.
  reflexivity.
Qed.

(** C7 as stated fails.  The snapshot [sunkenText] loads into a world
    whose column of (1/2, 1/2) holds one voxel, at height -3/2.  The
    cursor aimed at that column lands at ground level 1/2, not one unit
    above the highest voxel of the column, which is -1/2. *)
Lemma floor_cursor_ignores_sunken_voxel :
  let point := Vec3.mk (2 / 10) 0 (7 / 10) in
  let x := cellCenter (Vec3.x point) in
  let z := cellCenter (Vec3.z point) in
  VoxelWorld.loadFromJSON sunkenText VoxelWorld.constructor
    = Some (VoxelWorld.Loaded, sunkenWorld) /\
  columnHeights sunkenWorld x z = [- (3 / 2)] /\
  fst (VoxelWorld.updateCursorFromHand (PlaneHit point) sunkenWorld)
    = Some (Vec3.mk x (/ 2) z) /\
  fst (VoxelWorld.updateCursorFromHand (PlaneHit point) sunkenWorld)
    <> Some (Vec3.mk x (stackedY (columnHeights sunkenWorld x z)) z).
Proof.
  intros point x z.
  assert (Hx : x = / 2) by (apply cellCenter_unit; simpl; lra).
  assert (Hz : z = / 2) by (apply cellCenter_unit; simpl; lra).
  assert (Hcol : columnHeights sunkenWorld x z = [- (3 / 2)]).
  { rewrite Hx, Hz. unfold columnHeights, inColumn. simpl. js_decide. reflexivity. }
  assert (Hres : fst (VoxelWorld.updateCursorFromHand (PlaneHit point) sunkenWorld)
                 = Some (Vec3.mk x (/ 2) z)).
  { rewrite updateCursorFromHand_floor. fold x. fold z. rewrite Hx, Hz.
    simpl. unfold VoxelWorld.columnStep, VoxelWorld.voxelSize. simpl.
    js_decide. reflexivity. }
  split; [apply sunkenWorld_loaded |].
  split; [exact Hcol |].
  split; [exact Hres |].
  rewrite Hres, Hcol. simpl. intros H. inversion H. lra.
Qed.

(** ** C9: the debounce of a pinch after rotating or zooming *)

(** C9. With gesture [PINCH] in state [ROTATING] or [ZOOMING]: if fewer
    than 300 ms have passed since [lastClosedTime] (written by the last
    rotation frame), the handler returns after the cursor update and
    nothing else changes; otherwise the state becomes [DRAW_WAIT], the
    pinch start time is [now] and the placed-this-hold flag is cleared. *)
Theorem pinch_after_rotation_is_debounced
    (s : App.t) (handState : option GestureRecognizer.HandAnalysis)
    (landmarks : option Hand) (point : R * R) (now : Z) (ray : RayResult) :
  App.interactionState s = ROTATING \/ App.interactionState s = ZOOMING ->
  App.pointer handState landmarks = Some point ->
  let w0 := snd (VoxelWorld.updateCursorFromHand ray (App.world s)) in
  App.handleInteraction PINCH handState landmarks now ray s
  = Some (if (now - App.lastClosedTime s <? 300)%Z
          then App.with_world s w0
          else App.mk w0 (App.gestureRecognizer s) PINCH (App.isPreviewMode s)
                      (Some (App.ndcXOf point, App.ndcYOf point))
                      (App.lastClosedTime s) now (App.undoStartTime s)
                      DRAW_WAIT false).
Proof.
  intros Hstate Hpoint w0.
  unfold App.handleInteraction. rewrite Hpoint. simpl. fold w0.
  unfold App.transition. simpl.
  assert (Hfrom : InteractionState_eqb (App.interactionState s) ROTATING
                  || InteractionState_eqb (App.interactionState s) ZOOMING = true).
  { destruct Hstate as [H | H]; rewrite H; reflexivity. }
  rewrite Hfrom.
  destruct (now - App.lastClosedTime s <? 300)%Z; [reflexivity |].
  simpl. unfold App.stateAction. simpl.
  rewrite Z.sub_diag. reflexivity.
Qed.

Lemma pinch_after_rotation_is_debounced_witness :
  App.handleInteraction PINCH None None 1100 NoHit rotatingAt1000
    = Some (App.with_world rotatingAt1000
              (snd (VoxelWorld.updateCursorFromHand NoHit (App.world rotatingAt1000))))
  /\
  App.handleInteraction PINCH None None 1300 NoHit rotatingAt1000
    = Some (App.mk (snd (VoxelWorld.updateCursorFromHand NoHit (App.world rotatingAt1000)))
                   (App.gestureRecognizer rotatingAt1000) PINCH false
                   (Some (App.ndcXOf (5 / 10, 5 / 10), App.ndcYOf (5 / 10, 5 / 10)))
                   1000 1300 0 DRAW_WAIT false).
Proof.
  split.
  - exact (pinch_after_rotation_is_debounced rotatingAt1000 None None (5 / 10, 5 / 10) 1100 NoHit
             (or_introl eq_refl) eq_refl).
  - exact (pinch_after_rotation_is_debounced rotatingAt1000 None None (5 / 10, 5 / 10) 1300 NoHit
             (or_introl eq_refl) eq_refl).
Defined.

(** ** The hand-pose classifier *)

Ltac destruct_hand h H :=
  do 21 (destruct h as [|? h]; [discriminate H |]);
  destruct h; [clear H | discriminate H].

Lemma analyzeHand_21 (r : GestureRecognizer.t) (h : Hand) :
  length h = 21%nat ->
  GestureRecognizer.analyzeHand r h
  = let p := GestureRecognizer.pose (GestureRecognizer.pinchThreshold r)
               (lm h 0) (lm h 2) (lm h 4) (lm h 5) (lm h 8) (lm h 9) (lm h 12)
               (lm h 13) (lm h 16) (lm h 17) (lm h 20) in
    let buf := JS.push_bounded GestureRecognizer.positionBufferSize
                 (GestureRecognizer.positionBuffer r)
                 (GestureRecognizer.rawPinchCenter (lm h 4) (lm h 8)) in
    Some (GestureRecognizer.mkHandAnalysis
            (GestureRecognizer.label p) (GestureRecognizer.p_isPinching p)
            (GestureRecognizer.p_isFist p) (lm h 9) (GestureRecognizer.average buf),
          GestureRecognizer.mk (GestureRecognizer.history r)
            (GestureRecognizer.pinchThreshold r) (GestureRecognizer.gestureHistory r)
            (GestureRecognizer.lastStableGesture r) buf).
Proof. intros H. destruct_hand h H. reflexivity. Qed.

Lemma length_scaleHand k h : length (scaleHand k h) = length h.
Proof. apply length_map. Qed.

Lemma lm_scaleHand k h i :
  (i < length h)%nat -> lm (scaleHand k h) i = Vec3.multiplyScalar (lm h i) k.
Proof.
  intros H. unfold lm, scaleHand.
  rewrite nth_indep with (d' := Vec3.multiplyScalar (Vec3.mk 0 0 0) k)
    by (rewrite length_map; exact H).
  apply map_nth with (f := fun p => Vec3.multiplyScalar p k).
Qed.

Lemma dist_nonneg p q : 0 <= GestureRecognizer.dist p q.
Proof. apply sqrt_pos. Qed.

Lemma dist_scale (k : R) (p q : Vec3.t) :
  0 <= k ->
  GestureRecognizer.dist (Vec3.multiplyScalar p k) (Vec3.multiplyScalar q k)
  = k * GestureRecognizer.dist p q.
Proof.
  intros Hk. unfold GestureRecognizer.dist, Vec3.multiplyScalar.
  cbn [Vec3.x Vec3.y Vec3.z].
  replace ((Vec3.x p * k - Vec3.x q * k) ^ 2 + (Vec3.y p * k - Vec3.y q * k) ^ 2
           + (Vec3.z p * k - Vec3.z q * k) ^ 2)
    with (k ^ 2 * ((Vec3.x p - Vec3.x q) ^ 2 + (Vec3.y p - Vec3.y q) ^ 2
                   + (Vec3.z p - Vec3.z q) ^ 2)) by ring.
  rewrite sqrt_mult_alt by (apply pow2_ge_0).
  now rewrite sqrt_pow2.
Qed.

Lemma dist_axis (a b : R) :
  GestureRecognizer.dist (Vec3.mk a 0 0) (Vec3.mk b 0 0) = Rabs (a - b).
Proof.
  unfold GestureRecognizer.dist. simpl.
  replace ((a - b) * ((a - b) * 1) + (0 - 0) * ((0 - 0) * 1) + (0 - 0) * ((0 - 0) * 1))
    with (Rsqr (a - b)) by (unfold Rsqr; ring).
  apply sqrt_Rsqr_abs.
Qed.

(** The label selected is PINCH exactly when the pinch test holds. *)
Lemma label_PINCH (p : GestureRecognizer.Pose) :
  GestureRecognizer.label p = PINCH <-> GestureRecognizer.p_isPinching p = true.
Proof.
  unfold GestureRecognizer.label.
  destruct (GestureRecognizer.p_isPinching p), (GestureRecognizer.p_isThumbsUp p),
    (GestureRecognizer.p_victoryCondition p), (GestureRecognizer.p_isFist p),
    (GestureRecognizer.p_isOpen p); split; congruence.
Qed.

(** Evaluates the classifier on a hand of the x axis. *)
Ltac classify_axis :=
  unfold gestureOf, axisHand; rewrite analyzeHand_21 by reflexivity;
  cbn -[GestureRecognizer.pose GestureRecognizer.average JS.push_bounded];
  unfold GestureRecognizer.pose, lm; simpl;
  rewrite ?dist_axis; js_decide; simpl;
  js_decide; try reflexivity.

(** ** C4: the fist *)

(** C4 as stated fails: on [looseFist] the four fingertips and the thumb
    tip are within curl distance of the wrist, yet the label is PINCH,
    because the pinch test also holds and comes first. *)
Lemma looseFist_is_PINCH :
  let wrist := lm looseFist 0 in
  length looseFist = 21%nat /\
  GestureRecognizer.dist (lm looseFist 8) wrist
    < GestureRecognizer.dist (lm looseFist 5) wrist * (13 / 10) /\
  GestureRecognizer.dist (lm looseFist 12) wrist
    < GestureRecognizer.dist (lm looseFist 9) wrist * (13 / 10) /\
  GestureRecognizer.dist (lm looseFist 16) wrist
    < GestureRecognizer.dist (lm looseFist 13) wrist * (13 / 10) /\
  GestureRecognizer.dist (lm looseFist 20) wrist
    < GestureRecognizer.dist (lm looseFist 17) wrist * (13 / 10) /\
  GestureRecognizer.dist (lm looseFist 4) wrist
    < GestureRecognizer.dist (lm looseFist 2) wrist * (14 / 10) /\
  gestureOf (GestureRecognizer.constructor None) looseFist = Some PINCH /\
  gestureOf (GestureRecognizer.constructor None) looseFist <> Some CLOSED.
Proof.
  assert (Hg : gestureOf (GestureRecognizer.constructor None) looseFist = Some PINCH).
  { unfold looseFist. classify_axis. }
  cbv zeta. rewrite Hg.
  unfold looseFist, axisHand, lm. cbn [nth length]. rewrite !dist_axis.
  repeat (split; [first [reflexivity | js_real] |]).
  discriminate.
Qed.

(** C4, as amended.  For a 21-landmark hand whose four fingertips are
    within curl distance of the wrist (factor 1.3) and whose thumb tip
    is within curl distance (factor 1.4), the label is CLOSED provided
    the pinch test does not hold, that is, unless the thumb tip is
    within the pinch threshold of the index tip while middle, ring and
    pinky tips are beyond 1.1 times their knuckle distance. *)
Theorem fist_without_pinch_is_CLOSED (r : GestureRecognizer.t) (h : Hand) :
  length h = 21%nat ->
  let wrist := lm h 0 in
  let dist := GestureRecognizer.dist in
  dist (lm h 8) wrist < dist (lm h 5) wrist * (13 / 10) ->
  dist (lm h 12) wrist < dist (lm h 9) wrist * (13 / 10) ->
  dist (lm h 16) wrist < dist (lm h 13) wrist * (13 / 10) ->
  dist (lm h 20) wrist < dist (lm h 17) wrist * (13 / 10) ->
  dist (lm h 4) wrist < dist (lm h 2) wrist * (14 / 10) ->
  ~ (dist (lm h 4) (lm h 8) < GestureRecognizer.pinchThreshold r /\
     dist (lm h 9) wrist * (11 / 10) < dist (lm h 12) wrist /\
     dist (lm h 13) wrist * (11 / 10) < dist (lm h 16) wrist /\
     dist (lm h 17) wrist * (11 / 10) < dist (lm h 20) wrist) ->
  gestureOf r h = Some CLOSED.
Proof.
  intros Hlen wrist dist Hi Hm Hr Hp Ht Hnp. subst wrist dist.
  unfold gestureOf. rewrite analyzeHand_21 by assumption.
  cbn [option_map fst GestureRecognizer.gesture]. f_equal.
  unfold GestureRecognizer.pose, GestureRecognizer.label.
  cbn [GestureRecognizer.p_isPinching GestureRecognizer.p_isThumbsUp
       GestureRecognizer.p_victoryCondition GestureRecognizer.p_isFist
       GestureRecognizer.p_isOpen].
  rewrite (lt_true _ _ Hi), (lt_true _ _ Hm), (lt_true _ _ Hr), (lt_true _ _ Hp),
    (lt_true _ _ Ht).
  match goal with
  | |- (if ?pinching then _ else _) = _ =>
      assert (Hpinch : pinching = false)
  end.
  { apply not_true_is_false. intros E.
    apply andb_true_iff in E. destruct E as [E1 E].
    apply andb_true_iff in E. destruct E as [E E4].
    apply andb_true_iff in E. destruct E as [E2 E3].
    apply Hnp. rewrite lt_spec in E1. rewrite gt_spec in E2, E3, E4. tauto. }
  rewrite Hpinch.
  rewrite (gt_false (GestureRecognizer.dist (lm h 4) (lm h 0))
                    (GestureRecognizer.dist (lm h 2) (lm h 0) * (15 / 10)))
    by (pose proof (dist_nonneg (lm h 2) (lm h 0)); lra).
  rewrite andb_false_r. reflexivity.
Qed.

Lemma fistHand_CLOSED r :
  GestureRecognizer.pinchThreshold r = 5 / 100 -> gestureOf r fistHand = Some CLOSED.
Proof. intros Hthr. unfold fistHand. classify_axis. Qed.

Lemma fist_without_pinch_is_CLOSED_witness :
  gestureOf (GestureRecognizer.constructor None) fistHand = Some CLOSED.
Proof.
  apply (fist_without_pinch_is_CLOSED (GestureRecognizer.constructor None) fistHand);
    [reflexivity | ..];
    unfold fistHand, axisHand, lm; cbn [nth]; rewrite !dist_axis; js_real.
Defined.

(** ** C5: scaling a pinch *)

Lemma scaleHand_axisHand (k a b c d e f g : R) :
  scaleHand k (axisHand a b c d e f g)
  = axisHand (a * k) (b * k) (c * k) (d * k) (e * k) (f * k) (g * k).
Proof.
  unfold scaleHand, axisHand, Vec3.multiplyScalar. cbn [map Vec3.x Vec3.y Vec3.z].
  rewrite !Rmult_0_l. reflexivity.
Qed.

(** C5 as stated fails: [pinchSample] is labelled PINCH with the default
    threshold, and the same hand scaled by 2 is not (its thumb and index
    tips are then 0.08 apart, over the 0.05 threshold). *)
Lemma pinch_lost_by_scaling :
  gestureOf (GestureRecognizer.constructor None) pinchSample = Some PINCH /\
  0 < 2 /\
  gestureOf (GestureRecognizer.constructor None) (scaleHand 2 pinchSample) = Some OPEN_PALM /\
  gestureOf (GestureRecognizer.constructor None) (scaleHand 2 pinchSample) <> Some PINCH.
Proof.
  assert (H1 : gestureOf (GestureRecognizer.constructor None) pinchSample = Some PINCH).
  { unfold pinchSample. classify_axis. }
  assert (H2 : gestureOf (GestureRecognizer.constructor None) (scaleHand 2 pinchSample)
               = Some OPEN_PALM).
  { unfold pinchSample. rewrite scaleHand_axisHand. classify_axis. }
  repeat split; [exact H1 | lra | exact H2 |].
  rewrite H2. discriminate.
Qed.

(** The pinch test of a hand labelled PINCH, spelled out. *)
Lemma PINCH_inv (r : GestureRecognizer.t) (h : Hand) :
  length h = 21%nat ->
  gestureOf r h = Some PINCH ->
  GestureRecognizer.dist (lm h 4) (lm h 8) < GestureRecognizer.pinchThreshold r /\
  GestureRecognizer.dist (lm h 9) (lm h 0) * (11 / 10)
    < GestureRecognizer.dist (lm h 12) (lm h 0) /\
  GestureRecognizer.dist (lm h 13) (lm h 0) * (11 / 10)
    < GestureRecognizer.dist (lm h 16) (lm h 0) /\
  GestureRecognizer.dist (lm h 17) (lm h 0) * (11 / 10)
    < GestureRecognizer.dist (lm h 20) (lm h 0).
Proof.
  intros Hlen Hpinch. unfold gestureOf in Hpinch.
  rewrite analyzeHand_21 in Hpinch by assumption.
  cbn [option_map fst GestureRecognizer.gesture] in Hpinch.
  injection Hpinch as Hpinch. apply label_PINCH in Hpinch.
  unfold GestureRecognizer.pose in Hpinch. cbn [GestureRecognizer.p_isPinching] in Hpinch.
  apply andb_true_iff in Hpinch. destruct Hpinch as [E1 E].
  apply andb_true_iff in E. destruct E as [E E4].
  apply andb_true_iff in E. destruct E as [E2 E3].
  rewrite lt_spec in E1. rewrite gt_spec in E2, E3, E4. tauto.
Qed.

(** C5, as amended.  With numbers taken as exact reals, as everywhere
    in this model, a 21-landmark hand labelled PINCH stays PINCH when
    all its coordinates are multiplied by a positive factor [k] that is
    at most 1 or, more generally, for which the scaled thumb-to-index
    distance is still below the pinch threshold.  The roundings of
    binary64 are outside the model: in the code a finger-extension test
    that holds within one rounding error of its factor 1.1 can change
    under scaling. *)
Theorem pinch_scaling_below_threshold (r : GestureRecognizer.t) (h : Hand) (k : R) :
  length h = 21%nat ->
  0 < k ->
  gestureOf r h = Some PINCH ->
  k <= 1 \/
  k * GestureRecognizer.dist (lm h 4) (lm h 8) < GestureRecognizer.pinchThreshold r ->
  gestureOf r (scaleHand k h) = Some PINCH.
Proof.
  intros Hlen Hk Hpinch Hthr.
  destruct (PINCH_inv r h Hlen Hpinch) as (E1 & E2 & E3 & E4).
  assert (Hclose : k * GestureRecognizer.dist (lm h 4) (lm h 8)
                   < GestureRecognizer.pinchThreshold r).
  { destruct Hthr as [Hle | Hlt]; [| exact Hlt].
    pose proof (dist_nonneg (lm h 4) (lm h 8)). nra. }
  unfold gestureOf.
  rewrite analyzeHand_21 by (rewrite length_scaleHand; assumption).
  cbn [option_map fst GestureRecognizer.gesture].
  f_equal. apply label_PINCH.
  rewrite !lm_scaleHand by (rewrite Hlen; lia).
  unfold GestureRecognizer.pose.
  cbn [GestureRecognizer.p_isPinching].
  rewrite !dist_scale by lra.
  rewrite (lt_true _ _ Hclose).
  rewrite !gt_true by nra. reflexivity.
Qed.

Lemma pinch_scaling_below_threshold_witness :
  gestureOf (GestureRecognizer.constructor None) (scaleHand (/ 2) pinchSample) = Some PINCH.
Proof.
  assert (H1 : gestureOf (GestureRecognizer.constructor None) pinchSample = Some PINCH).
  { unfold pinchSample. classify_axis. }
  apply (pinch_scaling_below_threshold (GestureRecognizer.constructor None) pinchSample (/ 2)).
  - reflexivity.
  - lra.
  - exact H1.
  - left. lra.
Defined.

(** ** C10: one position buffer for every hand *)

Lemma push_bounded_last {A} (n : nat) (b : list A) (a : A) :
  (1 <= n)%nat -> exists pre, JS.push_bounded n b a = pre ++ [a].
Proof.
  intros Hn. unfold JS.push_bounded.
  destruct (n <? length (b ++ [a]))%nat eqn:E; [| now exists b].
  destruct b as [|b0 b]; simpl in *.
  - apply Nat.ltb_lt in E. lia.
  - now exists b.
Qed.

Lemma push_bounded_keeps_previous {A} (n : nat) (b : list A) (a c : A) :
  (2 <= n)%nat -> In a (JS.push_bounded n (JS.push_bounded n b a) c).
Proof.
  intros Hn. destruct (push_bounded_last n b a) as [pre Hpre]; [lia |].
  rewrite Hpre. unfold JS.push_bounded.
  destruct (n <? length ((pre ++ [a]) ++ [c]))%nat eqn:E.
  - destruct pre as [|p0 pre]; simpl in *.
    + apply Nat.ltb_lt in E. lia.
    + rewrite <- app_assoc. apply in_or_app. right. now left.
  - rewrite <- app_assoc. apply in_or_app. right. now left.
Qed.

(** The running sum of the code, as the sum of the list. *)
Lemma sum_of_fold_right (f : Vec3.t -> R) (l : list Vec3.t) :
  forall acc,
    fold_left (fun sum p => sum + f p) l acc = acc + fold_right Rplus 0 (map f l).
Proof.
  induction l as [|p l IH]; intros acc; simpl; [lra |].
  rewrite IH. lra.
Qed.

Lemma sum_of_two_more (f : Vec3.t -> R) (pre : list Vec3.t) (m1 m2 : Vec3.t) :
  GestureRecognizer.sum_of f (pre ++ [m1; m2]) / INR (length (pre ++ [m1; m2]))
  = (fold_right Rplus 0 (map f pre) + f m1 + f m2) / (INR (length pre) + 2).
Proof.
  assert (Hsum : GestureRecognizer.sum_of f (pre ++ [m1; m2])
                 = fold_right Rplus 0 (map f pre) + f m1 + f m2).
  { unfold GestureRecognizer.sum_of. rewrite sum_of_fold_right, Rplus_0_l.
    induction pre as [|p pre IH]; simpl; [lra |]. rewrite IH. lra. }
  assert (Hlen : INR (length (pre ++ [m1; m2])) = INR (length pre) + 2).
  { rewrite length_app, plus_INR. simpl. lra. }
  rewrite Hsum, Hlen. reflexivity.
Qed.

(** Two pushes on the bounded buffer: the two new points are its last
    two, after what is left of the old ones. *)
Lemma push_bounded_twice {A} (b : list A) (m1 m2 : A) :
  exists pre,
    JS.push_bounded 5 (JS.push_bounded 5 b m1) m2 = pre ++ [m1; m2] /\
    ((length b <= 5)%nat -> pre = skipn (length b - 3) b).
Proof.
  destruct (le_lt_dec (length b) 5) as [Hle | Hgt].
  - exists (skipn (length b - 3) b). split; [| reflexivity].
    destruct b as [|b0 [|b1 [|b2 [|b3 [|b4 [|b5 rest]]]]]];
      try reflexivity. simpl in Hle. lia.
  - exists (tl (tl b)). split; [| lia].
    unfold JS.push_bounded.
    destruct b as [|b0 [|b1 b]]; simpl in Hgt; try lia.
    assert (E1 : (5 <? length ((b0 :: b1 :: b) ++ [m1]))%nat = true)
      by (apply Nat.ltb_lt; rewrite length_app; simpl; lia).
    rewrite E1. cbn [app tl].
    assert (E2 : (5 <? length (b1 :: (b ++ [m1]) ++ [m2]))%nat = true)
      by (apply Nat.ltb_lt; simpl; rewrite !length_app; simpl; lia).
    rewrite E2. rewrite <- app_assoc. reflexivity.
Qed.

(** C10. Whatever the two hands show, [analyzeHand] pushes the raw
    pinch midpoint of each, (thumb tip + index tip) / 2 in every
    coordinate, on the one position buffer of the instance.  After a
    frame with two 21-landmark hands the buffer ends with the midpoint
    of the first hand followed by that of the second, behind the old
    points that are left ([pre]: the last three of them at most, all
    of them when they were three or fewer), and each coordinate of the
    pinch centre returned for the second hand is the arithmetic mean
    over that buffer: the sum of the old points' coordinates plus the
    first hand's midpoint plus the second hand's midpoint, divided by
    their number.  So the first hand's thumb and index tips enter the
    second hand's pinch centre. *)
Theorem position_buffer_is_shared (r : GestureRecognizer.t) (h1 h2 : Hand) :
  length h1 = 21%nat -> length h2 = 21%nat ->
  let mid := fun h : Hand =>
    Vec3.mk ((Vec3.x (lm h 4) + Vec3.x (lm h 8)) / 2)
            ((Vec3.y (lm h 4) + Vec3.y (lm h 8)) / 2)
            ((Vec3.z (lm h 4) + Vec3.z (lm h 8)) / 2) in
  let total := fun (f : Vec3.t -> R) (l : list Vec3.t) => fold_right Rplus 0 (map f l) in
  exists a1 a2 r2 pre,
    GestureRecognizer.analyzeHands r [h1; h2] = Some ([a1; a2], r2) /\
    GestureRecognizer.positionBuffer r2 = pre ++ [mid h1; mid h2] /\
    ((length (GestureRecognizer.positionBuffer r) <= 5)%nat ->
     pre = skipn (length (GestureRecognizer.positionBuffer r) - 3)
                 (GestureRecognizer.positionBuffer r)) /\
    Vec3.x (GestureRecognizer.pinchCenter a2)
    = (total Vec3.x pre
       + (Vec3.x (lm h1 4) + Vec3.x (lm h1 8)) / 2
       + (Vec3.x (lm h2 4) + Vec3.x (lm h2 8)) / 2) / (INR (length pre) + 2) /\
    Vec3.y (GestureRecognizer.pinchCenter a2)
    = (total Vec3.y pre
       + (Vec3.y (lm h1 4) + Vec3.y (lm h1 8)) / 2
       + (Vec3.y (lm h2 4) + Vec3.y (lm h2 8)) / 2) / (INR (length pre) + 2) /\
    Vec3.z (GestureRecognizer.pinchCenter a2)
    = (total Vec3.z pre
       + (Vec3.z (lm h1 4) + Vec3.z (lm h1 8)) / 2
       + (Vec3.z (lm h2 4) + Vec3.z (lm h2 8)) / 2) / (INR (length pre) + 2).
Proof.
  intros H1 H2 mid total.
  unfold GestureRecognizer.analyzeHands.
  rewrite (analyzeHand_21 r h1 H1). cbv zeta. cbn [JS.bind snd fst].
  rewrite analyzeHand_21 by assumption. cbv zeta. cbn [JS.bind snd fst].
  cbn [GestureRecognizer.positionBuffer].
  unfold GestureRecognizer.positionBufferSize.
  destruct (push_bounded_twice (GestureRecognizer.positionBuffer r)
              (GestureRecognizer.rawPinchCenter (lm h1 4) (lm h1 8))
              (GestureRecognizer.rawPinchCenter (lm h2 4) (lm h2 8)))
    as (pre & Hbuf & Hpre).
  rewrite Hbuf.
  do 3 eexists. exists pre. split; [reflexivity |].
  cbn [GestureRecognizer.positionBuffer GestureRecognizer.pinchCenter].
  split; [reflexivity |]. split; [exact Hpre |].
  unfold GestureRecognizer.average. cbn [Vec3.x Vec3.y Vec3.z].
  rewrite !sum_of_two_more. unfold total, GestureRecognizer.rawPinchCenter.
  cbn [Vec3.x Vec3.y Vec3.z]. repeat split; reflexivity.
Qed.

Lemma palmHand_OPEN r :
  GestureRecognizer.pinchThreshold r = 5 / 100 -> gestureOf r palmHand = Some OPEN_PALM.
Proof. intros Hthr. unfold palmHand. classify_axis. Qed.

Lemma position_buffer_is_shared_witness :
  exists a1 a2 r2,
    GestureRecognizer.analyzeHands (GestureRecognizer.constructor None) [fistHand; palmHand]
      = Some ([a1; a2], r2) /\
    GestureRecognizer.positionBuffer r2
    = [Vec3.mk (5 / 10) 0 0; Vec3.mk (9 / 10) 0 0] /\
    Vec3.x (GestureRecognizer.pinchCenter a2) = 7 / 10.
Proof.
  destruct (position_buffer_is_shared (GestureRecognizer.constructor None)
              fistHand palmHand eq_refl eq_refl)
    as (a1 & a2 & r2 & pre & H & Hbuf & Hpre & Hx & _).
  exists a1, a2, r2. split; [exact H |].
  rewrite (Hpre (Nat.le_0_l 5)) in Hbuf, Hx.
  split.
  - rewrite Hbuf. unfold lm, fistHand, palmHand. simpl.
    replace ((5 / 10 + 5 / 10) / 2) with (5 / 10) by lra.
    replace ((8 / 10 + 1) / 2) with (9 / 10) by lra.
    replace ((0 + 0) / 2) with 0 by lra. reflexivity.
  - rewrite Hx. unfold lm, fistHand, palmHand. simpl. lra.
Defined.

(** In a first frame showing a fist and a palm, the pinch centre
    returned for the palm is not the midpoint of its own thumb and index
    tips (abscissa 0.9) but its mean with the midpoint of the fist
    (abscissa 0.7). *)
Example second_hand_center_is_mixed :
  exists a1 a2 r2,
    GestureRecognizer.analyzeHands (GestureRecognizer.constructor None) [fistHand; palmHand]
      = Some ([a1; a2], r2) /\
    Vec3.x (GestureRecognizer.pinchCenter a2) = 7 / 10 /\
    Vec3.x (GestureRecognizer.rawPinchCenter (lm palmHand 4) (lm palmHand 8)) = 9 / 10.
Proof.
  unfold GestureRecognizer.analyzeHands.
  rewrite (analyzeHand_21 _ fistHand eq_refl). cbv zeta. cbn [JS.bind snd fst].
  rewrite (analyzeHand_21 _ palmHand eq_refl). cbv zeta. cbn [JS.bind snd fst].
  do 3 eexists. split; [reflexivity |].
  unfold GestureRecognizer.average, GestureRecognizer.sum_of.
  simpl. split; lra.
Qed.

(** ** C8: the two-hand zoom *)

(** The cursor update touches the cursor only. *)
Lemma updateCursorFromHand_keeps (ray : RayResult) (w : VoxelWorld.t) :
  let w' := snd (VoxelWorld.updateCursorFromHand ray w) in
  VoxelWorld.voxels w' = VoxelWorld.voxels w /\
  VoxelWorld.history w' = VoxelWorld.history w /\
  VoxelWorld.camera_position_z w' = VoxelWorld.camera_position_z w /\
  VoxelWorld.scene_rotation w' = VoxelWorld.scene_rotation w.
Proof. destruct ray; simpl; auto. Qed.

(** [analyzeHand] reads landmark 8 and writes only the position
    buffer. *)
Lemma analyzeHand_inv (r r' : GestureRecognizer.t) (h : Hand)
    (a : GestureRecognizer.HandAnalysis) :
  GestureRecognizer.analyzeHand r h = Some (a, r') ->
  (exists p, at_index h 8 = Some p) /\
  GestureRecognizer.history r' = GestureRecognizer.history r /\
  GestureRecognizer.pinchThreshold r' = GestureRecognizer.pinchThreshold r /\
  GestureRecognizer.gestureHistory r' = GestureRecognizer.gestureHistory r /\
  GestureRecognizer.lastStableGesture r' = GestureRecognizer.lastStableGesture r.
Proof.
  unfold GestureRecognizer.analyzeHand, JS.bind.
  repeat match goal with
         | |- match at_index h ?i with _ => _ end = _ -> _ =>
             destruct (at_index h i) eqn:?; [| discriminate]
         end.
  intros H. injection H as _ Hr. subst r'. simpl.
  repeat split; eauto.
Qed.

(** C8. In edit mode, for a frame with two hands that [analyzeHand]
    labels CLOSED and OPEN_PALM in either order, [update] returns
    ZOOM_OUT whatever its buffers hold and leaves the gesture history,
    the stable label and the swipe history untouched; the frame then
    only updates the cursor, sets the camera distance to
    min(20, distance + 0.2) and the state to ZOOMING.  For two CLOSED
    hands the same holds with ZOOM_IN and max(2, distance - 0.2). *)
Theorem two_hand_zoom
    (s : App.t) (h1 h2 : Hand) (a1 a2 : GestureRecognizer.HandAnalysis)
    (r1 r2 : GestureRecognizer.t) (now : Z) (ray : RayResult) :
  App.isPreviewMode s = false ->
  GestureRecognizer.analyzeHand (App.gestureRecognizer s) h1 = Some (a1, r1) ->
  GestureRecognizer.analyzeHand r1 h2 = Some (a2, r2) ->
  let g1 := GestureRecognizer.gesture a1 in
  let g2 := GestureRecognizer.gesture a2 in
  let w0 := snd (VoxelWorld.updateCursorFromHand ray (App.world s)) in
  let distance := VoxelWorld.camera_position_z (App.world s) in
  let zoomed := fun d =>
    App.mk (VoxelWorld.with_camera_z w0 d) r2 (App.lastGesture s) false
           (App.lastPoint s) (App.lastClosedTime s) (App.pinchStartTime s)
           (App.undoStartTime s) ZOOMING (App.blockPlacedThisPinch s) in
  (GestureRecognizer.gestureHistory r2
     = GestureRecognizer.gestureHistory (App.gestureRecognizer s) /\
   GestureRecognizer.lastStableGesture r2
     = GestureRecognizer.lastStableGesture (App.gestureRecognizer s) /\
   GestureRecognizer.history r2 = GestureRecognizer.history (App.gestureRecognizer s))
  /\
  ((g1 = CLOSED /\ g2 = OPEN_PALM) \/ (g1 = OPEN_PALM /\ g2 = CLOSED) ->
   GestureRecognizer.update (App.gestureRecognizer s) (Some [h1; h2])
     = Some (GestureRecognizer.mkResult ZOOM_OUT None (Some [a1; a2]), r2) /\
   App.frame [h1; h2] now ray s = Some (zoomed (Rmin 20 (distance + 2 / 10))))
  /\
  (g1 = CLOSED /\ g2 = CLOSED ->
   GestureRecognizer.update (App.gestureRecognizer s) (Some [h1; h2])
     = Some (GestureRecognizer.mkResult ZOOM_IN None (Some [a1; a2]), r2) /\
   App.frame [h1; h2] now ray s = Some (zoomed (Rmax 2 (distance - 2 / 10)))).
Proof.
  intros Hedit H1 H2 g1 g2 w0 distance zoomed.
  destruct (analyzeHand_inv _ _ _ _ H1) as ([p Hp] & Hh1 & _ & Hg1 & Hs1).
  destruct (analyzeHand_inv _ _ _ _ H2) as (_ & Hh2 & _ & Hg2 & Hs2).
  split; [repeat split; congruence |].
  assert (Hhands : GestureRecognizer.analyzeHands (App.gestureRecognizer s) [h1; h2]
                   = Some ([a1; a2], r2)).
  { simpl. rewrite H1. simpl. rewrite H2. reflexivity. }
  assert (Hframe : forall zoom,
    GestureRecognizer.twoHandGesture [a1; a2] = Some zoom ->
    GestureRecognizer.update (App.gestureRecognizer s) (Some [h1; h2])
      = Some (GestureRecognizer.mkResult zoom None (Some [a1; a2]), r2) /\
    App.frame [h1; h2] now ray s
      = App.handleInteraction zoom None (Some h1) now ray (App.with_recognizer s r2)).
  { intros zoom Hz.
    assert (Hu : GestureRecognizer.update (App.gestureRecognizer s) (Some [h1; h2])
                 = Some (GestureRecognizer.mkResult zoom None (Some [a1; a2]), r2)).
    { unfold GestureRecognizer.update. rewrite Hhands. cbn [JS.bind fst snd].
      now rewrite Hz. }
    split; [exact Hu |].
    unfold App.frame. rewrite Hu. cbn [JS.bind fst snd].
    cbn [App.with_recognizer App.isPreviewMode]. now rewrite Hedit. }
  assert (Hpointer : App.pointer None (Some h1) = Some (Vec3.x p, Vec3.y p)).
  { unfold App.pointer. now rewrite Hp. }
  split.
  - intros Hout.
    assert (Hz : GestureRecognizer.twoHandGesture [a1; a2] = Some ZOOM_OUT).
    { unfold GestureRecognizer.twoHandGesture. fold g1 g2.
      destruct Hout as [[-> ->] | [-> ->]]; reflexivity. }
    destruct (Hframe _ Hz) as [Hu Hf]. split; [exact Hu |].
    rewrite Hf. unfold App.handleInteraction. rewrite Hpointer.
    cbn [JS.bind]. subst zoomed. cbv beta.
    unfold App.with_state, App.with_world, App.with_recognizer. simpl.
    rewrite Hedit.
    destruct (updateCursorFromHand_keeps ray (App.world s)) as (_ & _ & -> & _).
    reflexivity.
  - intros [Hc1 Hc2].
    assert (Hz : GestureRecognizer.twoHandGesture [a1; a2] = Some ZOOM_IN).
    { unfold GestureRecognizer.twoHandGesture. fold g1 g2.
      rewrite Hc1, Hc2. reflexivity. }
    destruct (Hframe _ Hz) as [Hu Hf]. split; [exact Hu |].
    rewrite Hf. unfold App.handleInteraction. rewrite Hpointer.
    cbn [JS.bind]. subst zoomed. cbv beta.
    unfold App.with_state, App.with_world, App.with_recognizer. simpl.
    rewrite Hedit.
    destruct (updateCursorFromHand_keeps ray (App.world s)) as (_ & _ & -> & _).
    reflexivity.
Qed.

Lemma two_hand_zoom_witness :
  (exists s',
     App.frame [fistHand; palmHand] 0 NoHit (App.init None) = Some s' /\
     App.interactionState s' = ZOOMING /\
     VoxelWorld.camera_position_z (App.world s') = Rmin 20 (8 + 2 / 10))
  /\
  (exists s',
     App.frame [fistHand; fistHand] 0 NoHit (App.init None) = Some s' /\
     App.interactionState s' = ZOOMING /\
     VoxelWorld.camera_position_z (App.world s') = Rmax 2 (8 - 2 / 10)).
Proof.
  pose (r0 := GestureRecognizer.constructor None).
  assert (Hthr : GestureRecognizer.pinchThreshold r0 = 5 / 100).
  { unfold r0, GestureRecognizer.constructor, JS.or_default. reflexivity. }
  destruct (GestureRecognizer.analyzeHand r0 fistHand) as [[a1 r1] |] eqn:E1;
    [| rewrite analyzeHand_21 in E1 by reflexivity; discriminate E1].
  assert (G1 : GestureRecognizer.gesture a1 = CLOSED).
  { pose proof (fistHand_CLOSED r0 Hthr) as H. unfold gestureOf in H.
    rewrite E1 in H. simpl in H. congruence. }
  assert (Hthr1 : GestureRecognizer.pinchThreshold r1 = 5 / 100).
  { destruct (analyzeHand_inv _ _ _ _ E1) as (_ & _ & H & _). congruence. }
  split.
  - destruct (GestureRecognizer.analyzeHand r1 palmHand) as [[a2 r2] |] eqn:E2;
      [| rewrite analyzeHand_21 in E2 by reflexivity; discriminate E2].
    assert (G2 : GestureRecognizer.gesture a2 = OPEN_PALM).
    { pose proof (palmHand_OPEN r1 Hthr1) as H. unfold gestureOf in H.
      rewrite E2 in H. simpl in H. congruence. }
    destruct (two_hand_zoom (App.init None) fistHand palmHand a1 a2 r1 r2 0 NoHit
                eq_refl E1 E2) as (_ & Hout & _).
    destruct (Hout (or_introl (conj G1 G2))) as [_ Hf].
    eexists. split; [exact Hf |]. split; reflexivity.
  - destruct (GestureRecognizer.analyzeHand r1 fistHand) as [[a2 r2] |] eqn:E2;
      [| rewrite analyzeHand_21 in E2 by reflexivity; discriminate E2].
    assert (G2 : GestureRecognizer.gesture a2 = CLOSED).
    { pose proof (fistHand_CLOSED r1 Hthr1) as H. unfold gestureOf in H.
      rewrite E2 in H. simpl in H. congruence. }
    destruct (two_hand_zoom (App.init None) fistHand fistHand a1 a2 r1 r2 0 NoHit
                eq_refl E1 E2) as (_ & _ & Hin).
    destruct (Hin (conj G1 G2)) as [_ Hf].
    eexists. split; [exact Hf |]. split; reflexivity.
Defined.

(** ** C3: the majority-vote stabiliser *)

Lemma Gesture_eqb_refl g : Gesture_eqb g g = true.
Proof. unfold Gesture_eqb. destruct (Gesture_eq_dec g g); congruence. Qed.

Lemma Gesture_eqb_neq a b : a <> b -> Gesture_eqb a b = false.
Proof. intros H. unfold Gesture_eqb. destruct (Gesture_eq_dec a b); congruence. Qed.

Lemma Gesture_eqb_eq a b : Gesture_eqb a b = true <-> a = b.
Proof. unfold Gesture_eqb. destruct (Gesture_eq_dec a b); split; congruence. Qed.

Lemma count_of_increment (x g : Gesture) (counts : list (Gesture * nat)) :
  GestureRecognizer.count_of (GestureRecognizer.increment x counts) g
  = (GestureRecognizer.count_of counts g + if Gesture_eq_dec x g then 1 else 0)%nat.
Proof.
  induction counts as [|[k c] counts IH]; simpl.
  - unfold Gesture_eqb. destruct (Gesture_eq_dec x g); reflexivity.
  - destruct (Gesture_eqb k x) eqn:Ekx; simpl;
      destruct (Gesture_eqb k g) eqn:Ekg;
      try apply Gesture_eqb_eq in Ekx; try apply Gesture_eqb_eq in Ekg;
      destruct (Gesture_eq_dec x g) as [Hxg | Hxg]; subst; try lia;
      try congruence;
      try rewrite IH;
      try (rewrite Gesture_eqb_refl in *; discriminate);
      try (destruct (Gesture_eq_dec g g); [lia | congruence]);
      try (destruct (Gesture_eq_dec x g); [congruence | lia]).
Qed.

(** The object [gestureCounts] holds the number of occurrences of every
    label of the buffer. *)
Lemma count_of_gestureCounts (buf : list Gesture) (g : Gesture) :
  GestureRecognizer.count_of (GestureRecognizer.gestureCounts buf) g = occurrences g buf.
Proof.
  unfold GestureRecognizer.gestureCounts, occurrences.
  assert (H : forall acc,
    GestureRecognizer.count_of
      (fold_left (fun counts x => GestureRecognizer.increment x counts) buf acc) g
    = (GestureRecognizer.count_of acc g + count_occ Gesture_eq_dec buf g)%nat).
  { induction buf as [|x buf IH]; intros acc; simpl; [lia |].
    rewrite IH, count_of_increment.
    destruct (Gesture_eq_dec x g); lia. }
  rewrite H. reflexivity.
Qed.

Lemma count_of_key (counts : list (Gesture * nat)) (g : Gesture) :
  GestureRecognizer.count_of counts g <> 0%nat -> In g (map fst counts).
Proof.
  induction counts as [|[k c] counts IH]; simpl; [congruence |].
  unfold Gesture_eqb. destruct (Gesture_eq_dec k g); auto.
Qed.

(** The [reduce] returns a key of greatest count. *)
Lemma reduce_greatest (f : Gesture -> nat) (ks : list Gesture) (k0 : Gesture) :
  let m := fold_left (fun a b => if (f b <? f a)%nat then a else b) ks k0 in
  forall k, In k (k0 :: ks) -> (f k <= f m)%nat.
Proof.
  revert k0. induction ks as [|b ks IH]; intros k0 m k Hin.
  - destruct Hin as [<- | []]. apply Nat.le_refl.
  - subst m. cbn [fold_left].
    destruct (f b <? f k0)%nat eqn:E.
    + apply Nat.ltb_lt in E.
      destruct Hin as [<- | [<- | Hin]].
      * apply IH. now left.
      * apply Nat.le_trans with (f k0); [lia |]. apply IH. now left.
      * apply IH. now right.
    + apply Nat.ltb_ge in E.
      destruct Hin as [<- | [<- | Hin]].
      * apply Nat.le_trans with (f b); [lia |]. apply IH. now left.
      * apply IH. now left.
      * apply IH. now right.
Qed.

Lemma occurrences_two (a b : Gesture) (buf : list Gesture) :
  a <> b -> (occurrences a buf + occurrences b buf <= length buf)%nat.
Proof.
  intros Hab. unfold occurrences. induction buf as [|x buf IH]; simpl; [lia |].
  destruct (Gesture_eq_dec x a), (Gesture_eq_dec x b); try lia. congruence.
Qed.

(** On a non-empty buffer the [reduce] returns a label, and it is the
    dominant one when there is one. *)
Lemma mostFrequent_dominant (buf : list Gesture) :
  buf <> [] ->
  exists m,
    GestureRecognizer.mostFrequent (GestureRecognizer.gestureCounts buf) = Some m /\
    forall g, dominant g buf -> m = g.
Proof.
  intros Hne. unfold GestureRecognizer.mostFrequent.
  set (counts := GestureRecognizer.gestureCounts buf).
  assert (Hlen : (0 < length buf)%nat) by (destruct buf; [congruence | simpl; lia]).
  destruct (map fst counts) as [|k0 ks] eqn:Hkeys.
  - exfalso. destruct buf as [|x buf]; [congruence |].
    assert (Hx : GestureRecognizer.count_of counts x <> 0%nat).
    { unfold counts. rewrite count_of_gestureCounts. unfold occurrences. simpl.
      destruct (Gesture_eq_dec x x); [lia | congruence]. }
    apply count_of_key in Hx. rewrite Hkeys in Hx. exact Hx.
  - eexists. split; [reflexivity |].
    intros g Hdom. unfold dominant in Hdom.
    set (m := fold_left _ ks k0).
    destruct (Gesture_eq_dec m g) as [| Hmg]; [assumption | exfalso].
    assert (Hg : In g (k0 :: ks)).
    { rewrite <- Hkeys. apply count_of_key. unfold counts.
      rewrite count_of_gestureCounts. lia. }
    pose proof (reduce_greatest (GestureRecognizer.count_of counts) ks k0 g Hg) as Hle.
    fold m in Hle. unfold counts in Hle. rewrite !count_of_gestureCounts in Hle.
    pose proof (occurrences_two m g buf Hmg) as Hsum. lia.
Qed.

(** The confidence test [count / length >= 0.6], in whole numbers. *)
Lemma confidence_test (c n : nat) :
  (0 < n)%nat ->
  JS.ge (INR c / INR n) GestureRecognizer.gestureConfidenceThreshold = true
  <-> (6 * n <= 10 * c)%nat.
Proof.
  intros Hn. unfold GestureRecognizer.gestureConfidenceThreshold, JS.ge.
  assert (Hpos : 0 < INR n) by (apply lt_0_INR; exact Hn).
  assert (Hc : INR c = INR c / INR n * INR n) by (field; lra).
  destruct (Rle_dec (6 / 10) (INR c / INR n)) as [Hle | Hgt]; split; intros H;
    try reflexivity; try discriminate.
  - apply INR_le. rewrite !mult_INR. simpl INR at 1 3.
    replace (INR 6) with 6 by (simpl; lra).
    replace (INR 10) with 10 by (simpl; lra). nra.
  - exfalso. apply Hgt. apply le_INR in H. rewrite !mult_INR in H.
    replace (INR 6) with 6 in H by (simpl; lra).
    replace (INR 10) with 10 in H by (simpl; lra).
    apply Rmult_le_reg_r with (INR n); [exact Hpos |]. rewrite <- Hc. lra.
Qed.

Lemma push_bounded_nonempty {A} (n : nat) (b : list A) (a : A) :
  (1 <= n)%nat -> JS.push_bounded n b a <> [].
Proof.
  intros Hn. destruct (push_bounded_last n b a Hn) as [pre ->].
  destruct pre; discriminate.
Qed.

(** One frame of the stabiliser: the buffer takes the label; the label
    emitted is the dominant one if there is one, else the previous
    stable label. *)
Lemma stabilize_spec (r : GestureRecognizer.t) (g : Gesture) :
  let buf := JS.push_bounded GestureRecognizer.gestureHistorySize
               (GestureRecognizer.gestureHistory r) g in
  exists st,
    GestureRecognizer.stabilize r g
    = Some (st, GestureRecognizer.mk (GestureRecognizer.history r)
                  (GestureRecognizer.pinchThreshold r) buf st
                  (GestureRecognizer.positionBuffer r)) /\
    (forall X, dominant X buf -> st = X) /\
    (st = GestureRecognizer.lastStableGesture r \/ dominant st buf).
Proof.
  intros buf.
  assert (Hne : buf <> []) by (apply push_bounded_nonempty; unfold GestureRecognizer.gestureHistorySize; lia).
  assert (Hlen : (0 < length buf)%nat) by (destruct buf; [congruence | simpl; lia]).
  destruct (mostFrequent_dominant buf Hne) as (m & Hm & Hdom).
  unfold GestureRecognizer.stabilize. fold buf. rewrite Hm. cbn [JS.bind].
  rewrite count_of_gestureCounts.
  destruct (JS.ge (INR (occurrences m buf) / INR (length buf))
                  GestureRecognizer.gestureConfidenceThreshold) eqn:E.
  - exists m. split; [reflexivity |]. split; [exact Hdom |].
    right. apply confidence_test in E; assumption.
  - exists (GestureRecognizer.lastStableGesture r). split; [reflexivity |].
    split; [| now left].
    intros X HX. exfalso.
    pose proof (Hdom X HX) as ->.
    apply (confidence_test (occurrences X buf) (length buf) Hlen) in HX. congruence.
Qed.

(** Feeding never fails, and the buffer only depends on the labels
    fed. *)
Lemma feed_spec (gs : list Gesture) :
  forall r, exists r',
    feed r gs = Some r' /\
    GestureRecognizer.gestureHistory r' = pushAll (GestureRecognizer.gestureHistory r) gs.
Proof.
  induction gs as [|g gs IH]; intros r; simpl.
  - now exists r.
  - destruct (stabilize_spec r g) as (st & Hst & _). rewrite Hst. cbn [JS.bind snd].
    destruct (IH (GestureRecognizer.mk (GestureRecognizer.history r)
                    (GestureRecognizer.pinchThreshold r)
                    (JS.push_bounded GestureRecognizer.gestureHistorySize
                       (GestureRecognizer.gestureHistory r) g) st
                    (GestureRecognizer.positionBuffer r))) as (r' & Hr' & Hbuf).
    exists r'. split; [exact Hr' | exact Hbuf].
Qed.

Lemma feed_app (l1 l2 : list Gesture) :
  forall r, feed r (l1 ++ l2) = (r' <- feed r l1 ;; feed r' l2).
Proof.
  induction l1 as [|g l1 IH]; intros r; simpl; [reflexivity |].
  destruct (GestureRecognizer.stabilize r g) as [[st r1] |]; simpl; auto.
Qed.

Lemma feed_last (r : GestureRecognizer.t) (gs : list Gesture) (g : Gesture) :
  exists r1 r2,
    feed r gs = Some r1 /\ feed r (gs ++ [g]) = Some r2 /\
    GestureRecognizer.gestureHistory r2
      = JS.push_bounded GestureRecognizer.gestureHistorySize
          (GestureRecognizer.gestureHistory r1) g /\
    settled r2 /\
    (GestureRecognizer.lastStableGesture r2 = GestureRecognizer.lastStableGesture r1
     \/ dominant (GestureRecognizer.lastStableGesture r2)
                 (GestureRecognizer.gestureHistory r2)).
Proof.
  destruct (feed_spec gs r) as (r1 & Hr1 & _).
  destruct (stabilize_spec r1 g) as (st & Hst & Hdom & Hkeep).
  exists r1. eexists. split; [exact Hr1 |].
  rewrite feed_app, Hr1. cbn [JS.bind feed]. rewrite Hst. cbn [JS.bind snd].
  split; [reflexivity |].
  cbn [GestureRecognizer.gestureHistory GestureRecognizer.lastStableGesture].
  split; [reflexivity |]. split; [exact Hdom | exact Hkeep].
Qed.

Lemma skipn_S_tl {A} (n : nat) :
  forall (l : list A) x rest, skipn n l = x :: rest -> skipn (S n) l = rest.
Proof.
  induction n as [|n IH]; intros l x rest H.
  - simpl in H. subst l. reflexivity.
  - destruct l as [|a l]; [discriminate |]. simpl in H. simpl. destruct l as [|b l].
    + destruct n; discriminate.
    + apply (IH (b :: l) x rest H).
Qed.

(** After at most ten labels on a buffer of at most ten, the buffer is
    a suffix of the old one followed by the labels, ten at most. *)
Lemma pushAll_structure (gs : list Gesture) :
  forall buf,
    (length buf <= 10)%nat -> (length gs <= 10)%nat ->
    exists n, pushAll buf gs = skipn n buf ++ gs /\
              (length (skipn n buf ++ gs) <= 10)%nat.
Proof.
  induction gs as [|g gs IH] using rev_ind; intros buf Hbuf Hgs.
  - exists 0%nat. simpl. rewrite app_nil_r. auto.
  - rewrite length_app in Hgs. simpl in Hgs.
    destruct (IH buf Hbuf) as (n & Hn & Hlen); [lia |].
    unfold pushAll in *. rewrite fold_left_app. cbn [fold_left]. rewrite Hn.
    unfold JS.push_bounded, GestureRecognizer.gestureHistorySize.
    destruct (10 <? length ((skipn n buf ++ gs) ++ [g]))%nat eqn:E.
    + apply Nat.ltb_lt in E. rewrite length_app in E. simpl in E.
      destruct (skipn n buf) as [|x rest] eqn:Hskip.
      * simpl in *. lia.
      * exists (S n). rewrite (skipn_S_tl n buf x rest Hskip).
        simpl. rewrite <- app_assoc. split; [reflexivity |].
        simpl in Hlen. rewrite !length_app in *. simpl. lia.
    + apply Nat.ltb_ge in E. exists n. rewrite <- app_assoc.
      split; [reflexivity |]. rewrite <- app_assoc in E. exact E.
Qed.

Lemma occurrences_app g l1 l2 :
  occurrences g (l1 ++ l2) = (occurrences g l1 + occurrences g l2)%nat.
Proof. apply count_occ_app. Qed.

Lemma occurrences_le g l : (occurrences g l <= length l)%nat.
Proof. apply count_occ_bound. Qed.

Lemma occurrences_repeat g n : occurrences g (repeat g n) = n.
Proof.
  unfold occurrences. induction n as [|n IH]; simpl; [reflexivity |].
  destruct (Gesture_eq_dec g g); [now rewrite IH | congruence].
Qed.

Lemma occurrences_repeat_other g x n : x <> g -> occurrences g (repeat x n) = 0%nat.
Proof.
  intros H. unfold occurrences. induction n as [|n IH]; simpl; [reflexivity |].
  destruct (Gesture_eq_dec x g); [congruence | exact IH].
Qed.

(** A label other than the one pushed does not gain share. *)
Lemma dominant_before_push (X g : Gesture) (buf : list Gesture) :
  X <> g -> (length buf <= 10)%nat ->
  dominant X (JS.push_bounded GestureRecognizer.gestureHistorySize buf g) ->
  dominant X buf.
Proof.
  intros HX Hlen. unfold dominant, JS.push_bounded, GestureRecognizer.gestureHistorySize.
  assert (Hg : occurrences X [g] = 0%nat).
  { unfold occurrences. cbn [count_occ]. destruct (Gesture_eq_dec g X); congruence. }
  destruct (10 <? length (buf ++ [g]))%nat eqn:E.
  - apply Nat.ltb_lt in E. rewrite length_app in E. cbn [length] in E.
    destruct buf as [|x rest]; [simpl in *; lia |].
    cbn [app tl length] in *.
    rewrite length_app, occurrences_app, Hg. cbn [length].
    unfold occurrences at 2. cbn [count_occ]. fold (occurrences X rest).
    destruct (Gesture_eq_dec x X); lia.
  - rewrite length_app, occurrences_app, Hg. simpl. lia.
Qed.

(** With five [A] in a buffer of at most ten, no other label reaches
    60%. *)
Lemma five_of_ten_not_dominant (A B : Gesture) (pre : list Gesture) (k : nat) :
  A <> B ->
  (length (pre ++ repeat A 5 ++ repeat B k) <= 10)%nat ->
  ~ dominant B (pre ++ repeat A 5 ++ repeat B k).
Proof.
  intros HAB Hlen. unfold dominant.
  rewrite !length_app, !repeat_length in *.
  rewrite !occurrences_app, occurrences_repeat, occurrences_repeat_other by assumption.
  pose proof (occurrences_le B pre). lia.
Qed.

(** In a frame with one hand and no swipe, [update] emits what the
    stabiliser emits for the raw label of that hand. *)
Lemma update_one_hand (r r1 : GestureRecognizer.t) (h : Hand)
    (a : GestureRecognizer.HandAnalysis) :
  GestureRecognizer.analyzeHand r h = Some (a, r1) ->
  let palms := JS.push_bounded GestureRecognizer.historySize
                 (GestureRecognizer.history r1) (GestureRecognizer.center a) in
  let r2 := GestureRecognizer.mk palms (GestureRecognizer.pinchThreshold r1)
              (GestureRecognizer.gestureHistory r1)
              (GestureRecognizer.lastStableGesture r1)
              (GestureRecognizer.positionBuffer r1) in
  GestureRecognizer.swipeOf palms (GestureRecognizer.gesture a) = None ->
  option_map (fun u => GestureRecognizer.r_gesture (fst u))
             (GestureRecognizer.update r (Some [h]))
  = option_map fst (GestureRecognizer.stabilize r2 (GestureRecognizer.gesture a)).
Proof.
  intros Ha palms r2 Hswipe.
  unfold GestureRecognizer.update. cbn [GestureRecognizer.analyzeHands].
  rewrite Ha. cbn [JS.bind fst snd GestureRecognizer.twoHandGesture at_index nth_error].
  fold palms. rewrite Hswipe. fold r2.
  destruct (GestureRecognizer.stabilize r2 (GestureRecognizer.gesture a)) as [[st r3] |];
    reflexivity.
Qed.

Lemma feed_history (r r' : GestureRecognizer.t) (gs : list Gesture) :
  feed r gs = Some r' ->
  GestureRecognizer.gestureHistory r' = pushAll (GestureRecognizer.gestureHistory r) gs.
Proof.
  intros H. destruct (feed_spec gs r) as (r1 & Hr1 & Hbuf). congruence.
Qed.

(** The gesture buffer never holds more than ten labels: it is empty
    in a new recognizer and a frame keeps the bound. *)
Lemma gestureHistory_bounded_new (personalizedPinch : option R) :
  (length (GestureRecognizer.gestureHistory
             (GestureRecognizer.constructor personalizedPinch)) <= 10)%nat.
Proof. simpl. lia. Qed.

Lemma gestureHistory_bounded_step (r r' : GestureRecognizer.t) (g st : Gesture) :
  (length (GestureRecognizer.gestureHistory r) <= 10)%nat ->
  GestureRecognizer.stabilize r g = Some (st, r') ->
  (length (GestureRecognizer.gestureHistory r') <= 10)%nat.
Proof.
  intros Hlen H. destruct (stabilize_spec r g) as (st' & Hst & _).
  rewrite Hst in H. injection H as _ <-.
  cbn [GestureRecognizer.gestureHistory].
  unfold JS.push_bounded, GestureRecognizer.gestureHistorySize.
  destruct (10 <? length (GestureRecognizer.gestureHistory r ++ [g]))%nat eqn:E.
  - destruct (GestureRecognizer.gestureHistory r) as [|x rest]; simpl in *; [lia |].
    rewrite length_app. simpl. lia.
  - apply Nat.ltb_ge in E. exact E.
Qed.

(** Five [A] then up to five [B]: the stable label does not move during
    the [B] frames, and [B] never reaches 60% of the buffer. *)
Lemma held_through_second_label (r : GestureRecognizer.t) (A B : Gesture) :
  (length (GestureRecognizer.gestureHistory r) <= 10)%nat ->
  A <> B ->
  forall k, (k <= 5)%nat ->
  exists r0 rk,
    feed r (repeat A 5) = Some r0 /\
    feed r (repeat A 5 ++ repeat B k) = Some rk /\
    GestureRecognizer.lastStableGesture rk = GestureRecognizer.lastStableGesture r0 /\
    settled rk /\
    (length (GestureRecognizer.gestureHistory rk) <= 10)%nat /\
    ~ dominant B (GestureRecognizer.gestureHistory rk).
Proof.
  intros Hlen HAB k.
  assert (Hshape : forall j rj, (j <= 5)%nat ->
            feed r (repeat A 5 ++ repeat B j) = Some rj ->
            (length (GestureRecognizer.gestureHistory rj) <= 10)%nat /\
            ~ dominant B (GestureRecognizer.gestureHistory rj)).
  { intros j rj Hj Hfeed. rewrite (feed_history _ _ _ Hfeed).
    destruct (pushAll_structure (repeat A 5 ++ repeat B j)
                (GestureRecognizer.gestureHistory r) Hlen) as (n & -> & Hn).
    { rewrite length_app, !repeat_length. lia. }
    split; [exact Hn |]. apply five_of_ten_not_dominant; assumption. }
  induction k as [|k IH]; intros Hk.
  - destruct (feed_last r (repeat A 4) A) as (r1 & r2 & _ & H2 & _ & Hset & _).
    change (repeat A 4 ++ [A]) with (repeat A 5) in H2.
    exists r2, r2. cbn [repeat]. rewrite app_nil_r.
    split; [exact H2 |]. split; [exact H2 |]. split; [reflexivity |].
    split; [exact Hset |].
    apply (Hshape 0%nat r2); [lia |]. cbn [repeat]. now rewrite app_nil_r.
  - destruct IH as (r0 & rk & H0 & Hk' & Hsame & Hset & Hlenk & _); [lia |].
    destruct (feed_last r (repeat A 5 ++ repeat B k) B)
      as (r1 & r2 & H1 & H2 & Hbuf & Hset2 & Hkeep).
    assert (r1 = rk) by congruence. subst r1.
    rewrite <- app_assoc, <- repeat_cons in H2.
    change (B :: repeat B k) with (repeat B (S k)) in H2.
    destruct (Hshape (S k) r2 Hk H2) as [Hlen2 HnotB].
    exists r0, r2. split; [exact H0 |]. split; [exact H2 |].
    split; [| split; [exact Hset2 | split; [exact Hlen2 | exact HnotB]]].
    rewrite <- Hsame.
    destruct Hkeep as [Hkeep | Hdom]; [exact Hkeep |].
    symmetry. apply Hset.
    apply dominant_before_push with (g := B).
    + intros Heq. rewrite Heq in Hdom. contradiction.
    + exact Hlenk.
    + rewrite <- Hbuf. exact Hdom.
Qed.

(** C3. On a recognizer whose gesture buffer holds at most 10 labels (as
    it always does), with capacity 10 and threshold 60%: after 10 frames
    of one raw label [A] the stable label is [A]; after 5 frames of [A]
    followed by up to 5 frames of another label [B], the label emitted
    at every [B] frame is the one that was stable after the [A] frames,
    and [B] holds less than 60% of the buffer; from an empty buffer
    that label is [A]. *)
Theorem majority_vote_stabilizer (r : GestureRecognizer.t) (A B : Gesture) :
  (length (GestureRecognizer.gestureHistory r) <= 10)%nat ->
  A <> B ->
  stableAfter r (repeat A 10) = Some A
  /\
  (forall k, (k <= 5)%nat ->
     exists rk,
       feed r (repeat A 5 ++ repeat B k) = Some rk /\
       Some (GestureRecognizer.lastStableGesture rk) = stableAfter r (repeat A 5) /\
       ~ dominant B (GestureRecognizer.gestureHistory rk))
  /\
  (GestureRecognizer.gestureHistory r = [] ->
   forall k, (k <= 5)%nat -> stableAfter r (repeat A 5 ++ repeat B k) = Some A).
Proof.
  intros Hlen HAB.
  assert (Hpart2 : forall k, (k <= 5)%nat ->
     exists rk,
       feed r (repeat A 5 ++ repeat B k) = Some rk /\
       Some (GestureRecognizer.lastStableGesture rk) = stableAfter r (repeat A 5) /\
       ~ dominant B (GestureRecognizer.gestureHistory rk)).
  { intros k Hk.
    destruct (held_through_second_label r A B Hlen HAB k Hk)
      as (r0 & rk & H0 & Hfeed & Hsame & _ & _ & HnotB).
    exists rk. split; [exact Hfeed |]. split; [| exact HnotB].
    unfold stableAfter. rewrite H0. simpl. now rewrite Hsame. }
  split; [| split; [exact Hpart2 |]].
  - destruct (feed_last r (repeat A 9) A) as (r1 & r2 & _ & H2 & _ & Hset & _).
    change (repeat A 9 ++ [A]) with (repeat A 10) in H2.
    unfold stableAfter. rewrite H2. simpl. f_equal.
    apply Hset. rewrite (feed_history _ _ _ H2).
    destruct (pushAll_structure (repeat A 10) (GestureRecognizer.gestureHistory r) Hlen)
      as (n & -> & Hn); [rewrite repeat_length; lia |].
    rewrite length_app, repeat_length in Hn.
    assert (Hpre : skipn n (GestureRecognizer.gestureHistory r) = []).
    { destruct (skipn n (GestureRecognizer.gestureHistory r)); [reflexivity |].
      simpl in Hn. lia. }
    rewrite Hpre. cbn [app]. unfold dominant.
    rewrite occurrences_repeat, repeat_length. lia.
  - intros Hempty k Hk.
    destruct (Hpart2 k Hk) as (rk & Hfeed & Hsame & _).
    unfold stableAfter at 1. rewrite Hfeed. cbn [option_map]. rewrite Hsame.
    destruct (feed_last r (repeat A 4) A) as (r1 & r2 & _ & H2 & _ & Hset & _).
    change (repeat A 4 ++ [A]) with (repeat A 5) in H2.
    unfold stableAfter. rewrite H2. simpl. f_equal.
    apply Hset. rewrite (feed_history _ _ _ H2), Hempty.
    destruct (pushAll_structure (repeat A 5) [] ltac:(simpl; lia))
      as (n & -> & _); [rewrite repeat_length; lia |].
    rewrite skipn_nil. cbn [app]. unfold dominant.
    rewrite occurrences_repeat, repeat_length. lia.
Qed.

Lemma majority_vote_stabilizer_witness :
  stableAfter (GestureRecognizer.constructor None) (repeat PINCH 10) = Some PINCH /\
  stableAfter (GestureRecognizer.constructor None) (repeat PINCH 5 ++ repeat OPEN_PALM 5)
    = Some PINCH.
Proof.
  assert (Hlen : (length (GestureRecognizer.gestureHistory
                            (GestureRecognizer.constructor None)) <= 10)%nat)
    by (simpl; lia).
  assert (Hne : PINCH <> OPEN_PALM) by discriminate.
  destruct (majority_vote_stabilizer (GestureRecognizer.constructor None)
              PINCH OPEN_PALM Hlen Hne) as (H10 & _ & Hfresh).
  split; [exact H10 |].
  exact (Hfresh eq_refl 5%nat (Nat.le_refl 5)).
Defined.

(** * Further properties of the code *)

(** ** The voxel map and the undo log as data structures *)

Section MapKeys.
Variable V : Type.
Implicit Types (m : JSMap.t V) (k : Key) (v : V).

Lemma get_In_key m k v : JSMap.get m k = Some v -> In (k, v) m.
Proof.
  induction m as [|[k0 v0] m IH]; simpl; [discriminate |].
  destruct (Key_eqb k0 k) eqn:E.
  - intros H. injection H as <-. apply Key_eqb_true in E. subst. now left.
  - intros H. right. auto.
Qed.

Lemma get_None_keys m k : JSMap.get m k = None <-> ~ In k (map fst m).
Proof.
  induction m as [|[k0 v0] m IH]; simpl.
  - split; auto.
  - destruct (Key_eqb k0 k) eqn:E.
    + apply Key_eqb_true in E. subst. split; [discriminate | intros H; exfalso; auto].
    + rewrite IH. split.
      * intros H [H1 | H1]; [| auto]. subst. rewrite Key_eqb_refl in E. discriminate.
      * intros H H1. auto.
Qed.

Lemma keys_delete_incl m k k' :
  In k' (map fst (JSMap.delete m k)) -> In k' (map fst m).
Proof.
  induction m as [|[k0 v0] m IH]; simpl; auto.
  destruct (Key_eqb k0 k); simpl; intuition.
Qed.

Lemma NoDup_delete m k :
  NoDup (map fst m) -> NoDup (map fst (JSMap.delete m k)).
Proof.
  induction m as [|[k0 v0] m IH]; simpl; auto.
  intros H. inversion H; subst.
  destruct (Key_eqb k0 k); simpl; auto.
  constructor; auto. intros Hin. apply keys_delete_incl in Hin. auto.
Qed.

Lemma keys_set_incl m k v k' :
  In k' (map fst (JSMap.set m k v)) -> k' = k \/ In k' (map fst m).
Proof.
  induction m as [|[k0 v0] m IH]; simpl.
  - intros [H | []]. auto.
  - destruct (Key_eqb k0 k); simpl; intuition.
Qed.

Lemma NoDup_set m k v :
  NoDup (map fst m) -> NoDup (map fst (JSMap.set m k v)).
Proof.
  induction m as [|[k0 v0] m IH]; simpl.
  - intros _. constructor; [intros [] | constructor].
  - intros H. inversion H; subst.
    destruct (Key_eqb k0 k) eqn:E; simpl.
    + constructor; auto.
    + constructor; auto. intros Hin.
      apply keys_set_incl in Hin. destruct Hin as [-> | Hin]; auto.
      rewrite Key_eqb_refl in E. discriminate.
Qed.

(** In a map without repeated keys a deleted key is gone. *)
Lemma get_delete_same m k :
  NoDup (map fst m) -> JSMap.get (JSMap.delete m k) k = None.
Proof.
  induction m as [|[k0 v0] m IH]; simpl; auto.
  intros H. inversion H; subst.
  destruct (Key_eqb k0 k) eqn:E; simpl.
  - apply Key_eqb_true in E. subst. now apply get_None_keys.
  - rewrite E. auto.
Qed.

End MapKeys.

Lemma Forall_set_at {V} (P : Key * V -> Prop) (m : JSMap.t V) (k : Key) (v : V) :
  P (k, v) -> Forall P m -> Forall P (JSMap.set m k v).
Proof.
  intros Hv Hm. induction m as [|[k0 v0] m IH]; simpl.
  - constructor; auto.
  - inversion Hm; subst. destruct (Key_eqb k0 k) eqn:E; constructor; auto.
    apply Key_eqb_true in E. now subst.
Qed.

Lemma key_of_inj (p q : Vec3.t) : key_of p = key_of q -> p = q.
Proof. destruct p, q. unfold key_of. simpl. intros H. now injection H as -> -> ->. Qed.

Lemma wellKeyed_constructor : wellKeyed VoxelWorld.constructor.
Proof. repeat split; constructor. Qed.

Lemma wellKeyed_reset (w : VoxelWorld.t) : wellKeyed (VoxelWorld.reset w).
Proof. repeat split; constructor. Qed.

Lemma wellKeyed_updateCursorFromHand (ray : RayResult) (w : VoxelWorld.t) :
  wellKeyed w -> wellKeyed (snd (VoxelWorld.updateCursorFromHand ray w)).
Proof.
  unfold wellKeyed.
  destruct (updateCursorFromHand_keeps ray w) as (-> & -> & _). auto.
Qed.

Lemma wellKeyed_createVoxelAtCursor (w : VoxelWorld.t) :
  wellKeyed w -> wellKeyed (snd (VoxelWorld.createVoxelAtCursor w)).
Proof.
  intros (Hn & Hk & Hl). unfold VoxelWorld.createVoxelAtCursor.
  destruct (negb (VoxelWorld.cursorVisible w)); [repeat split; auto |].
  destruct (JSMap.has _ _); [repeat split; auto |].
  repeat split; simpl.
  - now apply NoDup_set.
  - apply Forall_set_at; auto.
  - apply Forall_app. split; auto.
Qed.

Lemma wellKeyed_removeVoxelAtCursor (w : VoxelWorld.t) :
  wellKeyed w -> wellKeyed (VoxelWorld.removeVoxelAtCursor w).
Proof.
  intros (Hn & Hk & Hl). unfold VoxelWorld.removeVoxelAtCursor.
  destruct (negb (VoxelWorld.cursorVisible w)); [repeat split; auto |].
  destruct (JSMap.get _ _); [| repeat split; auto].
  repeat split; simpl.
  - now apply NoDup_delete.
  - now apply Forall_delete.
  - apply Forall_app. split; auto.
Qed.

Lemma wellKeyed_undo (w : VoxelWorld.t) : wellKeyed w -> wellKeyed (VoxelWorld.undo w).
Proof.
  intros (Hn & Hk & Hl). unfold VoxelWorld.undo.
  destruct (VoxelWorld.pop (VoxelWorld.history w)) as [[h a]|] eqn:E;
    [| repeat split; auto].
  apply pop_inv in E. rewrite E in Hl. apply Forall_app in Hl.
  destruct Hl as [Hh Ha]. inversion Ha as [|? ? Hkey _]; subst.
  destruct (Action.type a).
  - destruct (JSMap.has _ _); repeat split; simpl; auto.
    + now apply NoDup_delete.
    + now apply Forall_delete.
  - repeat split; simpl; auto.
    + now apply NoDup_set.
    + apply Forall_set_at; auto.
Qed.

Lemma wellKeyed_loadEntries (items : list JSON.value) :
  forall (m m' : JSMap.t Mesh.t) (o : VoxelWorld.Outcome),
    NoDup (map fst m) ->
    Forall (fun entry => fst entry = key_of (Mesh.position (snd entry))) m ->
    VoxelWorld.loadEntries items m = Some (o, m') ->
    NoDup (map fst m') /\
    Forall (fun entry => fst entry = key_of (Mesh.position (snd entry))) m'.
Proof.
  induction items as [|v items IH]; simpl; intros m m' o Hn Hk H.
  - injection H as _ <-. auto.
  - destruct (VoxelWorld.entryOf v) as [x y z c| |]; [| | discriminate].
    + apply (IH _ _ _ (NoDup_set _ _ _ _ Hn)) in H; auto.
      apply Forall_set_at; auto.
    + injection H as _ <-. auto.
Qed.

Lemma wellKeyed_loadFromJSON (jsonString : string) (w w' : VoxelWorld.t)
    (o : VoxelWorld.Outcome) :
  wellKeyed w -> VoxelWorld.loadFromJSON jsonString w = Some (o, w') -> wellKeyed w'.
Proof.
  intros Hw. unfold VoxelWorld.loadFromJSON.
  destruct (JSON.parse jsonString) as [data|]; [| intros H; injection H as _ <-; auto].
  destruct data as [| | | | items |];
    try (intros H; injection H as _ <-; apply wellKeyed_reset).
  simpl.
  destruct (VoxelWorld.loadEntries items []) as [[o' m']|] eqn:E; simpl; [| discriminate].
  intros H. injection H as _ <-.
  apply wellKeyed_loadEntries in E; [| constructor | constructor].
  destruct E as [Hn Hk]. repeat split; simpl; auto.
Qed.

Lemma wellKeyed_oneVoxelWorld : wellKeyed oneVoxelWorld.
Proof.
  unfold wellKeyed, oneVoxelWorld; simpl.
  split; [| split].
  - constructor; [intros [] | constructor].
  - constructor; [reflexivity | constructor].
  - constructor; [reflexivity | constructor].
Qed.

(** The snapshot [sunkenText] loaded over a world that holds a voxel. *)
Lemma sunkenText_over_oneVoxelWorld :
  VoxelWorld.loadFromJSON sunkenText oneVoxelWorld
  = Some (VoxelWorld.Loaded,
          VoxelWorld.with_voxels (VoxelWorld.reset oneVoxelWorld)
            (VoxelWorld.voxels sunkenWorld) []).
Proof.
  unfold VoxelWorld.loadFromJSON. rewrite sunkenText_parses.
  cbn -[IZR powerRZ Z.sub].
  unfold VoxelWorld.with_voxels, VoxelWorld.reset, VoxelWorld.with_rotation. simpl.
  replace (5 * / (10 * 1)) with (/ 2) by lra.
  replace (- (15 * / (10 * 1))) with (- (3 / 2)) by lra.
  reflexivity.
Qed.

(** X1.  The voxel map stays a sound map and the log stays consistent
    with it: when no key occurs twice, every mesh is stored under the
    key of its own position and every log entry carries the key of its
    position, the same holds after [updateCursorFromHand],
    [createVoxelAtCursor], [removeVoxelAtCursor], [undo], [reset] and
    after every [loadFromJSON] the model follows: a text that is not
    JSON, JSON that is not an array, and an array whose entries, as
    far as they are read, are [null] or objects with numeric [x], [y],
    [z] and a colour that is a number, [null], [false] or absent.
    Entries of other shapes (a string colour, a coordinate that is not
    a number), which the code also loads, are outside the model: for
    them [VoxelWorld.loadFromJSON] answers [None] and nothing is
    stated. *)
Theorem world_stays_well_keyed (w : VoxelWorld.t) :
  wellKeyed w ->
  (forall ray, wellKeyed (snd (VoxelWorld.updateCursorFromHand ray w))) /\
  wellKeyed (snd (VoxelWorld.createVoxelAtCursor w)) /\
  wellKeyed (VoxelWorld.removeVoxelAtCursor w) /\
  wellKeyed (VoxelWorld.undo w) /\
  wellKeyed (VoxelWorld.reset w) /\
  (forall jsonString o w',
      VoxelWorld.loadFromJSON jsonString w = Some (o, w') -> wellKeyed w').
Proof.
  intros Hw.
  split; [| split; [| split; [| split; [| split]]]].
  - intros ray. now apply wellKeyed_updateCursorFromHand.
  - now apply wellKeyed_createVoxelAtCursor.
  - now apply wellKeyed_removeVoxelAtCursor.
  - now apply wellKeyed_undo.
  - apply wellKeyed_reset.
  - intros s o w' H. exact (wellKeyed_loadFromJSON s w w' o Hw H).
Qed.

Lemma world_stays_well_keyed_witness :
  wellKeyed oneVoxelWorld /\
  VoxelWorld.voxels (VoxelWorld.undo oneVoxelWorld) = [] /\
  wellKeyed (VoxelWorld.undo oneVoxelWorld) /\
  wellKeyed (VoxelWorld.removeVoxelAtCursor oneVoxelWorld) /\
  wellKeyed (snd (VoxelWorld.createVoxelAtCursor
                    (snd (VoxelWorld.updateCursorFromHand
                            (PlaneHit (Vec3.mk (1 / 4) 0 (3 / 4))) oneVoxelWorld)))) /\
  exists w',
    VoxelWorld.loadFromJSON sunkenText oneVoxelWorld = Some (VoxelWorld.Loaded, w') /\
    VoxelWorld.voxels w' = VoxelWorld.voxels sunkenWorld /\
    wellKeyed w'.
Proof.
  destruct (world_stays_well_keyed oneVoxelWorld wellKeyed_oneVoxelWorld)
    as (Haim & _ & Hremove & Hundo & _ & Hload).
  split; [exact wellKeyed_oneVoxelWorld |].
  split.
  { unfold VoxelWorld.undo, oneVoxelWorld, VoxelWorld.pop, JSMap.has. simpl.
    rewrite !Key_eqb_refl. simpl. rewrite ?Key_eqb_refl. reflexivity. }
  split; [exact Hundo |]. split; [exact Hremove |].
  split.
  { exact (proj1 (proj2 (world_stays_well_keyed _
             (Haim (PlaneHit (Vec3.mk (1 / 4) 0 (3 / 4))))))). }
  eexists. split; [exact sunkenText_over_oneVoxelWorld |].
  split; [reflexivity |].
  exact (Hload _ _ _ sunkenText_over_oneVoxelWorld).
Defined.

Lemma removeVoxelAtCursor_hit (w : VoxelWorld.t) (trash : Mesh.t) :
  VoxelWorld.cursorVisible w = true ->
  JSMap.get (VoxelWorld.voxels w) (key_of (VoxelWorld.cursor_position w)) = Some trash ->
  VoxelWorld.removeVoxelAtCursor w
  = VoxelWorld.with_voxels w
      (JSMap.delete (VoxelWorld.voxels w) (key_of (VoxelWorld.cursor_position w)))
      (VoxelWorld.history w
         ++ [Action.mk REMOVE (key_of (VoxelWorld.cursor_position w))
                       (VoxelWorld.cursor_position w) (Mesh.color trash)]).
Proof.
  intros Hv Hg. unfold VoxelWorld.removeVoxelAtCursor. now rewrite Hv, Hg.
Qed.

Lemma removeVoxelAtCursor_miss (w : VoxelWorld.t) :
  VoxelWorld.cursorVisible w = false \/
  JSMap.get (VoxelWorld.voxels w) (key_of (VoxelWorld.cursor_position w)) = None ->
  VoxelWorld.removeVoxelAtCursor w = w.
Proof.
  unfold VoxelWorld.removeVoxelAtCursor. intros [H | H]; rewrite H; simpl; auto.
  now destruct (negb _).
Qed.

(** X2.  [removeVoxelAtCursor] empties the cell under a visible cursor
    and nothing else: that cell holds no voxel afterwards, every other
    cell is as before, a removed voxel is logged as one REMOVE action
    with its colour, a hidden cursor or an empty cell leaves the world
    untouched, and calling it a second time changes nothing more. *)
Theorem removeVoxelAtCursor_empties_the_cell (w : VoxelWorld.t) :
  wellKeyed w ->
  let key := key_of (VoxelWorld.cursor_position w) in
  let w' := VoxelWorld.removeVoxelAtCursor w in
  (VoxelWorld.cursorVisible w = true -> JSMap.get (VoxelWorld.voxels w') key = None) /\
  (forall k, k <> key ->
     JSMap.get (VoxelWorld.voxels w') k = JSMap.get (VoxelWorld.voxels w) k) /\
  (forall trash,
     VoxelWorld.cursorVisible w = true ->
     JSMap.get (VoxelWorld.voxels w) key = Some trash ->
     VoxelWorld.history w'
     = VoxelWorld.history w
         ++ [Action.mk REMOVE key (VoxelWorld.cursor_position w) (Mesh.color trash)]) /\
  (VoxelWorld.cursorVisible w = false \/ JSMap.has (VoxelWorld.voxels w) key = false ->
   w' = w) /\
  VoxelWorld.removeVoxelAtCursor w' = w'.
Proof.
  intros (Hn & _ & _) key w'. subst w'.
  destruct (VoxelWorld.cursorVisible w) eqn:Hv.
  - destruct (JSMap.get (VoxelWorld.voxels w) key) as [trash|] eqn:Hg.
    + rewrite (removeVoxelAtCursor_hit w trash Hv Hg). fold key.
      split; [| split; [| split; [| split]]].
      * intros _. simpl. now apply get_delete_same.
      * intros k Hk. simpl. now apply get_delete_other.
      * intros trash' _ Ht. injection Ht as <-. reflexivity.
      * intros [H | H]; [discriminate |].
        unfold JSMap.has in H. rewrite Hg in H. discriminate.
      * apply removeVoxelAtCursor_miss. right. simpl. fold key.
        now apply get_delete_same.
    + rewrite (removeVoxelAtCursor_miss w) by (right; exact Hg).
      split; [| split; [| split; [| split]]].
      * intros _. exact Hg.
      * reflexivity.
      * intros trash _ Ht. congruence.
      * reflexivity.
      * apply removeVoxelAtCursor_miss. now right.
  - rewrite (removeVoxelAtCursor_miss w) by (left; exact Hv).
    split; [| split; [| split; [| split]]].
    + discriminate.
    + reflexivity.
    + discriminate.
    + reflexivity.
    + apply removeVoxelAtCursor_miss. now left.
Qed.

Lemma removeVoxelAtCursor_empties_the_cell_witness :
  wellKeyed oneVoxelWorld /\
  JSMap.get (VoxelWorld.voxels (VoxelWorld.removeVoxelAtCursor oneVoxelWorld))
            (/ 2, / 2, / 2) = None.
Proof.
  split; [exact wellKeyed_oneVoxelWorld |].
  exact (proj1 (removeVoxelAtCursor_empties_the_cell oneVoxelWorld wellKeyed_oneVoxelWorld)
               eq_refl).
Defined.

(** *** Undo as a stack *)

Lemma undoTimes_succ (n : nat) (w : VoxelWorld.t) :
  undoTimes (S n) w = VoxelWorld.undo (undoTimes n w).
Proof.
  revert w. induction n as [|n IH]; intros w; [reflexivity |].
  change (undoTimes (S (S n)) w) with (undoTimes (S n) (VoxelWorld.undo w)).
  rewrite IH. reflexivity.
Qed.

Lemma wellKeyed_undoTimes (n : nat) (w : VoxelWorld.t) :
  wellKeyed w -> wellKeyed (undoTimes n w).
Proof.
  revert w. induction n as [|n IH]; intros w Hw; simpl; auto.
  apply IH. now apply wellKeyed_undo.
Qed.

Lemma wellKeyed_call (c : Call) (w : VoxelWorld.t) : wellKeyed w -> wellKeyed (call c w).
Proof.
  destruct c; simpl.
  - apply wellKeyed_updateCursorFromHand.
  - apply wellKeyed_createVoxelAtCursor.
  - apply wellKeyed_removeVoxelAtCursor.
Qed.

Lemma sameContent_trans (a b c : VoxelWorld.t) :
  sameContent a b -> sameContent b c -> sameContent a c.
Proof.
  intros [H1 H2] [H3 H4]. split; [intros k; now rewrite H1 | congruence].
Qed.

Lemma get_delete_nodup {V} (m : JSMap.t V) (k k' : Key) :
  NoDup (map fst m) ->
  JSMap.get (JSMap.delete m k) k' = if Key_eqb k k' then None else JSMap.get m k'.
Proof.
  intros Hn. destruct (Key_eqb k k') eqn:E.
  - apply Key_eqb_true in E. subst. now apply get_delete_same.
  - apply get_delete_other. intros ->. rewrite Key_eqb_refl in E. discriminate.
Qed.

Lemma get_set_any {V} (m : JSMap.t V) (k k' : Key) (v : V) :
  JSMap.get (JSMap.set m k v) k' = if Key_eqb k k' then Some v else JSMap.get m k'.
Proof.
  destruct (Key_eqb k k') eqn:E.
  - apply Key_eqb_true in E. subst. apply get_set_same.
  - apply get_set_other. intros ->. rewrite Key_eqb_refl in E. discriminate.
Qed.

(** [undo] reads the map only through its content. *)
Lemma undo_sameContent (a b : VoxelWorld.t) :
  wellKeyed a -> wellKeyed b -> sameContent a b ->
  sameContent (VoxelWorld.undo a) (VoxelWorld.undo b).
Proof.
  intros (Hna & _) (Hnb & _) [Hg Hh]. unfold VoxelWorld.undo. rewrite <- Hh.
  destruct (VoxelWorld.pop (VoxelWorld.history a)) as [[h act]|]; [| split; auto].
  destruct (Action.type act).
  - unfold JSMap.has. rewrite <- Hg.
    destruct (JSMap.get (VoxelWorld.voxels a) (Action.key act)); split; simpl; auto.
    intros k. rewrite !get_delete_nodup by assumption. now rewrite Hg.
  - split; simpl; auto. intros k. rewrite !get_set_any. now rewrite Hg.
Qed.

(** One call either leaves content and log alone, or logs one action
    that [undo] takes back. *)
Lemma call_then_undo (c : Call) (w : VoxelWorld.t) :
  wellKeyed w ->
  sameContent (call c w) w \/
  (length (VoxelWorld.history (call c w)) = S (length (VoxelWorld.history w)) /\
   sameContent (VoxelWorld.undo (call c w)) w).
Proof.
  intros (Hn & Hk & Hl). destruct c as [ray | |]; simpl.
  - left. destruct (updateCursorFromHand_keeps ray w) as (H1 & H2 & _).
    split; [intros k; now rewrite H1 | exact H2].
  - unfold VoxelWorld.createVoxelAtCursor.
    destruct (negb (VoxelWorld.cursorVisible w)); [left; split; auto |].
    destruct (JSMap.has _ _) eqn:Hhas; [left; split; auto |].
    right. simpl. split; [rewrite length_app; simpl; lia |].
    apply has_get in Hhas.
    unfold VoxelWorld.undo. simpl. rewrite pop_snoc. simpl.
    unfold JSMap.has. rewrite get_set_same.
    rewrite (set_absent _ _ _ _ Hhas), (delete_appended _ _ _ _ Hhas).
    split; auto.
  - unfold VoxelWorld.removeVoxelAtCursor.
    destruct (negb (VoxelWorld.cursorVisible w)); [left; split; auto |].
    destruct (JSMap.get _ _) as [trash|] eqn:Hg; [| left; split; auto].
    right. simpl. split; [rewrite length_app; simpl; lia |].
    unfold VoxelWorld.undo. simpl. rewrite pop_snoc. simpl.
    split; auto. simpl. intros k.
    rewrite get_set_any, get_delete_nodup by assumption.
    destruct (Key_eqb _ k) eqn:E; auto.
    apply Key_eqb_true in E. subst k. rewrite Hg.
    pose proof (get_In_key _ _ _ _ Hg) as Hin.
    rewrite Forall_forall in Hk. specialize (Hk _ Hin). simpl in Hk.
    apply key_of_inj in Hk. rewrite Hk. now destruct trash.
Qed.

Lemma undo_is_last_in_first_out_gen (cs : list Call) :
  forall w, wellKeyed w ->
    (length (VoxelWorld.history w) <= length (VoxelWorld.history (calls cs w)))%nat /\
    sameContent
      (undoTimes (length (VoxelWorld.history (calls cs w)) - length (VoxelWorld.history w))
                 (calls cs w))
      w.
Proof.
  induction cs as [|c cs IH]; intros w Hw.
  - simpl. rewrite Nat.sub_diag. split; [lia | split; auto].
  - change (calls (c :: cs) w) with (calls cs (call c w)).
    pose proof (wellKeyed_call c w Hw) as Hw1.
    destruct (IH _ Hw1) as [Hle Hsame].
    destruct (call_then_undo c w Hw) as [Hc | [Hlen Hc]].
    + destruct Hc as [Hcg Hch]. rewrite Hch in Hle, Hsame.
      split; [exact Hle |].
      eapply sameContent_trans; [exact Hsame | split; auto].
    + rewrite Hlen in Hle, Hsame. split; [lia |].
      replace (length (VoxelWorld.history (calls cs (call c w))) - length (VoxelWorld.history w))%nat
        with (S (length (VoxelWorld.history (calls cs (call c w)))
                 - S (length (VoxelWorld.history w))))%nat by lia.
      rewrite undoTimes_succ.
      eapply sameContent_trans; [| exact Hc].
      apply undo_sameContent; auto.
      apply wellKeyed_undoTimes.
      clear - Hw1. revert Hw1. generalize (call c w). 
      induction cs as [|c' cs IH']; intros w0 H0; simpl; auto.
      apply IH'. now apply wellKeyed_call.
Qed.

(** X3.  The undo log is a faithful stack.  After any sequence of
    cursor moves, placements and removals on a sound world, calling
    [undo] once for every action the sequence logged brings back the
    voxel of every cell and the log as they were before the sequence
    (the order of the map's entries may differ). *)
Theorem undo_is_last_in_first_out (cs : list Call) (w : VoxelWorld.t) :
  wellKeyed w ->
  let w' := calls cs w in
  let logged := (length (VoxelWorld.history w') - length (VoxelWorld.history w))%nat in
  (length (VoxelWorld.history w') = length (VoxelWorld.history w) + logged)%nat /\
  sameContent (undoTimes logged w') w.
Proof.
  intros Hw w' logged. subst w' logged.
  destruct (undo_is_last_in_first_out_gen cs w Hw) as [Hle Hsame].
  split; [lia | exact Hsame].
Qed.

Lemma undo_is_last_in_first_out_witness :
  wellKeyed oneVoxelWorld /\
  sameContent (VoxelWorld.undo (VoxelWorld.removeVoxelAtCursor oneVoxelWorld))
              oneVoxelWorld.
Proof.
  split; [exact wellKeyed_oneVoxelWorld |].
  pose proof (undo_is_last_in_first_out [Remove] oneVoxelWorld wellKeyed_oneVoxelWorld)
    as H.
  cbv zeta in H. destruct H as [_ H].
  unfold calls in H. simpl fold_left in H. unfold call in H.
  rewrite (removeVoxelAtCursor_hit oneVoxelWorld
             (Mesh.mk (Vec3.mk (/ 2) (/ 2) (/ 2)) VoxelWorld.cyan) eq_refl) in H
    by (simpl; now rewrite Key_eqb_refl).
  rewrite (removeVoxelAtCursor_hit oneVoxelWorld
             (Mesh.mk (Vec3.mk (/ 2) (/ 2) (/ 2)) VoxelWorld.cyan) eq_refl)
    by (simpl; now rewrite Key_eqb_refl).
  exact H.
Defined.

(** ** Where the cursor lands *)

(** The running maximum of the floor branch ends above every voxel of
    the column, whatever their heights. *)
Lemma columnStep_above (x z : R) (l : list (Key * Mesh.t)) :
  forall acc,
    acc <= fold_left (VoxelWorld.columnStep x z) l acc /\
    forall entry, In entry l -> inColumn x z entry = true ->
      Vec3.y (Mesh.position (snd entry)) < fold_left (VoxelWorld.columnStep x z) l acc.
Proof.
  induction l as [|e l IH]; intros acc; simpl.
  - split; [lra | intros ? []].
  - destruct (IH (VoxelWorld.columnStep x z acc e)) as [Hle Hin].
    assert (Hstep : acc <= VoxelWorld.columnStep x z acc e /\
                    (inColumn x z e = true ->
                     Vec3.y (Mesh.position (snd e)) < VoxelWorld.columnStep x z acc e)).
    { unfold VoxelWorld.columnStep, inColumn, VoxelWorld.voxelSize, JS.ge. cbv zeta.
      destruct (JS.lt _ _ && JS.lt _ _).
      - destruct (Rle_dec acc (Vec3.y (Mesh.position (snd e)))); split; intros; lra.
      - split; [lra | discriminate]. }
    destruct Hstep as [H1 H2]. split; [lra |].
    intros entry [<- | H] Hc.
    + specialize (H2 Hc). lra.
    + auto.
Qed.

(** The cell a floor hit resolves to holds no voxel. *)
Lemma floor_cursor_unoccupied (w : VoxelWorld.t) (point : Vec3.t) :
  Forall (fun entry => fst entry = key_of (Mesh.position (snd entry)))
         (VoxelWorld.voxels w) ->
  let w1 := snd (VoxelWorld.updateCursorFromHand (PlaneHit point) w) in
  JSMap.has (VoxelWorld.voxels w1) (key_of (VoxelWorld.cursor_position w1)) = false.
Proof.
  intros Hk w1. subst w1. simpl.
  set (x := JS.floor (Vec3.x point / VoxelWorld.voxelSize) * VoxelWorld.voxelSize
            + VoxelWorld.voxelSize / 2).
  set (z := JS.floor (Vec3.z point / VoxelWorld.voxelSize) * VoxelWorld.voxelSize
            + VoxelWorld.voxelSize / 2).
  apply has_get.
  destruct (JSMap.get (VoxelWorld.voxels w) _) as [m|] eqn:Hg; [exfalso | reflexivity].
  apply get_In_key in Hg.
  rewrite Forall_forall in Hk. pose proof (Hk _ Hg) as Hpos. simpl in Hpos.
  unfold key_of in Hpos at 1. simpl in Hpos.
  unfold key_of in Hpos. injection Hpos as Hx Hy Hz.
  destruct (columnStep_above x z (VoxelWorld.voxels w) (VoxelWorld.voxelSize / 2))
    as [_ Habove].
  specialize (Habove _ Hg).
  assert (Hc : inColumn x z
                 ((x, fold_left (VoxelWorld.columnStep x z) (VoxelWorld.voxels w)
                                (VoxelWorld.voxelSize / 2), z), m) = true).
  { unfold inColumn. simpl. rewrite <- Hx, <- Hz.
    rewrite !lt_true; auto; js_real. }
  specialize (Habove Hc). simpl in Habove. lra.
Qed.

(** X4.  On the floor the cursor lands on a free cell.  With numbers
    taken as exact reals, as everywhere in this model: in a sound world
    whose voxel heights are below 2^53 in magnitude, on or off the
    grid, after [updateCursorFromHand] resolves a floor hit the cell
    under the cursor is empty, so [createVoxelAtCursor] succeeds.  The
    bound keeps the statement inside the range where the code's
    binary64 [pos.y + 1] exceeds [pos.y] as the exact sum does; beyond
    it (a snapshot voxel at 2^53, or an overflowing height) the code's
    sum is rounded back to [pos.y]. *)
Theorem floor_cursor_cell_is_free (w : VoxelWorld.t) (point : Vec3.t) :
  wellKeyed w ->
  heightsInRange w ->
  let w1 := snd (VoxelWorld.updateCursorFromHand (PlaneHit point) w) in
  JSMap.has (VoxelWorld.voxels w1) (key_of (VoxelWorld.cursor_position w1)) = false /\
  fst (VoxelWorld.createVoxelAtCursor w1) = true.
Proof.
  intros (_ & Hk & _) _ w1.
  pose proof (floor_cursor_unoccupied w point Hk) as Hfree. cbv zeta in Hfree.
  fold w1 in Hfree.
  split; [exact Hfree |].
  unfold VoxelWorld.createVoxelAtCursor.
  replace (VoxelWorld.cursorVisible w1) with true by reflexivity.
  simpl negb. cbv iota. rewrite Hfree. reflexivity.
Qed.

Lemma heightsInRange_oneVoxelWorld : heightsInRange oneVoxelWorld.
Proof.
  unfold heightsInRange, oneVoxelWorld. simpl.
  constructor; [simpl; js_real | constructor].
Qed.

Lemma floor_cursor_cell_is_free_witness :
  wellKeyed oneVoxelWorld /\
  heightsInRange oneVoxelWorld /\
  fst (VoxelWorld.createVoxelAtCursor
         (snd (VoxelWorld.updateCursorFromHand
                 (PlaneHit (Vec3.mk (1 / 4) 0 (3 / 4))) oneVoxelWorld))) = true.
Proof.
  split; [exact wellKeyed_oneVoxelWorld |].
  split; [exact heightsInRange_oneVoxelWorld |].
  exact (proj2 (floor_cursor_cell_is_free oneVoxelWorld (Vec3.mk (1 / 4) 0 (3 / 4))
                  wellKeyed_oneVoxelWorld heightsInRange_oneVoxelWorld)).
Defined.




(** ** Loading a snapshot *)















(** ** The interaction state machine over several frames *)

Lemma createVoxelAtCursor_placed (w w' : VoxelWorld.t) :
  VoxelWorld.createVoxelAtCursor w = (true, w') ->
  let pos := VoxelWorld.cursor_position w in
  VoxelWorld.voxels w' = VoxelWorld.voxels w ++ [(key_of pos, Mesh.mk pos VoxelWorld.cyan)] /\
  VoxelWorld.history w'
  = VoxelWorld.history w ++ [Action.mk ADD (key_of pos) pos VoxelWorld.cyan].
Proof.
  unfold VoxelWorld.createVoxelAtCursor.
  destruct (negb (VoxelWorld.cursorVisible w)); [discriminate |].
  destruct (JSMap.has _ _) eqn:Hhas; [discriminate |].
  intros H. injection H as <-. simpl. apply has_get in Hhas.
  now rewrite (set_absent _ _ _ _ Hhas).
Qed.

Lemma createVoxelAtCursor_refused (w w' : VoxelWorld.t) :
  VoxelWorld.createVoxelAtCursor w = (false, w') -> w' = w.
Proof.
  unfold VoxelWorld.createVoxelAtCursor.
  destruct (negb (VoxelWorld.cursorVisible w)); [congruence |].
  destruct (JSMap.has _ _); [congruence | discriminate].
Qed.

(** [undo] reads only the map and the log. *)
Lemma undo_reads_voxels (a b : VoxelWorld.t) :
  VoxelWorld.voxels a = VoxelWorld.voxels b ->
  VoxelWorld.history a = VoxelWorld.history b ->
  VoxelWorld.voxels (VoxelWorld.undo a) = VoxelWorld.voxels (VoxelWorld.undo b) /\
  VoxelWorld.history (VoxelWorld.undo a) = VoxelWorld.history (VoxelWorld.undo b).
Proof.
  intros Hv Hh. unfold VoxelWorld.undo. rewrite Hv, Hh.
  destruct (VoxelWorld.pop _) as [[h act]|]; [| auto].
  destruct (Action.type act); [destruct (JSMap.has _ _) |]; simpl; auto.
Qed.

(** The transitions never touch the voxels or the log, and lead to the
    state of the gesture. *)
Lemma transition_facts (gesture : Gesture) (ndcX ndcY : R) (now : Z) (s : App.t) :
  match App.transition gesture ndcX ndcY now s with
  | None =>
      gesture = PINCH /\
      (App.interactionState s = ROTATING \/ App.interactionState s = ZOOMING)
  | Some s1 =>
      sameVoxels s s1 /\
      VoxelWorld.camera_position_z (App.world s1)
      = VoxelWorld.camera_position_z (App.world s) /\
      match gesture with
      | PINCH =>
          (App.interactionState s1 = DRAW_WAIT /\ App.interactionState s <> BLOCK_PLACED) \/
          (App.interactionState s1 = BLOCK_PLACED /\ App.interactionState s = BLOCK_PLACED)
      | VICTORY =>
          (App.interactionState s1 = UNDO_WAIT /\ App.interactionState s <> UNDO_COMPLETE) \/
          (App.interactionState s1 = UNDO_COMPLETE /\ App.interactionState s = UNDO_COMPLETE)
      | CLOSED => App.interactionState s1 = ROTATING
      | _ => App.interactionState s1 = IDLE
      end
  end.
Proof.
  unfold App.transition, sameVoxels.
  destruct gesture; destruct (App.interactionState s) eqn:E; simpl;
    repeat match goal with
      | |- context [if (?a <? ?b)%Z then _ else _] => destruct (a <? b)%Z; simpl
      end;
    rewrite ?E; auto 10;
    try (split; [auto | split; [reflexivity |]]);
    try (left; split; [reflexivity | discriminate]);
    try (right; split; reflexivity);
    try (left; split; [exact E | discriminate]);
    try (right; split; [exact E | reflexivity]).
Qed.

Lemma createVoxelAtCursor_camera (w : VoxelWorld.t) :
  VoxelWorld.camera_position_z (snd (VoxelWorld.createVoxelAtCursor w))
  = VoxelWorld.camera_position_z w.
Proof.
  unfold VoxelWorld.createVoxelAtCursor.
  destruct (negb _); [reflexivity |]. destruct (JSMap.has _ _); reflexivity.
Qed.

Lemma undo_camera (w : VoxelWorld.t) :
  VoxelWorld.camera_position_z (VoxelWorld.undo w) = VoxelWorld.camera_position_z w.
Proof.
  unfold VoxelWorld.undo.
  destruct (VoxelWorld.pop _) as [[h act]|]; [| reflexivity].
  destruct (Action.type act); [destruct (JSMap.has _ _) |]; reflexivity.
Qed.

Lemma stateAction_camera (ndcX ndcY : R) (now : Z) (s : App.t) :
  VoxelWorld.camera_position_z (App.world (App.stateAction ndcX ndcY now s))
  = VoxelWorld.camera_position_z (App.world s).
Proof.
  unfold App.stateAction. cbv zeta.
  destruct (App.interactionState s); try reflexivity.
  - destruct (_ && _); [| reflexivity].
    pose proof (createVoxelAtCursor_camera (App.world s)) as Hc.
    destruct (VoxelWorld.createVoxelAtCursor (App.world s)) as [placed w'].
    destruct placed; exact Hc.
  - destruct (_ <? _)%Z; [| reflexivity]. simpl. apply undo_camera.
  - destruct (App.lastPoint s) as [[lx ly]|]; reflexivity.
Qed.

(** The action of the state: a placement only in DRAW_WAIT, an undo
    only in UNDO_WAIT, each after more than two seconds and each
    leaving the state in which it cannot happen again. *)
Lemma stateAction_facts (ndcX ndcY : R) (now : Z) (s : App.t) :
  let s2 := App.stateAction ndcX ndcY now s in
  match App.interactionState s with
  | DRAW_WAIT =>
      (sameVoxels s s2 /\ App.interactionState s2 = DRAW_WAIT) \/
      (App.interactionState s2 = BLOCK_PLACED /\
       (2000 < now - App.pinchStartTime s)%Z /\
       exists pos,
         VoxelWorld.voxels (App.world s2)
         = VoxelWorld.voxels (App.world s) ++ [(key_of pos, Mesh.mk pos VoxelWorld.cyan)] /\
         VoxelWorld.history (App.world s2)
         = VoxelWorld.history (App.world s) ++ [Action.mk ADD (key_of pos) pos VoxelWorld.cyan])
  | UNDO_WAIT =>
      (sameVoxels s s2 /\ App.interactionState s2 = UNDO_WAIT) \/
      (App.interactionState s2 = UNDO_COMPLETE /\
       (2000 < now - App.undoStartTime s)%Z /\
       App.world s2 = VoxelWorld.undo (App.world s))
  | st => sameVoxels s s2 /\ App.interactionState s2 = st
  end.
Proof.
  unfold App.stateAction, sameVoxels. cbv zeta.
  destruct (App.interactionState s) eqn:E; rewrite ?E; auto.
  - (* DRAW_WAIT *)
    destruct (2000 <? now - App.pinchStartTime s)%Z eqn:Et; simpl; [| rewrite E; auto].
    destruct (negb (App.blockPlacedThisPinch s)); simpl; [| rewrite E; auto].
    destruct (VoxelWorld.createVoxelAtCursor (App.world s)) as [placed w'] eqn:Ec.
    destruct placed; simpl.
    + apply createVoxelAtCursor_placed in Ec. destruct Ec as [Hv Hh].
      right. split; [reflexivity |]. split; [lia |]. eauto.
    + apply createVoxelAtCursor_refused in Ec. subst w'. rewrite E. auto.
  - (* UNDO_WAIT *)
    destruct (2000 <? now - App.undoStartTime s)%Z eqn:Et; simpl; [| rewrite E; auto].
    right. split; [reflexivity |]. split; [lia | reflexivity].
  - (* ROTATING *)
    destruct (App.lastPoint s) as [[lx ly]|]; simpl; rewrite ?E; auto.
Qed.

(** What one frame can do to the voxels and the log: nothing, one
    placement under PINCH, one undo under VICTORY. *)
Lemma tick_edits (gesture : Gesture) (k : Tick) (s : App.t) :
  hasPointer k ->
  exists s',
    tick gesture k s = Some s' /\
    (sameVoxels s s' \/
     (gesture = PINCH /\ App.interactionState s <> BLOCK_PLACED /\
      App.interactionState s' = BLOCK_PLACED /\
      exists pos,
        VoxelWorld.voxels (App.world s')
        = VoxelWorld.voxels (App.world s) ++ [(key_of pos, Mesh.mk pos VoxelWorld.cyan)] /\
        VoxelWorld.history (App.world s')
        = VoxelWorld.history (App.world s) ++ [Action.mk ADD (key_of pos) pos VoxelWorld.cyan]) \/
     (gesture = VICTORY /\ App.interactionState s <> UNDO_COMPLETE /\
      App.interactionState s' = UNDO_COMPLETE /\
      VoxelWorld.voxels (App.world s') = VoxelWorld.voxels (VoxelWorld.undo (App.world s)) /\
      VoxelWorld.history (App.world s') = VoxelWorld.history (VoxelWorld.undo (App.world s)))) /\
    (gesture = PINCH -> App.interactionState s = BLOCK_PLACED ->
     sameVoxels s s' /\ App.interactionState s' = BLOCK_PLACED) /\
    (gesture = VICTORY -> App.interactionState s = UNDO_COMPLETE ->
     sameVoxels s s' /\ App.interactionState s' = UNDO_COMPLETE).
Proof.
  intros Hp. unfold hasPointer in Hp. unfold tick, App.handleInteraction.
  destruct (App.pointer (tk_hand k) (tk_landmarks k)) as [point|]; [| congruence].
  cbn [JS.bind]. cbv zeta.
  destruct (updateCursorFromHand_keeps (tk_ray k) (App.world s)) as (Hv & Hh & _).
  set (s0 := App.with_world s (snd (VoxelWorld.updateCursorFromHand (tk_ray k) (App.world s)))).
  assert (H0 : sameVoxels s s0) by (split; assumption).
  assert (E0 : App.interactionState s0 = App.interactionState s) by reflexivity.
  destruct (Gesture_eq_dec gesture ZOOM_IN) as [-> | Hin].
  { eexists. split; [reflexivity |]. split; [left; exact H0 |]. split; discriminate. }
  destruct (Gesture_eq_dec gesture ZOOM_OUT) as [-> | Hout].
  { eexists. split; [reflexivity |]. split; [left; exact H0 |]. split; discriminate. }
  pose proof (transition_facts gesture (App.ndcXOf point) (App.ndcYOf point) (tk_now k) s0) as Ht.
  pose proof (fun s1 => stateAction_facts (App.ndcXOf point) (App.ndcYOf point) (tk_now k) s1) as Ha.
  cbv zeta in Ha.
  assert (Hgoal : exists s',
    match App.transition gesture (App.ndcXOf point) (App.ndcYOf point) (tk_now k) s0 with
    | Some s1 =>
        Some (App.with_lastGesture
                (App.with_lastPoint
                   (App.stateAction (App.ndcXOf point) (App.ndcYOf point) (tk_now k) s1)
                   (Some (App.ndcXOf point, App.ndcYOf point))) gesture)
    | None => Some s0
    end = Some s' /\
    (sameVoxels s s' \/
     (gesture = PINCH /\ App.interactionState s <> BLOCK_PLACED /\
      App.interactionState s' = BLOCK_PLACED /\
      exists pos,
        VoxelWorld.voxels (App.world s')
        = VoxelWorld.voxels (App.world s) ++ [(key_of pos, Mesh.mk pos VoxelWorld.cyan)] /\
        VoxelWorld.history (App.world s')
        = VoxelWorld.history (App.world s) ++ [Action.mk ADD (key_of pos) pos VoxelWorld.cyan]) \/
     (gesture = VICTORY /\ App.interactionState s <> UNDO_COMPLETE /\
      App.interactionState s' = UNDO_COMPLETE /\
      VoxelWorld.voxels (App.world s') = VoxelWorld.voxels (VoxelWorld.undo (App.world s)) /\
      VoxelWorld.history (App.world s') = VoxelWorld.history (VoxelWorld.undo (App.world s)))) /\
    (gesture = PINCH -> App.interactionState s = BLOCK_PLACED ->
     sameVoxels s s' /\ App.interactionState s' = BLOCK_PLACED) /\
    (gesture = VICTORY -> App.interactionState s = UNDO_COMPLETE ->
     sameVoxels s s' /\ App.interactionState s' = UNDO_COMPLETE)).
  { destruct (App.transition gesture _ _ (tk_now k) s0) as [s1|].
    - destruct Ht as ([Hv1 Hh1] & _ & Hst).
      specialize (Ha s1).
      set (s2 := App.stateAction (App.ndcXOf point) (App.ndcYOf point) (tk_now k) s1) in *.
      eexists. split; [reflexivity |]. simpl.
      unfold sameVoxels in *. simpl. rewrite E0 in Hst.
      destruct H0 as [Hv0 Hh0].
      destruct gesture; try congruence;
        try (rewrite Hst in Ha; destruct Ha as [[Hv2 Hh2] Hs2];
             split; [left; split; congruence | split; discriminate]).
      + (* PINCH *)
        destruct Hst as [[Hs1 Hne] | [Hs1 Heq]]; rewrite Hs1 in Ha.
        * destruct Ha as [[[Hv2 Hh2] Hs2] | (Hs2 & _ & pos & Hv2 & Hh2)].
          -- split; [left; split; congruence |].
             split; [intros _ Hb; contradiction | discriminate].
          -- split; [| split; [intros _ Hb; contradiction | discriminate]].
             right. left. split; [reflexivity |]. split; [exact Hne |].
             split; [exact Hs2 |]. exists pos. split; congruence.
        * destruct Ha as [[Hv2 Hh2] Hs2].
          split; [left; split; congruence |].
          split; [intros _ _; split; [split; congruence | exact Hs2] | discriminate].
      + (* VICTORY *)
        destruct Hst as [[Hs1 Hne] | [Hs1 Heq]]; rewrite Hs1 in Ha.
        * destruct Ha as [[[Hv2 Hh2] Hs2] | (Hs2 & _ & Hw2)].
          -- split; [left; split; congruence |].
             split; [discriminate | intros _ Hb; contradiction].
          -- split; [| split; [discriminate | intros _ Hb; contradiction]].
             right. right. split; [reflexivity |]. split; [exact Hne |].
             split; [exact Hs2 |]. rewrite Hw2.
             apply undo_reads_voxels; congruence.
        * destruct Ha as [[Hv2 Hh2] Hs2].
          split; [left; split; congruence |].
          split; [discriminate | intros _ _; split; [split; congruence | exact Hs2]].
    - destruct Ht as [-> [Hs | Hs]]; rewrite E0 in Hs;
        (eexists; split; [reflexivity |]; split; [left; exact H0 |];
         split; [intros _ Hb; congruence | discriminate]). }
  destruct gesture; try congruence; exact Hgoal.
Qed.

Lemma hold_cons (gesture : Gesture) (k : Tick) (ticks : list Tick) (s : App.t) :
  hold gesture (k :: ticks) s = (s1 <- tick gesture k s ;; hold gesture ticks s1).
Proof. reflexivity. Qed.

Lemma sameVoxels_trans (a b c : App.t) : sameVoxels a b -> sameVoxels b c -> sameVoxels a c.
Proof. unfold sameVoxels. intros [H1 H2] [H3 H4]. split; congruence. Qed.

(** Once a voxel is placed, further PINCH frames change nothing. *)
Lemma hold_PINCH_after_placing (ticks : list Tick) :
  forall s, App.interactionState s = BLOCK_PLACED -> Forall hasPointer ticks ->
    exists s', hold PINCH ticks s = Some s' /\ sameVoxels s s' /\
               App.interactionState s' = BLOCK_PLACED.
Proof.
  induction ticks as [|k ticks IH]; intros s Hs Hp.
  - exists s. repeat split; auto.
  - inversion Hp as [|? ? Hk Hrest]; subst.
    destruct (tick_edits PINCH k s Hk) as (s1 & Ht & _ & Hkeep & _).
    destruct (Hkeep eq_refl Hs) as [Hsame Hs1].
    destruct (IH s1 Hs1 Hrest) as (s' & Hh & Hsame' & Hs').
    exists s'. rewrite hold_cons, Ht. cbn [JS.bind].
    split; [exact Hh |]. split; [| exact Hs'].
    eapply sameVoxels_trans; eauto.
Qed.

Lemma hold_VICTORY_after_undo (ticks : list Tick) :
  forall s, App.interactionState s = UNDO_COMPLETE -> Forall hasPointer ticks ->
    exists s', hold VICTORY ticks s = Some s' /\ sameVoxels s s' /\
               App.interactionState s' = UNDO_COMPLETE.
Proof.
  induction ticks as [|k ticks IH]; intros s Hs Hp.
  - exists s. repeat split; auto.
  - inversion Hp as [|? ? Hk Hrest]; subst.
    destruct (tick_edits VICTORY k s Hk) as (s1 & Ht & _ & _ & Hkeep).
    destruct (Hkeep eq_refl Hs) as [Hsame Hs1].
    destruct (IH s1 Hs1 Hrest) as (s' & Hh & Hsame' & Hs').
    exists s'. rewrite hold_cons, Ht. cbn [JS.bind].
    split; [exact Hh |]. split; [| exact Hs'].
    eapply sameVoxels_trans; eauto.
Qed.

(** X8.  One pinch places at most one voxel.  However long the PINCH
    gesture is held and wherever the cursor goes meanwhile, from any
    state, the frames of the hold leave the voxels and the log as they
    were or add exactly one cyan voxel with its one ADD action, after
    which the state is BLOCK_PLACED. *)
Theorem one_voxel_per_pinch (ticks : list Tick) (s : App.t) :
  Forall hasPointer ticks ->
  exists s',
    hold PINCH ticks s = Some s' /\
    (sameVoxels s s' \/
     (App.interactionState s' = BLOCK_PLACED /\
      exists pos,
        VoxelWorld.voxels (App.world s')
        = VoxelWorld.voxels (App.world s) ++ [(key_of pos, Mesh.mk pos VoxelWorld.cyan)] /\
        VoxelWorld.history (App.world s')
        = VoxelWorld.history (App.world s)
            ++ [Action.mk ADD (key_of pos) pos VoxelWorld.cyan])).
Proof.
  revert s. induction ticks as [|k ticks IH]; intros s Hp.
  - exists s. split; [reflexivity | left; split; reflexivity].
  - inversion Hp as [|? ? Hk Hrest]; subst.
    destruct (tick_edits PINCH k s Hk) as (s1 & Ht & Hedit & _).
    rewrite hold_cons, Ht. cbn [JS.bind].
    destruct Hedit as [Hsame | [(_ & _ & Hs1 & pos & Hv & Hh) | (Hg & _)]];
      [| | discriminate Hg].
    + destruct (IH s1 Hrest) as (s' & Hrun & Hres).
      exists s'. split; [exact Hrun |].
      destruct Hsame as [Hv Hh].
      destruct Hres as [[Hv' Hh'] | (Hs' & pos & Hv' & Hh')].
      * left. split; congruence.
      * right. split; [exact Hs' |]. exists pos. split; congruence.
    + destruct (hold_PINCH_after_placing ticks s1 Hs1 Hrest) as (s' & Hrun & [Hv' Hh'] & Hs').
      exists s'. split; [exact Hrun |].
      right. split; [exact Hs' |]. exists pos. split; congruence.
Qed.

Lemma hasPointer_plainTick (now : Z) (ray : RayResult) : hasPointer (plainTick now ray).
Proof. unfold hasPointer, plainTick. simpl. discriminate. Qed.

Lemma one_voxel_per_pinch_witness :
  exists s',
    hold PINCH [plainTick 0 NoHit; plainTick 3000 (PlaneHit (Vec3.mk 0 0 0))]
         (App.init None) = Some s' /\
    (sameVoxels (App.init None) s' \/
     (App.interactionState s' = BLOCK_PLACED /\
      exists pos,
        VoxelWorld.voxels (App.world s')
        = VoxelWorld.voxels (App.world (App.init None))
            ++ [(key_of pos, Mesh.mk pos VoxelWorld.cyan)] /\
        VoxelWorld.history (App.world s')
        = VoxelWorld.history (App.world (App.init None))
            ++ [Action.mk ADD (key_of pos) pos VoxelWorld.cyan])).
Proof.
  apply one_voxel_per_pinch.
  constructor; [apply hasPointer_plainTick |].
  constructor; [apply hasPointer_plainTick | constructor].
Defined.

(** X9.  One victory sign undoes at most one action.  However long
    the VICTORY gesture is held, from any state, the frames of the hold
    leave the voxels and the log as they were or as a single [undo]
    leaves them, after which the state is UNDO_COMPLETE. *)
Theorem one_undo_per_victory (ticks : list Tick) (s : App.t) :
  Forall hasPointer ticks ->
  exists s',
    hold VICTORY ticks s = Some s' /\
    (sameVoxels s s' \/
     (App.interactionState s' = UNDO_COMPLETE /\
      VoxelWorld.voxels (App.world s') = VoxelWorld.voxels (VoxelWorld.undo (App.world s)) /\
      VoxelWorld.history (App.world s')
      = VoxelWorld.history (VoxelWorld.undo (App.world s)))).
Proof.
  revert s. induction ticks as [|k ticks IH]; intros s Hp.
  - exists s. split; [reflexivity | left; split; reflexivity].
  - inversion Hp as [|? ? Hk Hrest]; subst.
    destruct (tick_edits VICTORY k s Hk) as (s1 & Ht & Hedit & _).
    rewrite hold_cons, Ht. cbn [JS.bind].
    destruct Hedit as [Hsame | [(Hg & _) | (_ & _ & Hs1 & Hv & Hh)]];
      [| discriminate Hg |].
    + destruct (IH s1 Hrest) as (s' & Hrun & Hres).
      exists s'. split; [exact Hrun |].
      destruct Hsame as [Hv Hh].
      destruct Hres as [[Hv' Hh'] | (Hs' & Hv' & Hh')].
      * left. split; congruence.
      * right. split; [exact Hs' |].
        destruct (undo_reads_voxels (App.world s1) (App.world s) Hv Hh) as [Hu1 Hu2].
        split; congruence.
    + destruct (hold_VICTORY_after_undo ticks s1 Hs1 Hrest) as (s' & Hrun & [Hv' Hh'] & Hs').
      exists s'. split; [exact Hrun |].
      right. split; [exact Hs' |]. split; congruence.
Qed.

Lemma one_undo_per_victory_witness :
  exists s',
    hold VICTORY [plainTick 0 NoHit; plainTick 3000 NoHit] (App.init None) = Some s' /\
    (sameVoxels (App.init None) s' \/
     (App.interactionState s' = UNDO_COMPLETE /\
      VoxelWorld.voxels (App.world s')
      = VoxelWorld.voxels (VoxelWorld.undo (App.world (App.init None))) /\
      VoxelWorld.history (App.world s')
      = VoxelWorld.history (VoxelWorld.undo (App.world (App.init None))))).
Proof.
  apply one_undo_per_victory.
  constructor; [apply hasPointer_plainTick |].
  constructor; [apply hasPointer_plainTick | constructor].
Defined.

(** X10.  Only PINCH and VICTORY edit the world.  A run of frames with
    any other gestures (rotation, zoom, swipes, open palm, thumbs up,
    none), of any length and with any timing, leaves every voxel and
    the undo log untouched. *)
Theorem only_pinch_and_victory_edit (frames : list (Gesture * Tick)) (s : App.t) :
  Forall (fun f => fst f <> PINCH /\ fst f <> VICTORY /\ hasPointer (snd f)) frames ->
  exists s', run frames s = Some s' /\ sameVoxels s s'.
Proof.
  revert s. induction frames as [|[g k] frames IH]; intros s Hf.
  - exists s. split; [reflexivity | split; reflexivity].
  - inversion Hf as [|? ? (Hp & Hv & Hk) Hrest]; subst. simpl in Hp, Hv, Hk.
    destruct (tick_edits g k s Hk) as (s1 & Ht & Hedit & _).
    simpl. rewrite Ht. cbn [JS.bind].
    destruct Hedit as [Hsame | [(Hg & _) | (Hg & _)]]; try contradiction.
    destruct (IH s1 Hrest) as (s' & Hrun & Hsame').
    exists s'. split; [exact Hrun |]. eapply sameVoxels_trans; eauto.
Qed.

Lemma only_pinch_and_victory_edit_witness :
  exists s',
    run [(CLOSED, plainTick 0 NoHit); (ZOOM_IN, plainTick 40 NoHit);
         (OPEN_PALM, plainTick 80 NoHit)] (App.init None) = Some s' /\
    sameVoxels (App.init None) s'.
Proof.
  apply only_pinch_and_victory_edit.
  repeat (constructor;
          [split; [discriminate | split; [discriminate | apply hasPointer_plainTick]] |]).
  constructor.
Defined.

(** The camera distance after one frame. *)
Lemma tick_camera (gesture : Gesture) (k : Tick) (s s' : App.t) :
  tick gesture k s = Some s' ->
  VoxelWorld.camera_position_z (App.world s')
  = match gesture with
    | ZOOM_IN => Rmax 2 (VoxelWorld.camera_position_z (App.world s) - 2 / 10)
    | ZOOM_OUT => Rmin 20 (VoxelWorld.camera_position_z (App.world s) + 2 / 10)
    | _ => VoxelWorld.camera_position_z (App.world s)
    end.
Proof.
  unfold tick, App.handleInteraction.
  destruct (App.pointer (tk_hand k) (tk_landmarks k)) as [point|]; [| discriminate].
  cbn [JS.bind]. cbv zeta.
  destruct (updateCursorFromHand_keeps (tk_ray k) (App.world s)) as (_ & _ & Hc & _).
  set (s0 := App.with_world s (snd (VoxelWorld.updateCursorFromHand (tk_ray k) (App.world s)))).
  assert (H0 : VoxelWorld.camera_position_z (App.world s0)
               = VoxelWorld.camera_position_z (App.world s)) by exact Hc.
  destruct (Gesture_eq_dec gesture ZOOM_IN) as [-> | Hin].
  { intros H. injection H as <-. simpl. now rewrite Hc. }
  destruct (Gesture_eq_dec gesture ZOOM_OUT) as [-> | Hout].
  { intros H. injection H as <-. simpl. now rewrite Hc. }
  pose proof (transition_facts gesture (App.ndcXOf point) (App.ndcYOf point) (tk_now k) s0) as Ht.
  assert (Hgoal :
    match App.transition gesture (App.ndcXOf point) (App.ndcYOf point) (tk_now k) s0 with
    | Some s1 =>
        Some (App.with_lastGesture
                (App.with_lastPoint
                   (App.stateAction (App.ndcXOf point) (App.ndcYOf point) (tk_now k) s1)
                   (Some (App.ndcXOf point, App.ndcYOf point))) gesture)
    | None => Some s0
    end = Some s' ->
    VoxelWorld.camera_position_z (App.world s') = VoxelWorld.camera_position_z (App.world s)).
  { destruct (App.transition gesture _ _ (tk_now k) s0) as [s1|].
    - destruct Ht as (_ & Hc1 & _). intros H. injection H as <-. simpl.
      rewrite stateAction_camera. congruence.
    - intros H. injection H as <-. exact H0. }
  destruct gesture; try congruence; exact Hgoal.
Qed.

(** X11.  The camera never leaves its range.  Through any run of
    frames the camera distance stays between 2 and 20 once it is
    there (it starts at 8), zoom frames move it by 0.2 clamped to that
    range, and a run without zoom frames leaves it where it was. *)
Theorem camera_stays_in_range (frames : list (Gesture * Tick)) (s : App.t) :
  Forall (fun f => hasPointer (snd f)) frames ->
  2 <= VoxelWorld.camera_position_z (App.world s) <= 20 ->
  exists s',
    run frames s = Some s' /\
    2 <= VoxelWorld.camera_position_z (App.world s') <= 20 /\
    (Forall (fun f => fst f <> ZOOM_IN /\ fst f <> ZOOM_OUT) frames ->
     VoxelWorld.camera_position_z (App.world s')
     = VoxelWorld.camera_position_z (App.world s)).
Proof.
  revert s. induction frames as [|[g k] frames IH]; intros s Hf Hz.
  - exists s. split; [reflexivity |]. split; [exact Hz | reflexivity].
  - inversion Hf as [|? ? Hk Hrest]; subst. simpl in Hk.
    destruct (tick_edits g k s Hk) as (s1 & Ht & _).
    pose proof (tick_camera g k s s1 Ht) as Hc.
    assert (Hz1 : 2 <= VoxelWorld.camera_position_z (App.world s1) <= 20).
    { rewrite Hc. destruct g; try exact Hz;
        unfold Rmax, Rmin;
        match goal with |- context [Rle_dec ?a ?b] => destruct (Rle_dec a b) end; lra. }
    destruct (IH s1 Hrest Hz1) as (s' & Hrun & Hz' & Hsame).
    exists s'. simpl. rewrite Ht. cbn [JS.bind].
    split; [exact Hrun |]. split; [exact Hz' |].
    intros Hno. inversion Hno as [|? ? [Hi Ho] Hno']; subst. simpl in Hi, Ho.
    rewrite (Hsame Hno'), Hc. destruct g; congruence.
Qed.

Lemma camera_stays_in_range_witness :
  exists s',
    run [(ZOOM_OUT, plainTick 0 NoHit); (ZOOM_OUT, plainTick 40 NoHit)]
        (App.init None) = Some s' /\
    2 <= VoxelWorld.camera_position_z (App.world s') <= 20.
Proof.
  destruct (camera_stays_in_range
              [(ZOOM_OUT, plainTick 0 NoHit); (ZOOM_OUT, plainTick 40 NoHit)]
              (App.init None)) as (s' & H1 & H2 & _).
  - repeat (constructor; [apply hasPointer_plainTick |]). constructor.
  - simpl. lra.
  - exists s'. split; assumption.
Defined.

(** One CLOSED frame: the scene turns by 3.5 times the move of the
    pointer since the last frame of the rotation, and not at all on
    the frame that starts it. *)
Lemma tick_CLOSED (k : Tick) (s : App.t) :
  hasPointer k ->
  exists s',
    tick CLOSED k s = Some s' /\
    App.interactionState s' = ROTATING /\
    App.lastPoint s' = Some (ndcOf k) /\
    App.lastClosedTime s' = tk_now k /\
    VoxelWorld.cursorVisible (App.world s') = false /\
    sameVoxels s s' /\
    VoxelWorld.scene_rotation (App.world s')
    = let rot := VoxelWorld.scene_rotation (App.world s) in
      match (if InteractionState_eqb (App.interactionState s) ROTATING
             then App.lastPoint s else Some (ndcOf k)) with
      | Some (lx, ly) =>
          Vec3.mk (Vec3.x rot + (snd (ndcOf k) - ly) * (35 / 10))
                  (Vec3.y rot + (fst (ndcOf k) - lx) * (35 / 10))
                  (Vec3.z rot)
      | None => rot
      end.
Proof.
  intros Hp. unfold hasPointer in Hp. unfold tick, App.handleInteraction, ndcOf.
  destruct (App.pointer (tk_hand k) (tk_landmarks k)) as [point|]; [| congruence].
  cbn [JS.bind]. cbv zeta.
  destruct (updateCursorFromHand_keeps (tk_ray k) (App.world s)) as (Hv & Hh & _ & Hr).
  set (w0 := snd (VoxelWorld.updateCursorFromHand (tk_ray k) (App.world s))) in *.
  destruct s as [w r lg pm lp lct pst ust st bp]. simpl in *.
  destruct st; simpl; try destruct lp as [[lx ly]|]; simpl;
    (eexists; split; [reflexivity |]; unfold sameVoxels; simpl;
     rewrite ?Hr; repeat split; first [reflexivity | assumption]).
Qed.

Lemma last_cons_default {A} (l : list A) :
  forall a d, last (a :: l) d = last l a.
Proof.
  induction l as [|b l IH]; intros a d; [reflexivity |].
  change (last (a :: b :: l) d) with (last (b :: l) d).
  now rewrite !IH.
Qed.

Lemma last_map {A B} (f : A -> B) (l : list A) (d : A) :
  last (map f l) (f d) = f (last l d).
Proof.
  revert d. induction l as [|a l IH]; intros d; [reflexivity |].
  change (map f (a :: l)) with (f a :: map f l).
  now rewrite !last_cons_default, IH.
Qed.

(** While the fist is held the turns add up to the move of the pointer
    since the anchor [q]. *)
Lemma hold_CLOSED_rotating (ticks : list Tick) :
  forall (s : App.t) (q : R * R),
    App.interactionState s = ROTATING -> App.lastPoint s = Some q ->
    Forall hasPointer ticks ->
    exists s',
      hold CLOSED ticks s = Some s' /\
      App.interactionState s' = ROTATING /\
      sameVoxels s s' /\
      VoxelWorld.scene_rotation (App.world s')
      = let rot := VoxelWorld.scene_rotation (App.world s) in
        let p := last (map ndcOf ticks) q in
        Vec3.mk (Vec3.x rot + (snd p - snd q) * (35 / 10))
                (Vec3.y rot + (fst p - fst q) * (35 / 10))
                (Vec3.z rot).
Proof.
  induction ticks as [|k ticks IH]; intros s q Hs Hl Hp.
  - exists s. split; [reflexivity |]. split; [exact Hs |].
    split; [split; reflexivity |]. simpl.
    destruct (VoxelWorld.scene_rotation (App.world s)). simpl. f_equal; ring.
  - inversion Hp as [|? ? Hk Hrest]; subst.
    destruct (tick_CLOSED k s Hk) as (s1 & Ht & Hs1 & Hl1 & _ & _ & Hsame & Hrot).
    rewrite Hs, Hl in Hrot. simpl in Hrot. destruct q as [lx ly].
    destruct (IH s1 (ndcOf k) Hs1 Hl1 Hrest) as (s' & Hrun & Hs' & Hsame' & Hrot').
    exists s'. rewrite hold_cons, Ht. cbn [JS.bind].
    split; [exact Hrun |]. split; [exact Hs' |].
    split; [eapply sameVoxels_trans; eauto |].
    rewrite Hrot'. cbv zeta. rewrite Hrot.
    change (map ndcOf (k :: ticks)) with (ndcOf k :: map ndcOf ticks).
    rewrite last_cons_default. simpl. f_equal; ring.
Qed.

(** X12.  The rotation follows the fist.  When a fist is closed (the
    state was not ROTATING) and held over any number of frames, the
    first frame turns nothing and the turns of the following frames
    add up: the scene has turned about the y axis by 3.5 times the
    horizontal move of the pointer between the first and the last
    frame, about the x axis by 3.5 times its vertical move, whatever
    path the pointer took in between.  No voxel and no log entry
    changes. *)
Theorem rotation_follows_the_fist (k0 : Tick) (ticks : list Tick) (s : App.t) :
  App.interactionState s <> ROTATING ->
  Forall hasPointer (k0 :: ticks) ->
  exists s',
    hold CLOSED (k0 :: ticks) s = Some s' /\
    App.interactionState s' = ROTATING /\
    sameVoxels s s' /\
    VoxelWorld.scene_rotation (App.world s')
    = let rot := VoxelWorld.scene_rotation (App.world s) in
      let first := ndcOf k0 in
      let final := ndcOf (last ticks k0) in
      Vec3.mk (Vec3.x rot + (snd final - snd first) * (35 / 10))
              (Vec3.y rot + (fst final - fst first) * (35 / 10))
              (Vec3.z rot).
Proof.
  intros Hs Hp. inversion Hp as [|? ? Hk Hrest]; subst.
  destruct (tick_CLOSED k0 s Hk) as (s1 & Ht & Hs1 & Hl1 & _ & _ & Hsame & Hrot).
  assert (E : InteractionState_eqb (App.interactionState s) ROTATING = false).
  { unfold InteractionState_eqb.
    destruct (InteractionState_eq_dec (App.interactionState s) ROTATING); congruence. }
  rewrite E in Hrot. cbv zeta in Hrot.
  destruct (hold_CLOSED_rotating ticks s1 (ndcOf k0) Hs1 Hl1 Hrest)
    as (s' & Hrun & Hs' & Hsame' & Hrot').
  exists s'. rewrite hold_cons, Ht. cbn [JS.bind].
  split; [exact Hrun |]. split; [exact Hs' |].
  split; [eapply sameVoxels_trans; eauto |].
  rewrite Hrot'. cbv zeta. rewrite Hrot, last_map.
  destruct (ndcOf k0) as [fx fy]. simpl. f_equal; ring.
Qed.

Lemma rotation_follows_the_fist_witness :
  exists s',
    hold CLOSED [pointTick (5 / 10) (5 / 10) 0; pointTick (3 / 10) (5 / 10) 40;
                 pointTick (4 / 10) (5 / 10) 80] (App.init None) = Some s' /\
    VoxelWorld.scene_rotation (App.world s') = Vec3.mk 0 (7 / 10) 0.
Proof.
  destruct (rotation_follows_the_fist (pointTick (5 / 10) (5 / 10) 0)
              [pointTick (3 / 10) (5 / 10) 40; pointTick (4 / 10) (5 / 10) 80]
              (App.init None)) as (s' & H1 & _ & _ & H2).
  - simpl. discriminate.
  - repeat (constructor; [unfold hasPointer; simpl; discriminate |]). constructor.
  - exists s'. split; [exact H1 |]. rewrite H2.
    unfold ndcOf, App.ndcXOf, App.ndcYOf. simpl. f_equal; lra.
Defined.

(** *** The two seconds of a placement *)

Lemma hold_app (gesture : Gesture) (l1 l2 : list Tick) (s : App.t) :
  hold gesture (l1 ++ l2) s = (s1 <- hold gesture l1 s ;; hold gesture l2 s1).
Proof.
  revert s. induction l1 as [|k l1 IH]; intros s; [reflexivity |].
  change ((k :: l1) ++ l2) with (k :: (l1 ++ l2)).
  rewrite !hold_cons. destruct (tick gesture k s) as [s1|]; [| reflexivity].
  cbn [JS.bind]. apply IH.
Qed.

(** The frame that starts a pinch. *)
Lemma tick_PINCH_start (k : Tick) (s : App.t) :
  App.interactionState s = IDLE \/ App.interactionState s = UNDO_WAIT
  \/ App.interactionState s = UNDO_COMPLETE ->
  hasPointer k ->
  exists s1,
    tick PINCH k s = Some s1 /\
    App.interactionState s1 = DRAW_WAIT /\
    App.pinchStartTime s1 = tk_now k /\
    App.blockPlacedThisPinch s1 = false /\
    sameVoxels s s1.
Proof.
  intros Hs Hp. unfold hasPointer in Hp. unfold tick, App.handleInteraction.
  destruct (App.pointer (tk_hand k) (tk_landmarks k)) as [point|]; [| congruence].
  cbn [JS.bind]. cbv zeta.
  destruct (updateCursorFromHand_keeps (tk_ray k) (App.world s)) as (Hv & Hh & _).
  set (w0 := snd (VoxelWorld.updateCursorFromHand (tk_ray k) (App.world s))) in *.
  destruct s as [w r lg pm lp lct pst ust st bp]. simpl in *.
  destruct Hs as [-> | [-> | ->]]; unfold App.stateAction; simpl;
    rewrite Z.sub_diag; simpl;
    (eexists; split; [reflexivity |]; unfold sameVoxels; simpl; auto).
Qed.

(** A frame of the wait, and the frame on which the delay has passed. *)
Lemma tick_PINCH_waiting (k : Tick) (s : App.t) :
  App.interactionState s = DRAW_WAIT ->
  App.blockPlacedThisPinch s = false ->
  hasPointer k ->
  exists s1,
    tick PINCH k s = Some s1 /\
    App.pinchStartTime s1 = App.pinchStartTime s /\
    if (2000 <? tk_now k - App.pinchStartTime s)%Z then
      let c := VoxelWorld.createVoxelAtCursor
                 (snd (VoxelWorld.updateCursorFromHand (tk_ray k) (App.world s))) in
      App.world s1 = snd c /\
      App.interactionState s1 = (if fst c then BLOCK_PLACED else DRAW_WAIT)
    else
      App.interactionState s1 = DRAW_WAIT /\
      App.blockPlacedThisPinch s1 = false /\
      sameVoxels s s1.
Proof.
  intros Hs Hb Hp. unfold hasPointer in Hp. unfold tick, App.handleInteraction.
  destruct (App.pointer (tk_hand k) (tk_landmarks k)) as [point|]; [| congruence].
  cbn [JS.bind]. cbv zeta.
  destruct (updateCursorFromHand_keeps (tk_ray k) (App.world s)) as (Hv & Hh & _).
  set (w0 := snd (VoxelWorld.updateCursorFromHand (tk_ray k) (App.world s))) in *.
  destruct s as [w r lg pm lp lct pst ust st bp]. simpl in *. subst st bp.
  unfold App.stateAction. simpl.
  destruct (2000 <? tk_now k - pst)%Z; simpl.
  - destruct (VoxelWorld.createVoxelAtCursor w0) as [placed w'] eqn:Ec.
    destruct placed; simpl; (eexists; split; [reflexivity |]; simpl; auto).
  - eexists. split; [reflexivity |]. unfold sameVoxels. simpl. auto.
Qed.

Lemma hold_PINCH_waiting (ticks : list Tick) (start : Z) :
  forall s,
    App.interactionState s = DRAW_WAIT ->
    App.blockPlacedThisPinch s = false ->
    App.pinchStartTime s = start ->
    Forall hasPointer ticks ->
    Forall (fun t => (tk_now t - start <= 2000)%Z) ticks ->
    exists s1,
      hold PINCH ticks s = Some s1 /\
      App.interactionState s1 = DRAW_WAIT /\
      App.blockPlacedThisPinch s1 = false /\
      App.pinchStartTime s1 = start /\
      sameVoxels s s1.
Proof.
  induction ticks as [|k ticks IH]; intros s Hs Hb Hst Hp Ht.
  - exists s. repeat split; auto.
  - inversion Hp as [|? ? Hk Hrest]; subst.
    inversion Ht as [|? ? Hkt Htrest]; subst.
    destruct (tick_PINCH_waiting k s Hs Hb Hk) as (s1 & Htick & Hst1 & Hcase).
    destruct (2000 <? tk_now k - App.pinchStartTime s)%Z eqn:E; [apply Z.ltb_lt in E; lia |].
    destruct Hcase as (Hs1 & Hb1 & Hsame).
    destruct (IH s1 Hs1 Hb1 Hst1 Hrest Htrest) as (s2 & Hrun & Hs2 & Hb2 & Hst2 & Hsame2).
    exists s2. rewrite hold_cons, Htick. cbn [JS.bind].
    repeat split; auto; try congruence.
    + destruct Hsame, Hsame2. congruence.
    + destruct Hsame, Hsame2. congruence.
Qed.

Lemma updateCursorFromHand_reads_voxels (ray : RayResult) (a b : VoxelWorld.t) :
  VoxelWorld.voxels a = VoxelWorld.voxels b ->
  fst (VoxelWorld.updateCursorFromHand ray a) = fst (VoxelWorld.updateCursorFromHand ray b) /\
  VoxelWorld.cursor_position (snd (VoxelWorld.updateCursorFromHand ray a))
  = match fst (VoxelWorld.updateCursorFromHand ray b) with
    | Some cell => cell
    | None => VoxelWorld.cursor_position a
    end.
Proof. intros H. destruct ray; simpl; rewrite ?H; auto. Qed.

(** X13.  Holding a pinch over the floor places one voxel after two
    seconds, not before.  With numbers taken as exact reals, as
    everywhere in this model, and in a sound world whose voxel heights
    are below 2^53 in magnitude (where the floor cell is free in
    binary64 as well): from a state outside a pinch, rotation or zoom,
    the first PINCH frame starts the timer; the frames up to 2000 ms
    after it place nothing; the first frame later than that, with the
    ray on the floor, places one cyan voxel in the cell the cursor
    resolves to and logs it. *)
Theorem pinch_held_two_seconds
    (k0 : Tick) (ticks : list Tick) (k : Tick) (point : Vec3.t) (s : App.t) :
  wellKeyed (App.world s) ->
  heightsInRange (App.world s) ->
  App.interactionState s = IDLE \/ App.interactionState s = UNDO_WAIT
  \/ App.interactionState s = UNDO_COMPLETE ->
  Forall hasPointer (k0 :: ticks ++ [k]) ->
  Forall (fun t => (tk_now t - tk_now k0 <= 2000)%Z) ticks ->
  (2000 < tk_now k - tk_now k0)%Z ->
  tk_ray k = PlaneHit point ->
  exists s1 s' cell,
    hold PINCH (k0 :: ticks) s = Some s1 /\
    sameVoxels s s1 /\
    App.interactionState s1 = DRAW_WAIT /\
    hold PINCH (k0 :: ticks ++ [k]) s = Some s' /\
    App.interactionState s' = BLOCK_PLACED /\
    fst (VoxelWorld.updateCursorFromHand (PlaneHit point) (App.world s)) = Some cell /\
    VoxelWorld.voxels (App.world s')
    = VoxelWorld.voxels (App.world s) ++ [(key_of cell, Mesh.mk cell VoxelWorld.cyan)] /\
    VoxelWorld.history (App.world s')
    = VoxelWorld.history (App.world s) ++ [Action.mk ADD (key_of cell) cell VoxelWorld.cyan].
Proof.
  intros Hw _ Hs Hp Hearly Hlate Hray.
  inversion Hp as [|? ? Hk0 Hrest]; subst.
  apply Forall_app in Hrest. destruct Hrest as [Hticks Hk].
  inversion Hk as [|? ? Hk' _]; subst.
  destruct (tick_PINCH_start k0 s Hs Hk0) as (s0 & Ht0 & Hs0 & Hst0 & Hb0 & Hsame0).
  destruct (hold_PINCH_waiting ticks (tk_now k0) s0 Hs0 Hb0 Hst0 Hticks Hearly)
    as (s1 & Hrun1 & Hs1 & Hb1 & Hst1 & Hsame1).
  pose proof (sameVoxels_trans _ _ _ Hsame0 Hsame1) as [Hv Hh].
  destruct (tick_PINCH_waiting k s1 Hs1 Hb1 Hk') as (s' & Htick & _ & Hcase).
  rewrite Hst1 in Hcase.
  destruct (2000 <? tk_now k - tk_now k0)%Z eqn:E; [| apply Z.ltb_ge in E; lia].
  cbv zeta in Hcase. rewrite Hray in Hcase. destruct Hcase as [Hw' Hs'].
  assert (Hkeyed : Forall (fun entry => fst entry = key_of (Mesh.position (snd entry)))
                          (VoxelWorld.voxels (App.world s1))).
  { rewrite Hv. apply Hw. }
  pose proof (floor_cursor_unoccupied (App.world s1) point Hkeyed) as Hfree.
  cbv zeta in Hfree.
  destruct (updateCursorFromHand_reads_voxels (PlaneHit point) (App.world s1) (App.world s) Hv)
    as [_ Hcell].
  set (w1 := snd (VoxelWorld.updateCursorFromHand (PlaneHit point) (App.world s1))) in *.
  destruct (updateCursorFromHand_keeps (PlaneHit point) (App.world s1)) as (Hv1 & Hh1 & _).
  fold w1 in Hv1, Hh1.
  assert (Hc : VoxelWorld.createVoxelAtCursor w1
               = (true, snd (VoxelWorld.createVoxelAtCursor w1))).
  { unfold VoxelWorld.createVoxelAtCursor.
    replace (VoxelWorld.cursorVisible w1) with true by reflexivity.
    simpl negb. cbv iota. rewrite Hfree. reflexivity. }
  pose proof (createVoxelAtCursor_placed _ _ Hc) as [Hpv Hph]. cbv zeta in Hpv, Hph.
  rewrite Hc in Hs'. simpl in Hs'.
  destruct (fst (VoxelWorld.updateCursorFromHand (PlaneHit point) (App.world s)))
    as [cell|] eqn:Ecell; [| discriminate Ecell].
  exists s1, s', cell.
  split; [rewrite hold_cons, Ht0; exact Hrun1 |].
  split; [split; assumption |].
  split; [exact Hs1 |].
  split.
  { change (k0 :: ticks ++ [k]) with ((k0 :: ticks) ++ [k]).
    rewrite hold_app, hold_cons, Ht0. cbn [JS.bind]. rewrite Hrun1. cbn [JS.bind].
    rewrite hold_cons, Htick. reflexivity. }
  split; [exact Hs' |].
  split; [reflexivity |].
  rewrite Hw', Hpv, Hph, Hcell, Hv1, Hh1, Hv, Hh. auto.
Qed.

Lemma pinch_held_two_seconds_witness :
  exists s1 s' cell,
    hold PINCH [plainTick 0 NoHit; plainTick 1500 NoHit] (App.init None) = Some s1 /\
    sameVoxels (App.init None) s1 /\
    App.interactionState s1 = DRAW_WAIT /\
    hold PINCH ([plainTick 0 NoHit; plainTick 1500 NoHit]
                  ++ [plainTick 2001 (PlaneHit (Vec3.mk 0 0 0))]) (App.init None)
    = Some s' /\
    App.interactionState s' = BLOCK_PLACED /\
    fst (VoxelWorld.updateCursorFromHand (PlaneHit (Vec3.mk 0 0 0))
           (App.world (App.init None))) = Some cell /\
    VoxelWorld.voxels (App.world s') = [(key_of cell, Mesh.mk cell VoxelWorld.cyan)] /\
    VoxelWorld.history (App.world s') = [Action.mk ADD (key_of cell) cell VoxelWorld.cyan].
Proof.
  apply (pinch_held_two_seconds (plainTick 0 NoHit) [plainTick 1500 NoHit]
           (plainTick 2001 (PlaneHit (Vec3.mk 0 0 0))) (Vec3.mk 0 0 0) (App.init None)).
  - exact wellKeyed_constructor.
  - constructor.
  - left. reflexivity.
  - repeat (constructor; [apply hasPointer_plainTick |]). constructor.
  - constructor; [simpl; lia | constructor].
  - simpl. lia.
  - reflexivity.
Defined.

(** ** The classifier on any hand *)

Lemma analyzeHand_long (r : GestureRecognizer.t) (h : Hand) :
  (21 <= length h)%nat ->
  GestureRecognizer.analyzeHand r h
  = let p := GestureRecognizer.pose (GestureRecognizer.pinchThreshold r)
               (lm h 0) (lm h 2) (lm h 4) (lm h 5) (lm h 8) (lm h 9) (lm h 12)
               (lm h 13) (lm h 16) (lm h 17) (lm h 20) in
    let buf := JS.push_bounded GestureRecognizer.positionBufferSize
                 (GestureRecognizer.positionBuffer r)
                 (GestureRecognizer.rawPinchCenter (lm h 4) (lm h 8)) in
    Some (GestureRecognizer.mkHandAnalysis
            (GestureRecognizer.label p) (GestureRecognizer.p_isPinching p)
            (GestureRecognizer.p_isFist p) (lm h 9) (GestureRecognizer.average buf),
          GestureRecognizer.mk (GestureRecognizer.history r)
            (GestureRecognizer.pinchThreshold r) (GestureRecognizer.gestureHistory r)
            (GestureRecognizer.lastStableGesture r) buf).
Proof.
  intros H. do 21 (destruct h as [|? h]; [simpl in H; lia |]). reflexivity.
Qed.

Lemma analyzeHand_short (r : GestureRecognizer.t) (h : Hand) :
  (length h < 21)%nat -> GestureRecognizer.analyzeHand r h = None.
Proof.
  intros H. unfold GestureRecognizer.analyzeHand, at_index.
  assert (E : nth_error h 20 = None) by (apply nth_error_None; lia).
  destruct (nth_error h 4); [| reflexivity]. cbn [JS.bind].
  destruct (nth_error h 8); [| reflexivity]. cbn [JS.bind].
  destruct (nth_error h 12); [| reflexivity]. cbn [JS.bind].
  destruct (nth_error h 16); [| reflexivity]. cbn [JS.bind].
  rewrite E. reflexivity.
Qed.

(** The fist test excludes the thumbs-up and the victory tests. *)
Lemma pose_fist_exclusive
    (thr : R) (w l2 t l5 i l9 m l13 rg l17 pk : Landmark) :
  let p := GestureRecognizer.pose thr w l2 t l5 i l9 m l13 rg l17 pk in
  GestureRecognizer.p_isFist p = true ->
  GestureRecognizer.p_isThumbsUp p = false /\
  GestureRecognizer.p_victoryCondition p = false.
Proof.
  unfold GestureRecognizer.pose. cbv zeta.
  cbn [GestureRecognizer.p_isFist GestureRecognizer.p_isThumbsUp
       GestureRecognizer.p_victoryCondition].
  set (ic := JS.lt (GestureRecognizer.dist i w) _).
  set (mc := JS.lt (GestureRecognizer.dist m w) _).
  set (rc := JS.lt (GestureRecognizer.dist rg w) _).
  set (pc := JS.lt (GestureRecognizer.dist pk w) _).
  intros H. apply andb_true_iff in H. destruct H as [Hc Ht].
  split.
  - destruct (JS.gt (GestureRecognizer.dist t w) _) eqn:G;
      [| rewrite andb_false_r; reflexivity].
    apply gt_spec in G. apply lt_spec in Ht.
    pose proof (dist_nonneg l2 w). lra.
  - rewrite Ht. destruct ic, mc, rc, pc; simpl in Hc; try discriminate; reflexivity.
Qed.

(** X14.  What [analyzeHand] answers.  A hand with fewer than 21
    landmarks makes it throw; any hand with 21 or more is classified,
    always as one of PINCH, THUMBS_UP, VICTORY, CLOSED, OPEN_PALM
    (never UNKNOWN or NONE), and the flags of the analysis agree with
    the label: [isPinching] holds exactly for PINCH, a CLOSED hand has
    [isFist], and a hand with [isFist] is CLOSED unless the pinch test
    took precedence. *)
Theorem analyzeHand_classifies (r : GestureRecognizer.t) (h : Hand) :
  ((length h < 21)%nat -> GestureRecognizer.analyzeHand r h = None) /\
  ((21 <= length h)%nat ->
   exists a r',
     GestureRecognizer.analyzeHand r h = Some (a, r') /\
     rawLabel (GestureRecognizer.gesture a) /\
     (GestureRecognizer.isPinching a = true <-> GestureRecognizer.gesture a = PINCH) /\
     (GestureRecognizer.gesture a = CLOSED -> GestureRecognizer.isFist a = true) /\
     (GestureRecognizer.isFist a = true ->
      GestureRecognizer.gesture a = CLOSED \/ GestureRecognizer.gesture a = PINCH)).
Proof.
  split; [apply analyzeHand_short |].
  intros H. rewrite (analyzeHand_long r h H). cbv zeta.
  eexists. eexists. split; [reflexivity |].
  cbn [GestureRecognizer.gesture GestureRecognizer.isPinching GestureRecognizer.isFist].
  pose proof (pose_fist_exclusive (GestureRecognizer.pinchThreshold r)
                (lm h 0) (lm h 2) (lm h 4) (lm h 5) (lm h 8) (lm h 9) (lm h 12)
                (lm h 13) (lm h 16) (lm h 17) (lm h 20)) as Hex.
  cbv zeta in Hex.
  set (p := GestureRecognizer.pose _ _ _ _ _ _ _ _ _ _ _ _) in *.
  unfold GestureRecognizer.label, rawLabel.
  destruct (GestureRecognizer.p_isPinching p);
    [repeat split; auto 6; try discriminate; try tauto |].
  destruct (GestureRecognizer.p_isFist p).
  - destruct (Hex eq_refl) as [-> ->].
    repeat split; auto 6; try discriminate; try tauto.
  - destruct (GestureRecognizer.p_isThumbsUp p);
      [repeat split; auto 6; try discriminate; try tauto |].
    destruct (GestureRecognizer.p_victoryCondition p);
      [repeat split; auto 6; try discriminate; try tauto |].
    destruct (GestureRecognizer.p_isOpen p);
      repeat split; auto 6; try discriminate; try tauto.
Qed.

Lemma analyzeHand_classifies_witness :
  GestureRecognizer.analyzeHand (GestureRecognizer.constructor None) [] = None /\
  exists a r',
    GestureRecognizer.analyzeHand (GestureRecognizer.constructor None) fistHand
    = Some (a, r') /\
    rawLabel (GestureRecognizer.gesture a).
Proof.
  split.
  - apply (proj1 (analyzeHand_classifies (GestureRecognizer.constructor None) [])).
    simpl. lia.
  - destruct (proj2 (analyzeHand_classifies (GestureRecognizer.constructor None) fistHand))
      as (a & r' & H1 & H2 & _).
    + simpl. lia.
    + exists a, r'. split; assumption.
Defined.

(** *** Moving the hand *)

Lemma dist_translate (p q v : Vec3.t) :
  GestureRecognizer.dist (Vec3.add p v) (Vec3.add q v) = GestureRecognizer.dist p q.
Proof. unfold GestureRecognizer.dist. simpl. f_equal. ring. Qed.

Lemma lt_translate (a b c : R) : JS.lt (a + c) (b + c) = JS.lt a b.
Proof.
  unfold JS.lt. destruct (Rlt_dec (a + c) (b + c)), (Rlt_dec a b); auto; exfalso; lra.
Qed.

Lemma pose_translate (thr : R) (v w l2 t l5 i l9 m l13 rg l17 pk : Landmark) :
  GestureRecognizer.pose thr (Vec3.add w v) (Vec3.add l2 v) (Vec3.add t v)
    (Vec3.add l5 v) (Vec3.add i v) (Vec3.add l9 v) (Vec3.add m v) (Vec3.add l13 v)
    (Vec3.add rg v) (Vec3.add l17 v) (Vec3.add pk v)
  = GestureRecognizer.pose thr w l2 t l5 i l9 m l13 rg l17 pk.
Proof.
  unfold GestureRecognizer.pose. cbv zeta. rewrite !dist_translate.
  replace (Vec3.y (Vec3.add t v)) with (Vec3.y t + Vec3.y v) by reflexivity.
  replace (Vec3.y (Vec3.add l5 v)) with (Vec3.y l5 + Vec3.y v) by reflexivity.
  rewrite lt_translate. reflexivity.
Qed.

(** X15.  The label of a hand does not depend on where the hand is: a
    hand moved as a whole, by any vector, gets the same label (and an
    incomplete hand throws wherever it is). *)
Theorem label_is_translation_invariant
    (r : GestureRecognizer.t) (v : Vec3.t) (h : Hand) :
  gestureOf r (translateHand v h) = gestureOf r h.
Proof.
  unfold gestureOf.
  destruct (le_lt_dec 21 (length h)) as [H | H].
  - assert (H' : (21 <= length (translateHand v h))%nat)
      by (unfold translateHand; rewrite length_map; exact H).
    rewrite (analyzeHand_long r _ H'), (analyzeHand_long r h H). cbv zeta. simpl.
    assert (L : forall n, (n < 21)%nat -> lm (translateHand v h) n = Vec3.add (lm h n) v).
    { intros n Hn. unfold lm, translateHand.
      rewrite (nth_indep (map (fun p => Vec3.add p v) h) (Vec3.mk 0 0 0)
                 (Vec3.add (Vec3.mk 0 0 0) v))
        by (rewrite length_map; apply Nat.lt_le_trans with (m := 21%nat); assumption).
      apply (map_nth (fun p => Vec3.add p v)). }
    rewrite !L by lia. rewrite pose_translate. reflexivity.
  - rewrite (analyzeHand_short r h H).
    rewrite analyzeHand_short; [reflexivity |].
    unfold translateHand. rewrite length_map. exact H.
Qed.

(** ** The recogniser from frame to frame *)

Lemma push_bounded_length {A} (n : nat) (buf : list A) (v : A) :
  (length buf <= n)%nat -> (length (JS.push_bounded n buf v) <= n)%nat.
Proof.
  intros H. unfold JS.push_bounded.
  destruct (n <? length (buf ++ [v]))%nat eqn:E.
  - destruct buf as [|a buf]; simpl in *; [lia |].
    rewrite length_app in *. simpl in *. lia.
  - apply Nat.ltb_ge in E. exact E.
Qed.

Lemma push_bounded_Forall {A} (P : A -> Prop) (n : nat) (buf : list A) (v : A) :
  Forall P buf -> P v -> Forall P (JS.push_bounded n buf v).
Proof.
  intros Hb Hv. unfold JS.push_bounded.
  assert (H : Forall P (buf ++ [v])) by (apply Forall_app; split; auto).
  destruct (n <? length (buf ++ [v]))%nat; [| exact H].
  destruct (buf ++ [v]); simpl; [constructor |]. now inversion H.
Qed.

(** What [analyzeHand] does to the instance. *)
Lemma analyzeHand_facts (r : GestureRecognizer.t) (h : Hand) :
  (21 <= length h)%nat ->
  exists a,
    GestureRecognizer.analyzeHand r h
    = Some (a, GestureRecognizer.mk (GestureRecognizer.history r)
                 (GestureRecognizer.pinchThreshold r) (GestureRecognizer.gestureHistory r)
                 (GestureRecognizer.lastStableGesture r)
                 (JS.push_bounded GestureRecognizer.positionBufferSize
                    (GestureRecognizer.positionBuffer r)
                    (GestureRecognizer.rawPinchCenter (lm h 4) (lm h 8)))) /\
    rawLabel (GestureRecognizer.gesture a) /\
    GestureRecognizer.center a = lm h 9 /\
    GestureRecognizer.pinchCenter a
    = GestureRecognizer.average
        (JS.push_bounded GestureRecognizer.positionBufferSize
           (GestureRecognizer.positionBuffer r)
           (GestureRecognizer.rawPinchCenter (lm h 4) (lm h 8))).
Proof.
  intros H. rewrite (analyzeHand_long r h H). cbv zeta.
  eexists. split; [reflexivity |]. simpl. split; [| split; reflexivity].
  unfold GestureRecognizer.label, rawLabel.
  repeat match goal with |- context [if ?b then _ else _] => destruct b end; auto 6.
Qed.

Lemma analyzeHands_facts (hands : list Hand) :
  forall r, Forall (fun h => (21 <= length h)%nat) hands ->
    exists analyses buf,
      GestureRecognizer.analyzeHands r hands
      = Some (analyses,
              GestureRecognizer.mk (GestureRecognizer.history r)
                (GestureRecognizer.pinchThreshold r) (GestureRecognizer.gestureHistory r)
                (GestureRecognizer.lastStableGesture r) buf) /\
      length analyses = length hands /\
      Forall (fun a => rawLabel (GestureRecognizer.gesture a)) analyses /\
      ((length (GestureRecognizer.positionBuffer r)
        <= GestureRecognizer.positionBufferSize)%nat ->
       (length buf <= GestureRecognizer.positionBufferSize)%nat).
Proof.
  induction hands as [|h hands IH]; intros r Hl.
  - exists [], (GestureRecognizer.positionBuffer r). destruct r. simpl. auto.
  - inversion Hl as [|? ? Hh Hrest]; subst.
    destruct (analyzeHand_facts r h Hh) as (a & Ha & Hraw & _).
    set (r1 := GestureRecognizer.mk _ _ _ _ _) in Ha.
    destruct (IH r1 Hrest) as (analyses & buf & Has & Hlen & Hall & Hcap).
    exists (a :: analyses), buf. simpl. rewrite Ha. cbn [JS.bind snd fst].
    rewrite Has. cbn [JS.bind snd fst].
    split; [reflexivity |]. split; [simpl; congruence |].
    split; [constructor; auto |].
    intros Hb. apply Hcap. simpl. now apply push_bounded_length.
Qed.

Lemma twoHandGesture_zoom (hands : list GestureRecognizer.HandAnalysis) (z : Gesture) :
  GestureRecognizer.twoHandGesture hands = Some z -> z = ZOOM_IN \/ z = ZOOM_OUT.
Proof.
  unfold GestureRecognizer.twoHandGesture.
  destruct hands as [|h1 [|h2 [|h3 rest]]]; try discriminate.
  destruct (_ && _); [intros H; injection H as <-; now left |].
  destruct (_ || _); [intros H; injection H as <-; now right | discriminate].
Qed.

Lemma swipeOf_swipe (palms : list Landmark) (g sw : Gesture) :
  GestureRecognizer.swipeOf palms g = Some sw ->
  (sw = SWIPE_LEFT \/ sw = SWIPE_RIGHT) /\ g = OPEN_PALM /\
  length palms = GestureRecognizer.historySize.
Proof.
  unfold GestureRecognizer.swipeOf.
  destruct (length palms =? GestureRecognizer.historySize)%nat eqn:El; [| discriminate].
  apply Nat.eqb_eq in El.
  destruct (at_index palms 0); [| discriminate].
  destruct (at_index palms (length palms - 1)); [| discriminate].
  destruct (_ && _); [| discriminate].
  destruct (Gesture_eqb g OPEN_PALM) eqn:Eg; [| discriminate].
  apply Gesture_eqb_eq in Eg.
  intros H. injection H as <-. destruct (JS.gt _ 0); auto.
Qed.

(** The three ways [update] ends when it is given hands. *)
Lemma update_cases (r : GestureRecognizer.t) (hand0 : Hand) (others : list Hand) :
  Forall (fun h => (21 <= length h)%nat) (hand0 :: others) ->
  exists a0 rest buf,
    let r1 := GestureRecognizer.mk (GestureRecognizer.history r)
                (GestureRecognizer.pinchThreshold r) (GestureRecognizer.gestureHistory r)
                (GestureRecognizer.lastStableGesture r) buf in
    let palms := JS.push_bounded GestureRecognizer.historySize
                   (GestureRecognizer.history r) (GestureRecognizer.center a0) in
    let labels := JS.push_bounded GestureRecognizer.gestureHistorySize
                    (GestureRecognizer.gestureHistory r) (GestureRecognizer.gesture a0) in
    GestureRecognizer.analyzeHands r (hand0 :: others) = Some (a0 :: rest, r1) /\
    rawLabel (GestureRecognizer.gesture a0) /\
    ((length (GestureRecognizer.positionBuffer r)
      <= GestureRecognizer.positionBufferSize)%nat ->
     (length buf <= GestureRecognizer.positionBufferSize)%nat) /\
    ((exists z, (z = ZOOM_IN \/ z = ZOOM_OUT) /\
        GestureRecognizer.update r (Some (hand0 :: others))
        = Some (GestureRecognizer.mkResult z None (Some (a0 :: rest)), r1)) \/
     (exists sw, (sw = SWIPE_LEFT \/ sw = SWIPE_RIGHT) /\
        GestureRecognizer.gesture a0 = OPEN_PALM /\
        length palms = GestureRecognizer.historySize /\
        GestureRecognizer.update r (Some (hand0 :: others))
        = Some (GestureRecognizer.mkResult sw (Some a0) None,
                GestureRecognizer.mk palms (GestureRecognizer.pinchThreshold r)
                  (GestureRecognizer.gestureHistory r)
                  (GestureRecognizer.lastStableGesture r) buf)) \/
     (exists st,
        GestureRecognizer.update r (Some (hand0 :: others))
        = Some (GestureRecognizer.mkResult st (Some a0) None,
                GestureRecognizer.mk palms (GestureRecognizer.pinchThreshold r)
                  labels st buf) /\
        (forall X, dominant X labels -> st = X) /\
        (st = GestureRecognizer.lastStableGesture r \/ dominant st labels))).
Proof.
  intros Hl.
  destruct (analyzeHands_facts (hand0 :: others) r Hl)
    as (analyses & buf & Has & Hlen & Hall & Hcap).
  destruct analyses as [|a0 rest]; [discriminate Hlen |].
  inversion Hall as [|? ? Hraw _]; subst.
  exists a0, rest, buf. cbv zeta.
  split; [exact Has |]. split; [exact Hraw |]. split; [exact Hcap |].
  unfold GestureRecognizer.update. rewrite Has. cbn [JS.bind fst snd].
  destruct (GestureRecognizer.twoHandGesture (a0 :: rest)) as [z|] eqn:Ez.
  - left. exists z. split; [exact (twoHandGesture_zoom _ _ Ez) | reflexivity].
  - right. cbn [at_index nth_error JS.bind]. simpl GestureRecognizer.history.
    cbn [GestureRecognizer.pinchThreshold GestureRecognizer.gestureHistory
         GestureRecognizer.lastStableGesture GestureRecognizer.positionBuffer].
    destruct (GestureRecognizer.swipeOf _ (GestureRecognizer.gesture a0)) as [sw|] eqn:Es.
    + left. exists sw. destruct (swipeOf_swipe _ _ _ Es) as (H1 & H2 & H3).
      repeat split; auto.
    + right.
      destruct (stabilize_spec
                  (GestureRecognizer.mk
                     (JS.push_bounded GestureRecognizer.historySize
                        (GestureRecognizer.history r) (GestureRecognizer.center a0))
                     (GestureRecognizer.pinchThreshold r)
                     (GestureRecognizer.gestureHistory r)
                     (GestureRecognizer.lastStableGesture r) buf)
                  (GestureRecognizer.gesture a0)) as (st & Hst & Hdom & Hkeep).
      cbv zeta in Hst, Hdom, Hkeep. simpl in Hst, Hdom, Hkeep.
      exists st. rewrite Hst. cbn [JS.bind fst snd].
      split; [reflexivity |]. split; assumption.
Qed.

Lemma dominant_In (g : Gesture) (buf : list Gesture) :
  buf <> [] -> dominant g buf -> In g buf.
Proof.
  intros Hne Hd. apply (count_occ_In Gesture_eq_dec).
  unfold dominant, occurrences in Hd.
  destruct buf; [congruence |]. simpl length in Hd. lia.
Qed.

Lemma dominant_single (g : Gesture) : dominant g [g].
Proof.
  unfold dominant, occurrences. simpl.
  destruct (Gesture_eq_dec g g); [lia | congruence].
Qed.

Lemma rawLabel_named (g : Gesture) : rawLabel g -> g <> NONE /\ g <> UNKNOWN.
Proof. intros [-> | [-> | [-> | [-> | ->]]]]; split; discriminate. Qed.

Lemma seeded_constructor (personalizedPinch : option R) :
  seeded (GestureRecognizer.constructor personalizedPinch).
Proof. split; [constructor | now left]. Qed.

(** In a reachable state the label the stabiliser settles on is the
    label of a hand. *)
Lemma stable_is_raw (r : GestureRecognizer.t) (g st : Gesture) :
  seeded r -> rawLabel g ->
  let labels := JS.push_bounded GestureRecognizer.gestureHistorySize
                  (GestureRecognizer.gestureHistory r) g in
  (forall X, dominant X labels -> st = X) ->
  (st = GestureRecognizer.lastStableGesture r \/ dominant st labels) ->
  Forall rawLabel labels /\ rawLabel st.
Proof.
  intros [Hall Hlast] Hraw labels Hdom Hkeep.
  assert (Hlabels : Forall rawLabel labels) by (apply push_bounded_Forall; assumption).
  split; [exact Hlabels |].
  destruct Hkeep as [Hk | Hk].
  - destruct Hlast as [Hempty | Hr]; [| now rewrite Hk].
    assert (E : labels = [g]) by (unfold labels; rewrite Hempty; reflexivity).
    rewrite (Hdom g); [exact Hraw |].
    rewrite E. apply dominant_single.
  - rewrite Forall_forall in Hlabels. apply Hlabels.
    apply dominant_In; [| exact Hk].
    apply push_bounded_nonempty. unfold GestureRecognizer.gestureHistorySize. lia.
Qed.

(** X16.  With a hand in view [update] always names a gesture.  In any
    state a new recogniser can reach, a frame with at least one
    complete hand returns a result whose gesture is a hand label, a
    zoom or a swipe, never NONE or UNKNOWN, so that the stable label
    cannot fall back to NONE while hands are tracked. *)
Theorem update_names_a_gesture
    (r : GestureRecognizer.t) (hand0 : Hand) (others : list Hand) :
  seeded r ->
  Forall (fun h => (21 <= length h)%nat) (hand0 :: others) ->
  exists res r',
    GestureRecognizer.update r (Some (hand0 :: others)) = Some (res, r') /\
    GestureRecognizer.r_gesture res <> NONE /\
    GestureRecognizer.r_gesture res <> UNKNOWN /\
    seeded r'.
Proof.
  intros [Hall Hlast] Hl.
  destruct (update_cases r hand0 others Hl) as (a0 & rest & buf & _ & Hraw & _ & Hcases).
  destruct Hcases as [(z & Hz & Hu) | [(sw & Hsw & _ & _ & Hu) | (st & Hu & Hdom & Hkeep)]].
  - eexists. eexists. split; [exact Hu |]. simpl.
    split; [destruct Hz as [-> | ->]; discriminate |].
    split; [destruct Hz as [-> | ->]; discriminate |].
    split; assumption.
  - eexists. eexists. split; [exact Hu |]. simpl.
    split; [destruct Hsw as [-> | ->]; discriminate |].
    split; [destruct Hsw as [-> | ->]; discriminate |].
    split; assumption.
  - destruct (stable_is_raw r (GestureRecognizer.gesture a0) st (conj Hall Hlast) Hraw
                Hdom Hkeep) as [Hlabels Hst].
    eexists. eexists. split; [exact Hu |]. simpl.
    destruct (rawLabel_named st Hst) as [H1 H2].
    split; [exact H1 |]. split; [exact H2 |].
    split; [exact Hlabels | right; exact Hst].
Qed.

Lemma update_names_a_gesture_witness :
  exists res r',
    GestureRecognizer.update (GestureRecognizer.constructor None) (Some [fistHand; palmHand])
    = Some (res, r') /\
    GestureRecognizer.r_gesture res <> NONE /\
    GestureRecognizer.r_gesture res <> UNKNOWN /\
    seeded r'.
Proof.
  apply update_names_a_gesture.
  - apply seeded_constructor.
  - constructor; [simpl; lia |]. constructor; [simpl; lia | constructor].
Defined.

Lemma withinCapacity_constructor (personalizedPinch : option R) :
  withinCapacity (GestureRecognizer.constructor personalizedPinch).
Proof. unfold withinCapacity. simpl. repeat split; apply Nat.le_0_l. Qed.

(** X17.  The buffers never outgrow their sizes, and the pinch
    threshold never changes.  Whatever the frame (no hand, one hand or
    several complete hands), after [update] the palm history holds at
    most 15 centres, the gesture buffer at most 10 labels and the
    position buffer at most 5 points if they did before, and the
    threshold is the one the constructor chose. *)
Theorem buffers_stay_within_capacity
    (r : GestureRecognizer.t) (landmarks : option (list Hand)) :
  withinCapacity r ->
  (forall hands, landmarks = Some hands -> Forall (fun h => (21 <= length h)%nat) hands) ->
  exists res r',
    GestureRecognizer.update r landmarks = Some (res, r') /\
    withinCapacity r' /\
    GestureRecognizer.pinchThreshold r' = GestureRecognizer.pinchThreshold r.
Proof.
  intros (Hh & Hg & Hp) Hl.
  destruct landmarks as [[|hand0 others]|];
    try (eexists; eexists; split; [reflexivity |]; split; [repeat split; assumption | reflexivity]).
  destruct (update_cases r hand0 others (Hl _ eq_refl))
    as (a0 & rest & buf & _ & _ & Hcap & Hcases).
  specialize (Hcap Hp).
  destruct Hcases as [(z & _ & Hu) | [(sw & _ & _ & _ & Hu) | (st & Hu & _)]];
    (eexists; eexists; split; [exact Hu |]; split; [| reflexivity]);
    unfold withinCapacity; simpl; repeat split;
    try assumption; apply push_bounded_length; assumption.
Qed.

Lemma buffers_stay_within_capacity_witness :
  exists res r',
    GestureRecognizer.update (GestureRecognizer.constructor None) (Some [palmHand])
    = Some (res, r') /\
    withinCapacity r' /\
    GestureRecognizer.pinchThreshold r'
    = GestureRecognizer.pinchThreshold (GestureRecognizer.constructor None).
Proof.
  apply buffers_stay_within_capacity.
  - apply withinCapacity_constructor.
  - intros hands H. injection H as <-. constructor; [simpl; lia | constructor].
Defined.

Lemma analyzeHand_Some_long (r r' : GestureRecognizer.t) (h : Hand)
    (a : GestureRecognizer.HandAnalysis) :
  GestureRecognizer.analyzeHand r h = Some (a, r') -> (21 <= length h)%nat.
Proof.
  intros H. destruct (le_lt_dec 21 (length h)) as [Hl | Hl]; [exact Hl |].
  rewrite (analyzeHand_short r h Hl) in H. discriminate.
Qed.

Lemma analyzeHands_Some_long (hands : list Hand) :
  forall r res, GestureRecognizer.analyzeHands r hands = Some res ->
    Forall (fun h => (21 <= length h)%nat) hands.
Proof.
  induction hands as [|h hands IH]; intros r res H; [constructor |].
  simpl in H.
  destruct (GestureRecognizer.analyzeHand r h) as [[a r1]|] eqn:Ea; [| discriminate].
  cbn [JS.bind snd fst] in H.
  destruct (GestureRecognizer.analyzeHands r1 hands) as [res1|] eqn:Eh; [| discriminate].
  constructor; [exact (analyzeHand_Some_long _ _ _ _ Ea) | exact (IH _ _ Eh)].
Qed.

(** X18.  A swipe is reported only for an open palm, and never enters
    the vote.  When [update] answers SWIPE_LEFT or SWIPE_RIGHT in a
    reachable state, the primary hand was classified OPEN_PALM, the
    palm history is full (15 centres), and the frame left the gesture
    buffer and the stable label as they were: the stabiliser neither
    sees the swipe nor the open palm behind it. *)
Theorem swipe_bypasses_the_stabiliser
    (r r' : GestureRecognizer.t) (hands : list Hand) (res : GestureRecognizer.Result) :
  seeded r ->
  GestureRecognizer.update r (Some hands) = Some (res, r') ->
  GestureRecognizer.r_gesture res = SWIPE_LEFT \/
  GestureRecognizer.r_gesture res = SWIPE_RIGHT ->
  (exists a, GestureRecognizer.r_hand res = Some a /\
             GestureRecognizer.gesture a = OPEN_PALM) /\
  length (GestureRecognizer.history r') = GestureRecognizer.historySize /\
  GestureRecognizer.gestureHistory r' = GestureRecognizer.gestureHistory r /\
  GestureRecognizer.lastStableGesture r' = GestureRecognizer.lastStableGesture r.
Proof.
  intros Hseed Hu Hsw.
  destruct hands as [|hand0 others].
  { simpl in Hu. injection Hu as <- <-. simpl in Hsw. destruct Hsw; discriminate. }
  assert (Hl : Forall (fun h => (21 <= length h)%nat) (hand0 :: others)).
  { unfold GestureRecognizer.update in Hu.
    destruct (GestureRecognizer.analyzeHands r (hand0 :: others)) as [hs|] eqn:E;
      [| discriminate].
    exact (analyzeHands_Some_long _ _ _ E). }
  destruct (update_cases r hand0 others Hl) as (a0 & rest & buf & _ & Hraw & _ & Hcases).
  destruct Hcases as [(z & Hz & Hu') | [(sw & _ & Hopen & Hfull & Hu') | (st & Hu' & Hdom & Hkeep)]];
    rewrite Hu' in Hu; injection Hu as <- <-; simpl in *.
  - destruct Hz as [-> | ->]; destruct Hsw; discriminate.
  - split; [exists a0; split; [reflexivity | exact Hopen] |].
    split; [exact Hfull |]. split; reflexivity.
  - destruct (stable_is_raw r (GestureRecognizer.gesture a0) st Hseed Hraw Hdom Hkeep)
      as [_ Hst].
    exfalso. destruct Hsw as [E | E]; rewrite E in Hst;
      destruct Hst as [H | [H | [H | [H | H]]]]; discriminate.
Qed.

Lemma swipeReady_swipes :
  exists a r',
    GestureRecognizer.update swipeReady (Some [palmHand])
    = Some (GestureRecognizer.mkResult SWIPE_RIGHT (Some a) None, r').
Proof.
  destruct (GestureRecognizer.analyzeHand swipeReady palmHand) as [[a1 r1]|] eqn:E1;
    [| rewrite analyzeHand_21 in E1 by reflexivity; discriminate E1].
  assert (G1 : GestureRecognizer.gesture a1 = OPEN_PALM).
  { pose proof (palmHand_OPEN swipeReady eq_refl) as H. unfold gestureOf in H.
    rewrite E1 in H. simpl in H. congruence. }
  assert (C1 : GestureRecognizer.center a1 = Vec3.mk (5 / 10) 0 0).
  { rewrite analyzeHand_21 in E1 by reflexivity. cbv zeta in E1.
    injection E1 as <- _. reflexivity. }
  assert (H1 : GestureRecognizer.history r1 = repeat (Vec3.mk 0 0 0) 14).
  { destruct (analyzeHand_inv _ _ _ _ E1) as (_ & H & _). exact H. }
  exists a1. eexists.
  unfold GestureRecognizer.update, GestureRecognizer.analyzeHands.
  rewrite E1. cbn [JS.bind fst snd GestureRecognizer.twoHandGesture at_index nth_error].
  rewrite G1, C1, H1.
  unfold GestureRecognizer.swipeOf, GestureRecognizer.swipeThreshold. simpl.
  js_decide. simpl. js_decide. reflexivity.
Qed.

Lemma swipe_bypasses_the_stabiliser_witness :
  exists a r',
    GestureRecognizer.update swipeReady (Some [palmHand])
    = Some (GestureRecognizer.mkResult SWIPE_RIGHT (Some a) None, r') /\
    GestureRecognizer.gesture a = OPEN_PALM /\
    GestureRecognizer.gestureHistory r' = [] /\
    GestureRecognizer.lastStableGesture r' = NONE.
Proof.
  destruct swipeReady_swipes as (a & r' & Hu).
  assert (Hseed : seeded swipeReady) by (split; [constructor | now left]).
  destruct (swipe_bypasses_the_stabiliser swipeReady r' [palmHand] _ Hseed Hu
              (or_intror eq_refl)) as ((a' & Ha & Hopen) & _ & Hg & Hs).
  exists a, r'. simpl in Ha. injection Ha as <-.
  split; [exact Hu |]. split; [exact Hopen |]. split; assumption.
Defined.

(** *** The smoothed pointer *)

Lemma sum_of_bounds (f : Vec3.t -> R) (lo hi : R) (buf : list Vec3.t) :
  Forall (fun p => lo <= f p <= hi) buf ->
  forall acc,
    acc + INR (length buf) * lo
    <= fold_left (fun sum p => sum + f p) buf acc
    <= acc + INR (length buf) * hi.
Proof.
  induction 1 as [|p buf Hp _ IH]; intros acc.
  - simpl. lra.
  - change (fold_left (fun sum q => sum + f q) (p :: buf) acc)
      with (fold_left (fun sum q => sum + f q) buf (acc + f p)).
    specialize (IH (acc + f p)).
    change (length (p :: buf)) with (S (length buf)). rewrite S_INR. lra.
Qed.

(** A mean of points lies between the bounds of the points. *)
Lemma average_bounds (f : Vec3.t -> R) (lo hi : R) (buf : list Vec3.t) :
  buf <> [] ->
  Forall (fun p => lo <= f p <= hi) buf ->
  lo <= GestureRecognizer.sum_of f buf / INR (length buf) <= hi.
Proof.
  intros Hne Hall. unfold GestureRecognizer.sum_of.
  pose proof (sum_of_bounds f lo hi buf Hall 0) as Hs.
  assert (Hn : 0 < INR (length buf)).
  { apply lt_0_INR. destruct buf; [congruence | simpl; lia]. }
  rewrite !Rplus_0_l in Hs.
  split.
  - apply Rmult_le_reg_r with (r := INR (length buf)); [exact Hn |].
    unfold Rdiv. rewrite Rmult_assoc, Rinv_l by lra. lra.
  - apply Rmult_le_reg_r with (r := INR (length buf)); [exact Hn |].
    unfold Rdiv. rewrite Rmult_assoc, Rinv_l by lra. lra.
Qed.

(** X19.  The pointer stays inside the view.  When the thumb tip and
    the index tip of a complete hand lie inside the camera image and
    the position buffer holds points inside it, the smoothed pinch
    centre returned by [analyzeHand] lies inside it too, the buffer
    still holds only such points, and the pointer the frame handler
    derives from it lies within the normalised device square
    [-1, 1] x [-1, 1] in which the ray is cast. *)
Theorem pointer_stays_in_view (r : GestureRecognizer.t) (h : Hand) :
  (21 <= length h)%nat ->
  inView (lm h 4) -> inView (lm h 8) ->
  Forall inView (GestureRecognizer.positionBuffer r) ->
  exists a r',
    GestureRecognizer.analyzeHand r h = Some (a, r') /\
    inView (GestureRecognizer.pinchCenter a) /\
    Forall inView (GestureRecognizer.positionBuffer r') /\
    exists point,
      App.pointer (Some a) (Some h) = Some point /\
      -1 <= App.ndcXOf point <= 1 /\ -1 <= App.ndcYOf point <= 1.
Proof.
  intros Hl H4 H8 Hbuf.
  destruct (analyzeHand_facts r h Hl) as (a & Ha & _ & _ & Hpc).
  set (raw := GestureRecognizer.rawPinchCenter (lm h 4) (lm h 8)) in *.
  assert (Hraw : inView raw).
  { unfold inView, raw, GestureRecognizer.rawPinchCenter in *. simpl. lra. }
  set (buf := JS.push_bounded GestureRecognizer.positionBufferSize
                (GestureRecognizer.positionBuffer r) raw) in *.
  assert (Hall : Forall inView buf) by (apply push_bounded_Forall; assumption).
  assert (Hne : buf <> []).
  { apply push_bounded_nonempty. unfold GestureRecognizer.positionBufferSize. lia. }
  assert (Hc : inView (GestureRecognizer.pinchCenter a)).
  { rewrite Hpc. unfold inView, GestureRecognizer.average. simpl. split.
    - apply average_bounds; [exact Hne |].
      eapply Forall_impl; [| exact Hall]. intros p Hp. apply Hp.
    - apply average_bounds; [exact Hne |].
      eapply Forall_impl; [| exact Hall]. intros p Hp. apply Hp. }
  eexists. eexists. split; [exact Ha |].
  split; [exact Hc |]. split; [exact Hall |].
  eexists. split; [reflexivity |].
  unfold App.ndcXOf, App.ndcYOf. simpl.
  destruct Hc as [Hx Hy]. lra.
Qed.

Lemma pointer_stays_in_view_witness :
  exists a r',
    GestureRecognizer.analyzeHand (GestureRecognizer.constructor None) pinchSample
    = Some (a, r') /\
    inView (GestureRecognizer.pinchCenter a).
Proof.
  destruct (pointer_stays_in_view (GestureRecognizer.constructor None) pinchSample)
    as (a & r' & H1 & H2 & _).
  - simpl. lia.
  - unfold inView, lm, pinchSample. simpl. lra.
  - unfold inView, lm, pinchSample. simpl. lra.
  - constructor.
  - exists a, r'. split; assumption.
Defined.

Lemma analyzeTimes_buffer (h : Hand) (n : nat) :
  forall r, (21 <= length h)%nat ->
    let raw := GestureRecognizer.rawPinchCenter (lm h 4) (lm h 8) in
    let buf := fold_left (JS.push_bounded GestureRecognizer.positionBufferSize)
                         (repeat raw (S n)) (GestureRecognizer.positionBuffer r) in
    exists a,
      analyzeTimes n r h
      = Some (a, GestureRecognizer.mk (GestureRecognizer.history r)
                   (GestureRecognizer.pinchThreshold r)
                   (GestureRecognizer.gestureHistory r)
                   (GestureRecognizer.lastStableGesture r) buf) /\
      GestureRecognizer.pinchCenter a = GestureRecognizer.average buf.
Proof.
  induction n as [|n IH]; intros r Hl; cbv zeta.
  - destruct (analyzeHand_facts r h Hl) as (a & Ha & _ & _ & Hpc).
    exists a. split; assumption.
  - destruct (analyzeHand_facts r h Hl) as (a & Ha & _).
    set (r1 := GestureRecognizer.mk _ _ _ _ _) in Ha.
    destruct (IH r1 Hl) as (a' & Ha' & Hpc'). cbv zeta in Ha', Hpc'.
    exists a'. split; [| exact Hpc'].
    change (analyzeTimes (S n) r h)
      with (x <- GestureRecognizer.analyzeHand r h ;; analyzeTimes n (snd x) h).
    rewrite Ha. cbn [JS.bind snd]. exact Ha'.
Qed.

(** Five pushes of one point fill the five places of the buffer. *)
Lemma five_pushes {A} (a : A) (buf : list A) :
  (length buf <= 5)%nat ->
  fold_left (JS.push_bounded 5) (repeat a 5) buf = repeat a 5.
Proof.
  intros H.
  destruct buf as [|b1 [|b2 [|b3 [|b4 [|b5 [|b6 rest]]]]]];
    try reflexivity; simpl in H; lia.
Qed.

(** X20.  The smoothing forgets after five frames.  When one hand is
    tracked and [analyzeHand] sees the same complete hand on five
    calls in a row, the smoothed pinch centre of the fifth is exactly
    the midpoint of its thumb tip and index tip, whatever the position
    buffer held before (within its size). *)
Theorem smoothing_settles_in_five_frames (r : GestureRecognizer.t) (h : Hand) :
  (21 <= length h)%nat ->
  (length (GestureRecognizer.positionBuffer r) <= GestureRecognizer.positionBufferSize)%nat ->
  exists a r',
    analyzeTimes 4 r h = Some (a, r') /\
    GestureRecognizer.pinchCenter a
    = GestureRecognizer.rawPinchCenter (lm h 4) (lm h 8).
Proof.
  intros Hl Hb.
  destruct (analyzeTimes_buffer h 4 r Hl) as (a & Ha & Hpc). cbv zeta in Ha, Hpc.
  exists a. eexists. split; [exact Ha |].
  rewrite Hpc. unfold GestureRecognizer.positionBufferSize in *.
  rewrite (five_pushes _ _ Hb).
  unfold GestureRecognizer.average, GestureRecognizer.sum_of.
  destruct (GestureRecognizer.rawPinchCenter (lm h 4) (lm h 8)) as [x y z].
  simpl. f_equal; field.
Qed.

Lemma smoothing_settles_in_five_frames_witness :
  exists a r',
    analyzeTimes 4 (GestureRecognizer.constructor None) palmHand = Some (a, r') /\
    GestureRecognizer.pinchCenter a = Vec3.mk (9 / 10) 0 0.
Proof.
  destruct (smoothing_settles_in_five_frames (GestureRecognizer.constructor None) palmHand)
    as (a & r' & H1 & H2).
  - simpl. lia.
  - simpl. lia.
  - exists a, r'. split; [exact H1 |]. rewrite H2.
    unfold GestureRecognizer.rawPinchCenter, lm, palmHand. simpl. f_equal; lra.
Defined.

(** ** The gesture trainer *)

Lemma obj_get_set_same {V} (o : list (string * V)) (k : string) (v : V) :
  GestureTrainer.obj_get (GestureTrainer.obj_set o k v) k = Some v.
Proof.
  induction o as [|[k0 v0] o IH]; simpl.
  - now rewrite String.eqb_refl.
  - destruct (String.eqb k0 k) eqn:E; simpl; rewrite E; auto.
Qed.

Lemma fold_Rmax_ge (l : list R) :
  forall acc, acc <= fold_left Rmax l acc /\
              forall x, In x l -> x <= fold_left Rmax l acc.
Proof.
  induction l as [|a l IH]; intros acc; simpl.
  - split; [lra | intros x []].
  - destruct (IH (Rmax acc a)) as [H1 H2].
    pose proof (Rmax_l acc a). pose proof (Rmax_r acc a).
    split; [lra |]. intros x [<- | Hx]; [lra | auto].
Qed.

Lemma pinchDistance_nonneg (s : GestureTrainer.Sample) (d : R) :
  GestureTrainer.pinchDistance s = Some d -> 0 <= d.
Proof.
  unfold GestureTrainer.pinchDistance.
  destruct (at_index _ 4); [| discriminate]. destruct (at_index _ 8); [| discriminate].
  cbn [JS.bind]. intros H. injection H as <-. apply sqrt_pos.
Qed.

Lemma pinchDistance_readable (s : GestureTrainer.Sample) :
  (9 <= length (GestureTrainer.landmarks s))%nat ->
  exists d, GestureTrainer.pinchDistance s = Some d.
Proof.
  intros H. unfold GestureTrainer.pinchDistance, at_index.
  destruct (nth_error (GestureTrainer.landmarks s) 4) eqn:E4;
    [| apply nth_error_None in E4; lia].
  destruct (nth_error (GestureTrainer.landmarks s) 8) eqn:E8;
    [| apply nth_error_None in E8; lia].
  cbn [JS.bind]. eauto.
Qed.

Lemma pinchDistances_readable (data : list GestureTrainer.Sample) :
  Forall (fun s => (9 <= length (GestureTrainer.landmarks s))%nat) data ->
  exists ds,
    GestureTrainer.pinchDistances data = Some ds /\
    forall s d, In s data -> GestureTrainer.pinchDistance s = Some d -> In d ds.
Proof.
  induction 1 as [|s data Hs _ IH]; simpl.
  - exists []. split; [reflexivity | intros ? ? []].
  - destruct (pinchDistance_readable s Hs) as [d Hd].
    destruct IH as (ds & Hds & Hin).
    exists (d :: ds). rewrite Hd, Hds. cbn [JS.bind].
    split; [reflexivity |].
    intros s' d' [<- | Hs'] Hd'; [left; congruence | right; eauto].
Qed.

(** X21.  The personalised threshold accepts every training pinch.
    With pinch samples in the training data (each holding the
    landmarks 4 and 8), [calculateThresholds] stores 1.2 times the
    largest thumb-to-index distance of the samples, and a recogniser
    built from the trainer then has a pinch threshold strictly above
    the distance of every sample: 1.2 times the largest distance, or
    the default 0.05 when all the samples had tips touching (a stored
    zero counts as absent). *)
Theorem trained_threshold_covers_the_samples
    (tr : GestureTrainer.t) (sample0 : GestureTrainer.Sample)
    (others : list GestureTrainer.Sample) :
  GestureTrainer.obj_get (GestureTrainer.trainingData tr) "PINCH" = Some (sample0 :: others) ->
  Forall (fun s => (9 <= length (GestureTrainer.landmarks s))%nat) (sample0 :: others) ->
  exists tr' d0 ds,
    GestureTrainer.calculateThresholds tr = Some tr' /\
    GestureTrainer.pinchDistances (sample0 :: others) = Some (d0 :: ds) /\
    GestureRecognizer.pinchThreshold (recognizerOf tr')
    = (if Req_dec_T (GestureTrainer.maxOf d0 ds) 0 then 5 / 100
       else GestureTrainer.maxOf d0 ds * (12 / 10)) /\
    forall s d, In s (sample0 :: others) -> GestureTrainer.pinchDistance s = Some d ->
                d < GestureRecognizer.pinchThreshold (recognizerOf tr').
Proof.
  intros Hdata Hall.
  destruct (pinchDistances_readable _ Hall) as (dl & Hdl & Hin).
  assert (Hsplit : exists d0 ds,
             dl = d0 :: ds /\ GestureTrainer.pinchDistance sample0 = Some d0 /\
             GestureTrainer.pinchDistances others = Some ds).
  { simpl in Hdl.
    destruct (GestureTrainer.pinchDistance sample0) as [d0|]; [| discriminate].
    destruct (GestureTrainer.pinchDistances others) as [ds|]; [| discriminate].
    cbn [JS.bind] in Hdl. injection Hdl as <-. eauto. }
  destruct Hsplit as (d0 & ds & -> & Hd0 & Hds).
  set (m := GestureTrainer.maxOf d0 ds).
  assert (Hthr : forall tr',
             GestureTrainer.thresholds tr'
             = Some (GestureTrainer.obj_set
                       match GestureTrainer.thresholds tr with Some o => o | None => [] end
                       "pinch" (m * (12 / 10))) ->
             GestureRecognizer.pinchThreshold (recognizerOf tr')
             = (if Req_dec_T m 0 then 5 / 100 else m * (12 / 10))).
  { intros tr' Ht. unfold recognizerOf, GestureTrainer.getPersonalizedThreshold.
    rewrite Ht, obj_get_set_same.
    unfold GestureRecognizer.constructor, JS.or_default. simpl.
    destruct (Req_dec_T m 0) as [E' | E'].
    - destruct (Req_dec_T (m * (12 / 10)) 0) as [E | E]; [reflexivity |].
      exfalso. apply E. rewrite E'. lra.
    - destruct (Req_dec_T (m * (12 / 10)) 0) as [E | E]; [exfalso; apply E'; lra |].
      simpl. destruct (Req_dec_T (m * (12 / 10)) 0); [contradiction | reflexivity]. }
  eexists. exists d0, ds.
  split.
  { unfold GestureTrainer.calculateThresholds. rewrite Hdata, Hd0, Hds.
    cbn [JS.bind]. reflexivity. }
  split; [exact Hdl |].
  match goal with |- context [recognizerOf ?t] => rewrite (Hthr t eq_refl) end.
  split; [reflexivity |].
  intros s d Hs Hd.
  pose proof (pinchDistance_nonneg s d Hd) as Hpos.
  assert (Hle : d <= m).
  { destruct (fold_Rmax_ge ds d0) as [H1 H2].
    destruct (Hin s d Hs Hd) as [<- | Hd']; [exact H1 | exact (H2 _ Hd')]. }
  destruct (Req_dec_T m 0); lra.
Qed.

Lemma trained_threshold_covers_the_samples_witness :
  exists tr',
    GestureTrainer.calculateThresholds pinchTrained = Some tr' /\
    forall s d, In s [GestureTrainer.mkSample pinchSample 0;
                      GestureTrainer.mkSample (scaleHand 2 pinchSample) 40] ->
                GestureTrainer.pinchDistance s = Some d ->
                d < GestureRecognizer.pinchThreshold (recognizerOf tr').
Proof.
  destruct (trained_threshold_covers_the_samples pinchTrained
              (GestureTrainer.mkSample pinchSample 0)
              [GestureTrainer.mkSample (scaleHand 2 pinchSample) 40])
    as (tr' & d0 & ds & H1 & _ & _ & H2).
  - reflexivity.
  - constructor; [simpl; lia |]. constructor; [simpl; lia | constructor].
  - exists tr'. split; assumption.
Defined.

(** *** Collecting the samples *)

Lemma gestures_at (i : nat) :
  (i < length GestureTrainer.gestures)%nat ->
  exists type, at_index GestureTrainer.gestures i = Some type.
Proof.
  intros H. unfold at_index.
  destruct (nth_error GestureTrainer.gestures i) eqn:E; [eauto |].
  apply nth_error_None in E. lia.
Qed.

(** One call of [collectSample] on a trainer in step. *)
Lemma collectSample_step (hand : Hand) (now : Z) (tr : GestureTrainer.t) :
  inStep tr ->
  GestureTrainer.collectSample hand now tr
  = if GestureTrainer.isTraining tr
       && (length (GestureTrainer.samples tr) <? GestureTrainer.samplesPerGesture)%nat
    then Some (GestureTrainer.mk (GestureTrainer.currentGestureIndex tr)
                 (GestureTrainer.samples tr ++ [GestureTrainer.mkSample hand now])
                 true (GestureTrainer.trainingData tr) (GestureTrainer.thresholds tr),
               (length (GestureTrainer.samples tr) =? 9)%nat)
    else Some (tr, false).
Proof.
  intros [Hlen Hidx]. unfold GestureTrainer.collectSample.
  destruct (GestureTrainer.isTraining tr); simpl; [| reflexivity].
  destruct (length (GestureTrainer.samples tr) <? GestureTrainer.samplesPerGesture)%nat;
    [| reflexivity].
  unfold GestureTrainer.updateTrainingUI. simpl.
  destruct (gestures_at _ Hidx) as [type ->]. cbn [JS.bind].
  rewrite length_app. simpl.
  replace (length (GestureTrainer.samples tr) + 1 =? GestureTrainer.samplesPerGesture)%nat
    with (length (GestureTrainer.samples tr) =? 9)%nat; [reflexivity |].
  unfold GestureTrainer.samplesPerGesture.
  destruct (Nat.eqb_spec (length (GestureTrainer.samples tr)) 9);
    destruct (Nat.eqb_spec (length (GestureTrainer.samples tr) + 1) 10); auto; lia.
Qed.

(** X22.  Sampling never throws and never overfills.  On a trainer in
    step (at most ten samples, a current gesture that exists),
    [collectSample] returns; outside training it changes nothing; in
    training, while fewer than ten samples are held, it appends the
    sample (the landmarks with the time) at the end of the buffer and
    changes nothing else, and with ten held it ignores the frame; it
    sets the advance timer exactly when the tenth sample comes in; and
    the trainer stays in step, also through the timer's callback and a
    restart. *)
Theorem collectSample_keeps_step (hand : Hand) (now : Z) (tr : GestureTrainer.t) :
  inStep tr ->
  exists tr' timer,
    GestureTrainer.collectSample hand now tr = Some (tr', timer) /\
    inStep tr' /\
    (GestureTrainer.isTraining tr = true ->
     (length (GestureTrainer.samples tr) < GestureTrainer.samplesPerGesture)%nat ->
     tr' = GestureTrainer.mk (GestureTrainer.currentGestureIndex tr)
             (GestureTrainer.samples tr ++ [GestureTrainer.mkSample hand now])
             true (GestureTrainer.trainingData tr) (GestureTrainer.thresholds tr)) /\
    (GestureTrainer.isTraining tr = false -> tr' = tr) /\
    (length (GestureTrainer.samples tr) = GestureTrainer.samplesPerGesture -> tr' = tr) /\
    (timer = true <->
     GestureTrainer.isTraining tr = true /\ length (GestureTrainer.samples tr) = 9%nat) /\
    (exists tr2, GestureTrainer.autoAdvance tr' = Some tr2 /\ inStep tr2) /\
    (exists tr3, GestureTrainer.startTraining tr' = Some tr3 /\ inStep tr3).
Proof.
  intros Hstep. rewrite (collectSample_step hand now tr Hstep).
  destruct Hstep as [Hlen Hidx].
  unfold GestureTrainer.samplesPerGesture, GestureTrainer.gestures in *.
  assert (Hauto : forall t, inStep t ->
            (exists tr2, GestureTrainer.autoAdvance t = Some tr2 /\ inStep tr2) /\
            (exists tr3, GestureTrainer.startTraining t = Some tr3 /\ inStep tr3)).
  { intros t [Hl Hi]. unfold GestureTrainer.gestures in Hi. simpl in Hi. split.
    - unfold GestureTrainer.autoAdvance, GestureTrainer.nextGesture,
        GestureTrainer.updateTrainingUI, GestureTrainer.gestures, inStep.
      destruct t as [i sm b td th]. simpl in *.
      destruct i as [|[|[|[|i]]]]; simpl; try lia;
        (eexists; split; [reflexivity |]); simpl;
        unfold GestureTrainer.samplesPerGesture; simpl; try lia; auto.
    - unfold GestureTrainer.startTraining, GestureTrainer.updateTrainingUI. simpl.
      eexists. split; [reflexivity |].
      unfold inStep, GestureTrainer.samplesPerGesture. simpl. lia. }
  destruct (GestureTrainer.isTraining tr) eqn:Et; simpl.
  - destruct (length (GestureTrainer.samples tr) <? 10)%nat eqn:El.
    + apply Nat.ltb_lt in El.
      assert (Hstep' : inStep
                (GestureTrainer.mk (GestureTrainer.currentGestureIndex tr)
                   (GestureTrainer.samples tr ++ [GestureTrainer.mkSample hand now])
                   true (GestureTrainer.trainingData tr) (GestureTrainer.thresholds tr))).
      { unfold inStep, GestureTrainer.samplesPerGesture. simpl.
        rewrite length_app. simpl. split; [lia | exact Hidx]. }
      eexists. eexists. split; [reflexivity |].
      split; [exact Hstep' |].
      split; [intros _ _; reflexivity |].
      split; [discriminate |]. split; [intros E; lia |].
      split; [| exact (Hauto _ Hstep')].
      rewrite Nat.eqb_eq. tauto.
    + apply Nat.ltb_ge in El.
      eexists. eexists. split; [reflexivity |].
      split; [split; assumption |].
      split; [intros _ Hlt; lia |].
      split; [reflexivity |]. split; [reflexivity |].
      split; [| exact (Hauto _ (conj Hlen Hidx))].
      split; [discriminate | intros [_ E]; lia].
  - eexists. eexists. split; [reflexivity |].
    split; [split; assumption |].
    split; [discriminate |].
    split; [reflexivity |]. split; [reflexivity |].
    split; [| exact (Hauto _ (conj Hlen Hidx))].
    split; [discriminate | intros [E _]; discriminate].
Qed.

Lemma inStep_trainingStarted : inStep trainingStarted.
Proof. unfold inStep, trainingStarted, GestureTrainer.samplesPerGesture. simpl. lia. Qed.

Lemma collectSample_keeps_step_witness :
  exists tr' timer,
    GestureTrainer.collectSample palmHand 0 trainingStarted = Some (tr', timer) /\
    inStep tr' /\
    GestureTrainer.samples tr' = [GestureTrainer.mkSample palmHand 0].
Proof.
  destruct (collectSample_keeps_step palmHand 0 trainingStarted inStep_trainingStarted)
    as (tr' & timer & H1 & H2 & H3 & _).
  exists tr', timer. split; [exact H1 |]. split; [exact H2 |].
  rewrite H3; [reflexivity | reflexivity |].
  unfold trainingStarted, GestureTrainer.samplesPerGesture. simpl. lia.
Defined.

(** The samples held after a run of frames: the buffer is filled up to
    ten and the rest of the frames is ignored. *)
Lemma collectAll_fills (frames : list TrainingFrame) :
  forall tr, inStep tr -> GestureTrainer.isTraining tr = true ->
    collectAll frames tr
    = Some (GestureTrainer.mk (GestureTrainer.currentGestureIndex tr)
              (GestureTrainer.samples tr
                 ++ map sampleOf
                      (firstn (10 - length (GestureTrainer.samples tr)) frames))
              true (GestureTrainer.trainingData tr) (GestureTrainer.thresholds tr)).
Proof.
  induction frames as [|f frames IH]; intros tr Hstep Ht.
  - rewrite firstn_nil. cbn [collectAll map]. rewrite app_nil_r.
    destruct tr. simpl in *. now subst.
  - cbn [collectAll].
    rewrite (collectSample_step (fst f) (snd f) tr Hstep). rewrite Ht. cbn [andb].
    destruct Hstep as [Hlen Hidx]. unfold GestureTrainer.samplesPerGesture in *.
    destruct (length (GestureTrainer.samples tr) <? 10)%nat eqn:El; cbn [JS.bind fst].
    + apply Nat.ltb_lt in El. rewrite IH.
      * cbn [GestureTrainer.samples GestureTrainer.currentGestureIndex
             GestureTrainer.trainingData GestureTrainer.thresholds].
        rewrite length_app. cbn [length].
        replace (10 - length (GestureTrainer.samples tr))%nat
          with (S (10 - (length (GestureTrainer.samples tr) + 1)))%nat by lia.
        cbn [firstn map]. rewrite <- app_assoc. cbn [app].
        destruct f. reflexivity.
      * unfold inStep, GestureTrainer.samplesPerGesture.
        cbn [GestureTrainer.samples GestureTrainer.currentGestureIndex].
        rewrite length_app. cbn [length]. split; [lia | exact Hidx].
      * reflexivity.
    + apply Nat.ltb_ge in El. rewrite IH; [| split; assumption | exact Ht].
      replace (10 - length (GestureTrainer.samples tr))%nat with 0%nat by lia.
      reflexivity.
Qed.

(** X23.  A gesture is trained on its first ten frames.  In training,
    with an empty sample buffer and a gesture before the last, any run
    of ten or more frames leaves exactly the first ten as samples, the
    later ones are ignored; the timer's callback then files these ten
    under the gesture's type, moves on to the next gesture and empties
    the buffer. *)
Theorem ten_samples_then_next_gesture
    (frames : list TrainingFrame) (tr : GestureTrainer.t) (type : string) :
  GestureTrainer.isTraining tr = true ->
  GestureTrainer.samples tr = [] ->
  (GestureTrainer.currentGestureIndex tr < 3)%nat ->
  at_index GestureTrainer.gestures (GestureTrainer.currentGestureIndex tr) = Some type ->
  (10 <= length frames)%nat ->
  exists tr1 tr2,
    collectAll frames tr = Some tr1 /\
    GestureTrainer.samples tr1 = map sampleOf (firstn 10 frames) /\
    length (GestureTrainer.samples tr1) = 10%nat /\
    GestureTrainer.autoAdvance tr1 = Some tr2 /\
    GestureTrainer.currentGestureIndex tr2 = S (GestureTrainer.currentGestureIndex tr) /\
    GestureTrainer.samples tr2 = [] /\
    GestureTrainer.isTraining tr2 = true /\
    GestureTrainer.obj_get (GestureTrainer.trainingData tr2) type
    = Some (map sampleOf (firstn 10 frames)).
Proof.
  intros Ht Hs Hi Htype Hn.
  assert (Hstep : inStep tr).
  { unfold inStep, GestureTrainer.samplesPerGesture, GestureTrainer.gestures.
    rewrite Hs. simpl. lia. }
  rewrite (collectAll_fills frames tr Hstep Ht). rewrite Hs.
  cbn [length app]. rewrite Nat.sub_0_r.
  assert (Hten : length (map sampleOf (firstn 10 frames)) = 10%nat)
    by (rewrite length_map, length_firstn; lia).
  remember (map sampleOf (firstn 10 frames)) as ten eqn:Eten.
  eexists.
  exists (GestureTrainer.mk (S (GestureTrainer.currentGestureIndex tr)) [] true
            (GestureTrainer.obj_set (GestureTrainer.trainingData tr) type ten)
            (GestureTrainer.thresholds tr)).
  split; [reflexivity |].
  cbn [GestureTrainer.samples GestureTrainer.currentGestureIndex
       GestureTrainer.isTraining GestureTrainer.trainingData].
  split; [reflexivity |].
  split; [exact Hten |].
  split.
  - unfold GestureTrainer.autoAdvance, GestureTrainer.nextGesture.
    cbn [GestureTrainer.samples GestureTrainer.currentGestureIndex
         GestureTrainer.isTraining GestureTrainer.trainingData
         GestureTrainer.thresholds].
    rewrite Htype. cbn [JS.bind].
    unfold GestureTrainer.updateTrainingUI.
    cbn [GestureTrainer.currentGestureIndex].
    destruct (GestureTrainer.currentGestureIndex tr) as [|[|[|i]]]; try lia; reflexivity.
  - split; [reflexivity |]. split; [reflexivity |]. split; [reflexivity |].
    apply obj_get_set_same.
Qed.

Lemma ten_samples_then_next_gesture_witness :
  exists tr1 tr2,
    collectAll palmFrames trainingStarted = Some tr1 /\
    length (GestureTrainer.samples tr1) = 10%nat /\
    GestureTrainer.autoAdvance tr1 = Some tr2 /\
    GestureTrainer.currentGestureIndex tr2 = 1%nat /\
    GestureTrainer.obj_get (GestureTrainer.trainingData tr2) "OPEN_PALM"
    = Some (map sampleOf (firstn 10 palmFrames)).
Proof.
  destruct (ten_samples_then_next_gesture palmFrames trainingStarted "OPEN_PALM")
    as (tr1 & tr2 & H1 & _ & H2 & H3 & H4 & _ & _ & H5).
  - reflexivity.
  - reflexivity.
  - simpl. lia.
  - reflexivity.
  - simpl. lia.
  - exists tr1, tr2. repeat split; assumption.
Defined.

(** ** The main loop *)

Lemma wellKeyed_same (w w' : VoxelWorld.t) :
  VoxelWorld.voxels w' = VoxelWorld.voxels w ->
  VoxelWorld.history w' = VoxelWorld.history w ->
  wellKeyed w -> wellKeyed w'.
Proof. unfold wellKeyed. intros -> ->. auto. Qed.

Lemma wellKeyed_stateAction (ndcX ndcY : R) (now : Z) (s : App.t) :
  wellKeyed (App.world s) -> wellKeyed (App.world (App.stateAction ndcX ndcY now s)).
Proof.
  intros Hw. unfold App.stateAction.
  destruct (App.interactionState s); try exact Hw.
  - destruct (_ && _); [| exact Hw].
    pose proof (wellKeyed_createVoxelAtCursor (App.world s) Hw) as Hc.
    destruct (VoxelWorld.createVoxelAtCursor (App.world s)) as [placed w'].
    destruct placed; exact Hc.
  - destruct (_ <? _)%Z; [| exact Hw]. simpl. apply wellKeyed_undo. exact Hw.
  - destruct (App.lastPoint s) as [[lx ly] |]; simpl; [| exact Hw].
    apply wellKeyed_same with (w := App.world s); auto.
Qed.

Lemma transition_keeps_recognizer (gesture : Gesture) (ndcX ndcY : R) (now : Z)
    (s s1 : App.t) :
  App.transition gesture ndcX ndcY now s = Some s1 ->
  App.gestureRecognizer s1 = App.gestureRecognizer s /\
  App.isPreviewMode s1 = App.isPreviewMode s.
Proof.
  intros H. unfold App.transition in H.
  destruct gesture;
    repeat match type of H with
      | context [if ?b then _ else _] => destruct b
      end;
    try discriminate H; injection H as <-; simpl; auto.
Qed.

Lemma stateAction_keeps_recognizer (ndcX ndcY : R) (now : Z) (s : App.t) :
  App.gestureRecognizer (App.stateAction ndcX ndcY now s) = App.gestureRecognizer s /\
  App.isPreviewMode (App.stateAction ndcX ndcY now s) = App.isPreviewMode s.
Proof.
  unfold App.stateAction.
  destruct (App.interactionState s); auto.
  - destruct (_ && _); auto.
    destruct (VoxelWorld.createVoxelAtCursor (App.world s)) as [placed w'].
    destruct placed; auto.
  - destruct (_ <? _)%Z; auto.
  - destruct (App.lastPoint s) as [[lx ly] |]; auto.
Qed.

(** A frame of the handler keeps the world well keyed and does not
    touch the recogniser. *)
Lemma tick_keeps (gesture : Gesture) (k : Tick) (s s' : App.t) :
  tick gesture k s = Some s' ->
  (wellKeyed (App.world s) -> wellKeyed (App.world s')) /\
  App.gestureRecognizer s' = App.gestureRecognizer s /\
  App.isPreviewMode s' = App.isPreviewMode s.
Proof.
  unfold tick, App.handleInteraction.
  destruct (App.pointer (tk_hand k) (tk_landmarks k)) as [point|]; [| discriminate].
  cbn [JS.bind]. cbv zeta.
  set (s0 := App.with_world s (snd (VoxelWorld.updateCursorFromHand (tk_ray k) (App.world s)))).
  assert (Hw0 : wellKeyed (App.world s) -> wellKeyed (App.world s0))
    by apply wellKeyed_updateCursorFromHand.
  assert (Hrest :
    match App.transition gesture (App.ndcXOf point) (App.ndcYOf point) (tk_now k) s0 with
    | Some s1 =>
        Some (App.with_lastGesture
                (App.with_lastPoint
                   (App.stateAction (App.ndcXOf point) (App.ndcYOf point) (tk_now k) s1)
                   (Some (App.ndcXOf point, App.ndcYOf point))) gesture)
    | None => Some s0
    end = Some s' ->
    (wellKeyed (App.world s) -> wellKeyed (App.world s')) /\
    App.gestureRecognizer s' = App.gestureRecognizer s /\
    App.isPreviewMode s' = App.isPreviewMode s).
  { pose proof (transition_facts gesture (App.ndcXOf point) (App.ndcYOf point)
                  (tk_now k) s0) as Ht.
    destruct (App.transition gesture _ _ (tk_now k) s0) as [s1|] eqn:Et.
    - intros H. injection H as <-. simpl.
      destruct Ht as ([Hv Hh] & _).
      destruct (transition_keeps_recognizer _ _ _ _ _ _ Et) as [Hr Hp].
      destruct (stateAction_keeps_recognizer (App.ndcXOf point) (App.ndcYOf point)
                  (tk_now k) s1) as [Hr2 Hp2].
      split; [| split; [rewrite Hr2, Hr | rewrite Hp2, Hp]; reflexivity].
      intros Hw. apply wellKeyed_stateAction.
      apply wellKeyed_same with (w := App.world s0); auto.
    - intros H. injection H as <-. auto. }
  destruct (Gesture_eq_dec gesture ZOOM_IN) as [-> | Hin].
  { intros H. injection H as <-. simpl. split; [| auto].
    intros Hw. apply wellKeyed_same with (w := App.world s0); auto. }
  destruct (Gesture_eq_dec gesture ZOOM_OUT) as [-> | Hout].
  { intros H. injection H as <-. simpl. split; [| auto].
    intros Hw. apply wellKeyed_same with (w := App.world s0); auto. }
  destruct gesture; try congruence; exact Hrest.
Qed.

(** What [update] keeps of a sound recogniser. *)
Lemma update_sound (r : GestureRecognizer.t) (hand0 : Hand) (others : list Hand) :
  seeded r -> withinCapacity r ->
  Forall (fun h => (21 <= length h)%nat) (hand0 :: others) ->
  exists res r',
    GestureRecognizer.update r (Some (hand0 :: others)) = Some (res, r') /\
    seeded r' /\ withinCapacity r'.
Proof.
  intros Hseed (Hh & Hg & Hp) Hl.
  destruct (update_cases r hand0 others Hl) as (a0 & rest & buf & _ & Hraw & Hcap & Hcases).
  specialize (Hcap Hp).
  destruct Hcases as [(z & _ & Hu) | [(sw & _ & _ & _ & Hu) | (st & Hu & Hdom & Hkeep)]].
  - eexists. eexists. split; [exact Hu |].
    split; [exact Hseed | repeat split; assumption].
  - eexists. eexists. split; [exact Hu |].
    split; [exact Hseed |].
    unfold withinCapacity; simpl; repeat split; try assumption.
    apply push_bounded_length; assumption.
  - destruct (stable_is_raw r (GestureRecognizer.gesture a0) st Hseed Hraw Hdom Hkeep)
      as [Hlabels Hst].
    eexists. eexists. split; [exact Hu |].
    split; [split; [exact Hlabels | right; exact Hst] |].
    unfold withinCapacity; simpl; repeat split; try assumption;
      apply push_bounded_length; assumption.
Qed.

Lemma update_hand_or_landmark (r r' : GestureRecognizer.t) (hand0 : Hand)
    (others : list Hand) (res : GestureRecognizer.Result) :
  GestureRecognizer.update r (Some (hand0 :: others)) = Some (res, r') ->
  App.pointer (GestureRecognizer.r_hand res) (Some hand0) <> None.
Proof.
  intros Hu.
  destruct (GestureRecognizer.r_hand res) as [a|] eqn:Eh; [simpl; discriminate |].
  assert (Hl : (21 <= length hand0)%nat).
  { unfold GestureRecognizer.update in Hu.
    destruct (GestureRecognizer.analyzeHands r (hand0 :: others)) as [hs|] eqn:E;
      [| discriminate].
    pose proof (analyzeHands_Some_long _ _ _ E) as Hall.
    now inversion Hall. }
  unfold App.pointer, at_index.
  destruct (nth_error hand0 8) eqn:E8; [cbn [JS.bind]; discriminate |].
  apply nth_error_None in E8. lia.
Qed.

Lemma frame_sound (sh : Shot) (s : App.t) :
  sound s -> complete sh ->
  exists s', App.frame (sh_landmarks sh) (sh_now sh) (sh_ray sh) s = Some s' /\ sound s'.
Proof.
  intros (Hw & Hseed & Hcap & Hz) Hc. unfold complete in Hc. unfold App.frame.
  destruct (sh_landmarks sh) as [|hand0 others].
  { exists s. split; [reflexivity |].
    split; [exact Hw |]. split; [exact Hseed |]. split; [exact Hcap | exact Hz]. }
  destruct (update_sound (App.gestureRecognizer s) hand0 others Hseed Hcap Hc)
    as (res & r' & Hu & Hseed' & Hcap').
  rewrite Hu. cbn [JS.bind fst snd].
  change (App.isPreviewMode (App.with_recognizer s r')) with (App.isPreviewMode s).
  destruct (App.isPreviewMode s).
  { eexists. split; [reflexivity |]. unfold sound. simpl. auto. }
  pose (k := mkTick (GestureRecognizer.r_hand res) (Some hand0) (sh_now sh) (sh_ray sh)).
  assert (Hk : hasPointer k) by exact (update_hand_or_landmark _ _ _ _ _ Hu).
  destruct (tick_edits (GestureRecognizer.r_gesture res) k (App.with_recognizer s r') Hk)
    as (s' & Ht & _).
  exists s'. split; [exact Ht |].
  destruct (tick_keeps _ _ _ _ Ht) as (Hw' & Hr' & _).
  pose proof (tick_camera _ _ _ _ Ht) as Hcam.
  unfold sound. rewrite Hr'. simpl.
  split; [apply Hw'; exact Hw |]. split; [exact Hseed' |]. split; [exact Hcap' |].
  rewrite Hcam. simpl.
  destruct (GestureRecognizer.r_gesture res); try exact Hz;
    unfold Rmax, Rmin;
    match goal with |- context [Rle_dec ?a ?b] => destruct (Rle_dec a b) end; lra.
Qed.

Lemma sound_init (personalizedPinch : option R) : sound (App.init personalizedPinch).
Proof.
  unfold sound, App.init. simpl.
  split; [exact wellKeyed_constructor |].
  split; [apply seeded_constructor |].
  split; [apply withinCapacity_constructor | lra].
Qed.

(** X24.  The loop keeps the application sound and never throws on
    complete hands.  From the initial state, or any sound state, every
    pass of the loop whose detected hands all have their 21 landmarks
    returns (no TypeError reaches the loop's [catch]), in preview mode
    or not, and leaves a sound state: a well-keyed world, a seeded
    recogniser within its buffer sizes, the camera between 2 and 20. *)
Theorem loop_keeps_the_app_sound (shots : list Shot) (s : App.t) :
  sound s ->
  Forall complete shots ->
  exists s', play shots s = Some s' /\ sound s'.
Proof.
  revert s. induction shots as [|sh shots IH]; intros s Hs Hc.
  - exists s. split; [reflexivity | exact Hs].
  - inversion Hc as [|? ? Hsh Hrest]; subst.
    destruct (frame_sound sh s Hs Hsh) as (s1 & Hf & Hs1).
    destruct (IH s1 Hs1 Hrest) as (s' & Hp & Hs').
    exists s'. simpl. rewrite Hf. cbn [JS.bind]. split; assumption.
Qed.

Lemma loop_keeps_the_app_sound_witness :
  exists s',
    play [mkShot [palmHand] 0 NoHit; mkShot [fistHand; palmHand] 40 NoHit;
          mkShot [pinchSample] 80 (PlaneHit (Vec3.mk 0 0 0))] (App.init None) = Some s' /\
    sound s'.
Proof.
  apply loop_keeps_the_app_sound.
  - apply sound_init.
  - repeat (constructor; [unfold complete; simpl;
                          repeat (constructor; [simpl; lia |]); constructor |]).
    constructor.
Defined.

(** ** Saving and loading again *)

Lemma entryOf_exportEntry (mesh : Mesh.t) :
  (0 <= Mesh.color mesh < 16777216)%Z ->
  VoxelWorld.entryOf (exportEntry mesh)
  = VoxelWorld.Voxel (Vec3.x (Mesh.position mesh)) (Vec3.y (Mesh.position mesh))
      (Vec3.z (Mesh.position mesh)) (reloadedColor (Mesh.color mesh)).
Proof.
  intros Hc. unfold exportEntry, VoxelWorld.entryOf.
  assert (Hx : forall a b c d,
             JSON.member (JSON.units_of "x")
               [(JSON.units_of "x", a); (JSON.units_of "y", b);
                (JSON.units_of "z", c); (JSON.units_of "color", d)] = Some a)
    by (intros; vm_compute; reflexivity).
  assert (Hy : forall a b c d,
             JSON.member (JSON.units_of "y")
               [(JSON.units_of "x", a); (JSON.units_of "y", b);
                (JSON.units_of "z", c); (JSON.units_of "color", d)] = Some b)
    by (intros; vm_compute; reflexivity).
  assert (Hz : forall a b c d,
             JSON.member (JSON.units_of "z")
               [(JSON.units_of "x", a); (JSON.units_of "y", b);
                (JSON.units_of "z", c); (JSON.units_of "color", d)] = Some c)
    by (intros; vm_compute; reflexivity).
  assert (Hcol : forall a b c d,
             JSON.member (JSON.units_of "color")
               [(JSON.units_of "x", a); (JSON.units_of "y", b);
                (JSON.units_of "z", c); (JSON.units_of "color", d)] = Some d)
    by (intros; vm_compute; reflexivity).
  rewrite Hx, Hy, Hz, Hcol. unfold VoxelWorld.colorOf, reloadedColor.
  destruct (Req_dec_T (IZR (Mesh.color mesh)) 0) as [E | E].
  - apply eq_IZR in E. rewrite E. reflexivity.
  - rewrite ZfloorZ, Z.mod_small by exact Hc.
    destruct (Z.eqb_spec (Mesh.color mesh) 0) as [E0 | E0]; [| reflexivity].
    exfalso. apply E. now rewrite E0.
Qed.

Lemma loadEntries_export (l : list (Key * Mesh.t)) :
  forall m,
    NoDup (map fst (m ++ l)) ->
    Forall (fun entry => fst entry = key_of (Mesh.position (snd entry))) l ->
    Forall (fun entry => (0 <= Mesh.color (snd entry) < 16777216)%Z) l ->
    VoxelWorld.loadEntries (map (fun entry => exportEntry (snd entry)) l) m
    = Some (VoxelWorld.Loaded, m ++ map reloaded l).
Proof.
  induction l as [|[k mesh] l IH]; intros m Hn Hk Hc.
  - simpl. now rewrite app_nil_r.
  - inversion Hk as [|? ? Hk1 Hk2]; subst. inversion Hc as [|? ? Hc1 Hc2]; subst.
    simpl in Hk1, Hc1.
    cbn [map VoxelWorld.loadEntries snd]. rewrite (entryOf_exportEntry mesh Hc1).
    assert (Habsent : JSMap.get m k = None).
    { apply get_None_keys. intros Hin.
      rewrite map_app in Hn. simpl in Hn.
      apply NoDup_remove_2 in Hn. apply Hn. apply in_or_app. now left. }
    assert (Ekey : (Vec3.x (Mesh.position mesh), Vec3.y (Mesh.position mesh),
                    Vec3.z (Mesh.position mesh)) = k) by (now rewrite Hk1).
    rewrite Ekey, (set_absent _ _ _ _ Habsent).
    rewrite IH.
    + rewrite <- app_assoc. simpl. unfold reloaded at 2. simpl.
      destruct (Mesh.position mesh). reflexivity.
    + rewrite <- app_assoc. simpl.
      rewrite !map_app in *. simpl in *. exact Hn.
    + exact Hk2.
    + exact Hc2.
Qed.

Lemma map_reloaded_id (l : list (Key * Mesh.t)) :
  Forall (fun entry => Mesh.color (snd entry) <> 0%Z) l -> map reloaded l = l.
Proof.
  induction 1 as [|[k mesh] l Hm _ IH]; [reflexivity |].
  simpl. rewrite IH. f_equal. unfold reloaded, reloadedColor. simpl in *.
  destruct (Z.eqb_spec (Mesh.color mesh) 0); [contradiction |].
  now destruct mesh.
Qed.

(** X25.  A saved world loads back.  On a sound world whose colours
    are 24-bit values, the entries [exportToJSON] builds, read by the
    loop of [loadFromJSON], rebuild every voxel under its key, at its
    position and in map order, with its colour, except that a black
    voxel (colour 0) comes back in the default cyan; when no voxel is
    black the map is rebuilt exactly. *)
Theorem export_then_load_rebuilds_the_map (w : VoxelWorld.t) :
  wellKeyed w ->
  Forall (fun entry => (0 <= Mesh.color (snd entry) < 16777216)%Z) (VoxelWorld.voxels w) ->
  VoxelWorld.loadEntries (exportData w) []
  = Some (VoxelWorld.Loaded, map reloaded (VoxelWorld.voxels w)) /\
  (Forall (fun entry => Mesh.color (snd entry) <> 0%Z) (VoxelWorld.voxels w) ->
   VoxelWorld.loadEntries (exportData w) [] = Some (VoxelWorld.Loaded, VoxelWorld.voxels w)).
Proof.
  intros (Hn & Hk & _) Hc.
  assert (H : VoxelWorld.loadEntries (exportData w) []
              = Some (VoxelWorld.Loaded, map reloaded (VoxelWorld.voxels w))).
  { unfold exportData. rewrite (loadEntries_export (VoxelWorld.voxels w) []); auto. }
  split; [exact H |].
  intros Hnz. rewrite H, (map_reloaded_id _ Hnz). reflexivity.
Qed.

Lemma wellKeyed_redVoxelWorld : wellKeyed redVoxelWorld.
Proof.
  unfold wellKeyed, redVoxelWorld; simpl.
  split; [| split].
  - constructor; [intros [] | constructor].
  - constructor; [reflexivity | constructor].
  - constructor.
Qed.

Lemma export_then_load_rebuilds_the_map_witness :
  VoxelWorld.loadEntries (exportData redVoxelWorld) []
  = Some (VoxelWorld.Loaded, VoxelWorld.voxels redVoxelWorld).
Proof.
  apply (export_then_load_rebuilds_the_map redVoxelWorld wellKeyed_redVoxelWorld).
  - constructor; [simpl; lia | constructor].
  - constructor; [simpl; discriminate | constructor].
Defined.

(** ** A whole training pass *)

Lemma obj_get_set_other {V} (o : list (string * V)) (k k' : string) (v : V) :
  k' <> k ->
  GestureTrainer.obj_get (GestureTrainer.obj_set o k v) k' = GestureTrainer.obj_get o k'.
Proof.
  intros Hne. induction o as [|[k0 v0] o IH]; simpl.
  - destruct (String.eqb_spec k k'); [congruence | reflexivity].
  - destruct (String.eqb_spec k0 k) as [-> | Hk]; simpl.
    + destruct (String.eqb_spec k k'); [congruence | reflexivity].
    + destruct (String.eqb k0 k'); auto.
Qed.

Lemma length_firstTen (frames : list TrainingFrame) :
  (10 <= length frames)%nat -> length (firstTen frames) = 10%nat.
Proof. intros H. unfold firstTen. rewrite length_map, length_firstn. lia. Qed.

(** The frames of one gesture, then the timer's callback. *)
Lemma collect_then_advance (frames : list TrainingFrame) (index : nat)
    (data : list (string * list GestureTrainer.Sample))
    (th : option (list (string * R))) (type : string) :
  (index < 3)%nat ->
  at_index GestureTrainer.gestures index = Some type ->
  (10 <= length frames)%nat ->
  collectAll frames (GestureTrainer.mk index [] true data th)
  = Some (GestureTrainer.mk index (firstTen frames) true data th) /\
  GestureTrainer.autoAdvance (GestureTrainer.mk index (firstTen frames) true data th)
  = Some (GestureTrainer.mk (S index) [] true
            (GestureTrainer.obj_set data type (firstTen frames)) th).
Proof.
  intros Hi Htype Hn. split.
  - rewrite collectAll_fills.
    + cbn [GestureTrainer.samples GestureTrainer.currentGestureIndex
           GestureTrainer.trainingData GestureTrainer.thresholds length app].
      rewrite Nat.sub_0_r. reflexivity.
    + unfold inStep, GestureTrainer.samplesPerGesture, GestureTrainer.gestures.
      simpl. lia.
    + reflexivity.
  - unfold GestureTrainer.autoAdvance, GestureTrainer.nextGesture.
    cbn [GestureTrainer.samples GestureTrainer.currentGestureIndex
         GestureTrainer.isTraining GestureTrainer.trainingData
         GestureTrainer.thresholds].
    rewrite Htype. cbn [JS.bind].
    unfold GestureTrainer.updateTrainingUI.
    cbn [GestureTrainer.currentGestureIndex].
    destruct index as [|[|[|i]]]; try lia; reflexivity.
Qed.

(** X26.  A whole training pass.  Whatever the trainer held before,
    starting the training, showing each of the four gestures for ten
    frames or more and pressing finish returns without an error when
    the pinch frames carry their landmarks; it leaves under each
    gesture type exactly the first ten frames seen for that gesture,
    stores 1.2 times the largest thumb-to-index distance of the ten
    pinch samples as the pinch threshold, and ends the training. *)
Theorem training_pass_stores_ten_per_gesture
    (f0 f1 f2 f3 : list TrainingFrame) (tr : GestureTrainer.t) :
  (10 <= length f0)%nat -> (10 <= length f1)%nat ->
  (10 <= length f2)%nat -> (10 <= length f3)%nat ->
  Forall (fun s => (9 <= length (GestureTrainer.landmarks s))%nat) (firstTen f2) ->
  exists tr' d0 ds,
    trainingPass f0 f1 f2 f3 tr = Some tr' /\
    GestureTrainer.isTraining tr' = false /\
    GestureTrainer.obj_get (GestureTrainer.trainingData tr') "OPEN_PALM"
    = Some (firstTen f0) /\
    GestureTrainer.obj_get (GestureTrainer.trainingData tr') "CLOSED"
    = Some (firstTen f1) /\
    GestureTrainer.obj_get (GestureTrainer.trainingData tr') "PINCH"
    = Some (firstTen f2) /\
    GestureTrainer.obj_get (GestureTrainer.trainingData tr') "PEACE"
    = Some (firstTen f3) /\
    GestureTrainer.pinchDistances (firstTen f2) = Some (d0 :: ds) /\
    GestureTrainer.getPersonalizedThreshold tr' "pinch"
    = (if Req_dec_T (GestureTrainer.maxOf d0 ds * (12 / 10)) 0 then None
       else Some (GestureTrainer.maxOf d0 ds * (12 / 10))).
Proof.
  intros H0 H1 H2 H3 Hread.
  destruct tr as [i0 s0 b0 data th].
  destruct (collect_then_advance f0 0 data th "OPEN_PALM") as [Ec0 Ea0];
    [lia | reflexivity | exact H0 |].
  set (data1 := GestureTrainer.obj_set data "OPEN_PALM" (firstTen f0)) in *.
  destruct (collect_then_advance f1 1 data1 th "CLOSED") as [Ec1 Ea1];
    [lia | reflexivity | exact H1 |].
  set (data2 := GestureTrainer.obj_set data1 "CLOSED" (firstTen f1)) in *.
  destruct (collect_then_advance f2 2 data2 th "PINCH") as [Ec2 Ea2];
    [lia | reflexivity | exact H2 |].
  set (data3 := GestureTrainer.obj_set data2 "PINCH" (firstTen f2)) in *.
  assert (Ec3 : collectAll f3 (GestureTrainer.mk 3 [] true data3 th)
                = Some (GestureTrainer.mk 3 (firstTen f3) true data3 th)).
  { rewrite collectAll_fills.
    - cbn [GestureTrainer.samples GestureTrainer.currentGestureIndex
           GestureTrainer.trainingData GestureTrainer.thresholds length app].
      rewrite Nat.sub_0_r. reflexivity.
    - unfold inStep, GestureTrainer.samplesPerGesture, GestureTrainer.gestures.
      simpl. lia.
    - reflexivity. }
  set (data4 := GestureTrainer.obj_set data3 "PEACE" (firstTen f3)) in *.
  assert (Gpeace : GestureTrainer.obj_get data4 "PEACE" = Some (firstTen f3))
    by apply obj_get_set_same.
  assert (Gpinch : GestureTrainer.obj_get data4 "PINCH" = Some (firstTen f2)).
  { unfold data4. rewrite obj_get_set_other by discriminate.
    apply obj_get_set_same. }
  assert (Gclosed : GestureTrainer.obj_get data4 "CLOSED" = Some (firstTen f1)).
  { unfold data4, data3. rewrite !obj_get_set_other by discriminate.
    apply obj_get_set_same. }
  assert (Gopen : GestureTrainer.obj_get data4 "OPEN_PALM" = Some (firstTen f0)).
  { unfold data4, data3, data2. rewrite !obj_get_set_other by discriminate.
    apply obj_get_set_same. }
  destruct (pinchDistances_readable _ Hread) as (dl & Hdl & _).
  pose proof (length_firstTen f2 H2) as Hlen.
  destruct (firstTen f2) as [|sample rest] eqn:Eten; [discriminate Hlen |].
  assert (Hsplit : exists d0 ds,
             dl = d0 :: ds /\ GestureTrainer.pinchDistance sample = Some d0 /\
             GestureTrainer.pinchDistances rest = Some ds).
  { simpl in Hdl.
    destruct (GestureTrainer.pinchDistance sample) as [d0|]; [| discriminate].
    destruct (GestureTrainer.pinchDistances rest) as [ds|]; [| discriminate].
    cbn [JS.bind] in Hdl. injection Hdl as <-. eauto. }
  destruct Hsplit as (d0 & ds & -> & Hd0 & Hds).
  eexists. exists d0, ds.
  split.
  { unfold trainingPass, GestureTrainer.startTraining, GestureTrainer.updateTrainingUI.
    cbn [GestureTrainer.currentGestureIndex GestureTrainer.trainingData
         GestureTrainer.thresholds at_index nth_error GestureTrainer.gestures JS.bind].
    rewrite Ec0. cbn [JS.bind]. rewrite Ea0. cbn [JS.bind].
    rewrite Ec1. cbn [JS.bind]. rewrite Ea1. cbn [JS.bind].
    rewrite Ec2. cbn [JS.bind]. rewrite Ea2. cbn [JS.bind].
    fold data3. rewrite Ec3. cbn [JS.bind].
    unfold GestureTrainer.finishTraining.
    cbn [GestureTrainer.currentGestureIndex GestureTrainer.trainingData
         GestureTrainer.thresholds GestureTrainer.samples GestureTrainer.isTraining
         at_index nth_error GestureTrainer.gestures JS.bind].
    fold data4. unfold GestureTrainer.calculateThresholds.
    cbn [GestureTrainer.trainingData]. rewrite Gpinch, Hd0, Hds. cbn [JS.bind].
    reflexivity. }
  cbn [GestureTrainer.hideTrainingModal GestureTrainer.isTraining
       GestureTrainer.trainingData GestureTrainer.currentGestureIndex
       GestureTrainer.samples GestureTrainer.thresholds].
  split; [reflexivity |].
  split; [exact Gopen |]. split; [exact Gclosed |].
  split; [exact Gpinch |]. split; [exact Gpeace |].
  split; [exact Hdl |].
  unfold GestureTrainer.getPersonalizedThreshold, GestureTrainer.hideTrainingModal.
  cbn [GestureTrainer.thresholds]. rewrite obj_get_set_same. reflexivity.
Qed.

Lemma training_pass_stores_ten_per_gesture_witness :
  exists tr',
    trainingPass palmFrames palmFrames palmFrames palmFrames
                 (GestureTrainer.constructor [] None) = Some tr' /\
    GestureTrainer.isTraining tr' = false /\
    GestureTrainer.obj_get (GestureTrainer.trainingData tr') "PINCH"
    = Some (firstTen palmFrames).
Proof.
  destruct (training_pass_stores_ten_per_gesture palmFrames palmFrames palmFrames
              palmFrames (GestureTrainer.constructor [] None))
    as (tr' & d0 & ds & H1 & H2 & _ & _ & H3 & _).
  - simpl. lia.
  - simpl. lia.
  - simpl. lia.
  - simpl. lia.
  - unfold firstTen, palmFrames. simpl.
    repeat (constructor; [simpl; lia |]). constructor.
  - exists tr'. repeat split; assumption.
Defined.
